(** * Syntherium financial truth core: a shallow embedding

    The ledger engine ([computeEntryHash], [appendEntry], [verifyChain]),
    the settlement service ([settlePayment]), the payment intent service
    ([create], [validateInvariants]), the webhook service ([processWebhook])
    and the database seed, embedded as functions over an explicit database
    state, with the properties of the specification stated against them. *)

From Stdlib Require Import ZArith Lia Ascii String List Bool.
From stdpp Require Import base option list gmap strings fin_maps.

Local Open Scope string_scope.
Local Open Scope list_scope.
Local Open Scope Z_scope.

(** ** Text helpers: JavaScript strings as byte strings (UTF-8) *)

Module Text.

Definition code (c : ascii) : Z := Z.of_N (N_of_ascii c).

Definition chr (n : Z) : ascii := ascii_of_N (Z.to_N n).

Definition bytes (s : string) : list Z := map code (list_ascii_of_string s).

(** [String(n)] / template interpolation of a non-negative integer. *)
Definition digit_char (d : Z) : ascii := chr (48 + d).

Fixpoint digits_of (fuel : nat) (n : Z) (acc : string) : string :=
  match fuel with
  | O => acc
  | S fuel' =>
      let acc' := String (digit_char (n mod 10)) acc in
      if n <? 10 then acc' else digits_of fuel' (n / 10) acc'
  end.

Definition nat_string (n : Z) : string :=
  digits_of (S (Z.to_nat (Z.log2 n))) n EmptyString.

(** Number.prototype.toString for the integers the code prints. *)
Definition int_string (n : Z) : string :=
  if n <? 0 then "-" +:+ nat_string (- n) else nat_string n.

Definition digit_of_ascii (c : ascii) : option Z :=
  let n := code c in
  if (48 <=? n) && (n <=? 57) then Some (n - 48) else None.

Definition hex_char (d : Z) : ascii :=
  if d <? 10 then chr (48 + d) else chr (87 + d).

(** [String.prototype.startsWith]. *)
Definition startsWith (s p : string) : bool := String.prefix p s.

End Text.

(** ** SHA-256 (node's [crypto.createHash('sha256')]), on 32-bit words in Z *)

Module SHA256.

Definition w32 (x : Z) : Z := x mod 2 ^ 32.

Definition add32 (x y : Z) : Z := w32 (x + y).

Definition rotr (n x : Z) : Z :=
  Z.lor (Z.shiftr x n) (w32 (Z.shiftl x (32 - n))).

Definition shr (n x : Z) : Z := Z.shiftr x n.

Definition not32 (x : Z) : Z := Z.lxor x 0xffffffff.

Definition Ch (x y z : Z) : Z := Z.lxor (Z.land x y) (Z.land (not32 x) z).

Definition Maj (x y z : Z) : Z :=
  Z.lxor (Z.lxor (Z.land x y) (Z.land x z)) (Z.land y z).

Definition Sigma0 (x : Z) : Z :=
  Z.lxor (Z.lxor (rotr 2 x) (rotr 13 x)) (rotr 22 x).

Definition Sigma1 (x : Z) : Z :=
  Z.lxor (Z.lxor (rotr 6 x) (rotr 11 x)) (rotr 25 x).

Definition sigma0 (x : Z) : Z :=
  Z.lxor (Z.lxor (rotr 7 x) (rotr 18 x)) (shr 3 x).

Definition sigma1 (x : Z) : Z :=
  Z.lxor (Z.lxor (rotr 17 x) (rotr 19 x)) (shr 10 x).

(** The constants of FIPS 180-4: the first 32 bits of the fractional parts
    of the cube roots (for [K]) and square roots (for [H0]) of the first
    primes. *)
Definition is_prime (n : Z) : bool :=
  forallb (fun d => negb (n mod d =? 0)) (map Z.of_nat (seq 2 (Z.to_nat n - 2))).

Definition primes (count : nat) : list Z :=
  take count (List.filter is_prime (map Z.of_nat (seq 2 310))).

(** The largest [r] below [2 ^ bits] with [r ^ e <= n], found bit by bit. *)
Fixpoint iroot (e : Z) (bits : nat) (n acc : Z) : Z :=
  match bits with
  | O => acc
  | S b =>
    let candidate := acc + 2 ^ Z.of_nat b in
    iroot e b n (if candidate ^ e <=? n then candidate else acc)
  end.

Definition K : list Z :=
  Eval vm_compute in map (fun p => w32 (iroot 3 36 (p * 2 ^ 96) 0)) (primes 64).

Definition H0 : list Z :=
  Eval vm_compute in map (fun p => w32 (iroot 2 36 (p * 2 ^ 64) 0)) (primes 8).

(** Big-endian bytes of the low [8 * n] bits of [x]. *)
Fixpoint be_bytes (n : nat) (x : Z) : list Z :=
  match n with
  | O => []
  | S n' => Z.shiftr x (8 * Z.of_nat n') mod 256 :: be_bytes n' x
  end.

(** Message padding: 0x80, zeros up to 56 mod 64, the bit length on 64 bits. *)
Definition pad (msg : list Z) : list Z :=
  let len := Z.of_nat (length msg) in
  let zeros := Z.to_nat ((55 - len) mod 64) in
  msg ++ 0x80 :: repeat 0 zeros ++ be_bytes 8 (8 * len).

Fixpoint words (bs : list Z) : list Z :=
  match bs with
  | b0 :: b1 :: b2 :: b3 :: rest =>
      (((b0 * 256 + b1) * 256 + b2) * 256 + b3) :: words rest
  | _ => []
  end.

Fixpoint blocks (n : nat) (ws : list Z) : list (list Z) :=
  match n with
  | O => []
  | S n' => take 16 ws :: blocks n' (drop 16 ws)
  end.

(** The message schedule, newest word first: [rev_w] holds W[t-1], W[t-2], ... *)
Fixpoint schedule (n : nat) (rev_w : list Z) : list Z :=
  match n with
  | O => rev_w
  | S n' =>
      let w :=
        add32 (add32 (sigma1 (nth 1 rev_w 0)) (nth 6 rev_w 0))
              (add32 (sigma0 (nth 14 rev_w 0)) (nth 15 rev_w 0)) in
      schedule n' (w :: rev_w)
  end.

Record regs := Regs { ra : Z; rb : Z; rc : Z; rd : Z; re : Z; rf : Z; rg : Z; rh : Z }.

Definition round (r : regs) (kw : Z * Z) : regs :=
  let '(k, w) := kw in
  let t1 := add32 (add32 (add32 (rh r) (Sigma1 (re r))) (Ch (re r) (rf r) (rg r)))
                  (add32 k w) in
  let t2 := add32 (Sigma0 (ra r)) (Maj (ra r) (rb r) (rc r)) in
  Regs (add32 t1 t2) (ra r) (rb r) (rc r) (add32 (rd r) t1) (re r) (rf r) (rg r).

Definition regs_of (h : list Z) : regs :=
  Regs (nth 0 h 0) (nth 1 h 0) (nth 2 h 0) (nth 3 h 0)
       (nth 4 h 0) (nth 5 h 0) (nth 6 h 0) (nth 7 h 0).

Definition compress (h : list Z) (block : list Z) : list Z :=
  let w := rev (schedule 48 (rev block)) in
  let r0 := regs_of h in
  let r := fold_left round (combine K w) r0 in
  [ add32 (ra r0) (ra r); add32 (rb r0) (rb r); add32 (rc r0) (rc r);
    add32 (rd r0) (rd r); add32 (re r0) (re r); add32 (rf r0) (rf r);
    add32 (rg r0) (rg r); add32 (rh r0) (rh r) ].

Definition digest (msg : list Z) : list Z :=
  let ws := words (pad msg) in
  fold_left compress (blocks (Nat.div (length ws) 16) ws) H0.

Fixpoint hex_digits (n : nat) (x : Z) (acc : string) : string :=
  match n with
  | O => acc
  | S n' => hex_digits n' (x / 16) (String (Text.hex_char (x mod 16)) acc)
  end.

(** [.update(s).digest('hex')]: 64 lowercase hexadecimal characters. *)
Definition hex (s : string) : string :=
  fold_right (fun w acc => hex_digits 8 w acc) EmptyString (digest (Text.bytes s)).

End SHA256.

(** ** [JSON.stringify] of the flat objects the ledger hashes

    Strings are UTF-8 byte strings, so characters above U+007F pass through
    unchanged; the escapes are those of ECMA-262 QuoteJSONString. *)

Module JSON.

Inductive value :=
  | Null
  | Str (s : string)
  | Num (n : Z).

Definition quote : ascii := Text.chr 34.
Definition backslash : ascii := Text.chr 92.

Definition escape_char (c : ascii) : string :=
  let n := Text.code c in
  if n =? 34 then String backslash (String quote EmptyString)
  else if n =? 92 then String backslash (String backslash EmptyString)
  else if n =? 8 then String backslash "b"
  else if n =? 12 then String backslash "f"
  else if n =? 10 then String backslash "n"
  else if n =? 13 then String backslash "r"
  else if n =? 9 then String backslash "t"
  else if n <? 32 then
    String backslash ("u00" +:+ String (Text.hex_char (n / 16))
                                 (String (Text.hex_char (n mod 16)) EmptyString))
  else String c EmptyString.

Fixpoint escape (s : string) : string :=
  match s with
  | EmptyString => EmptyString
  | String c s' => escape_char c +:+ escape s'
  end.

Definition quoted (s : string) : string :=
  String quote (escape s +:+ String quote EmptyString).

Definition stringify_value (v : value) : string :=
  match v with
  | Null => "null"
  | Str s => quoted s
  | Num n => Text.int_string n
  end.

Definition member (kv : string * value) : string :=
  quoted (fst kv) +:+ ":" +:+ stringify_value (snd kv).

Fixpoint members (kvs : list (string * value)) : string :=
  match kvs with
  | [] => EmptyString
  | [kv] => member kv
  | kv :: rest => member kv +:+ "," +:+ members rest
  end.

Definition stringify (kvs : list (string * value)) : string :=
  "{" +:+ members kvs +:+ "}".

Definition of_nullable (o : option string) : value :=
  match o with
  | Some s => Str s
  | None => Null
  end.

End JSON.

(** ** [Prisma.Decimal] at the scale of the amount columns

    The README of the database library fixes the amount columns at
    Decimal(19,4). A [Decimal] is the exact number of ten-thousandths, so
    [10000] is one naira. Literals in exponent or radix notation, the
    special values and literals with more than four fractional digits are
    outside this embedding; no theorem below rests on how they behave.

    The embedding is exact on the amounts the columns hold: a value read by
    [ofString] (a literal of at most four fractional digits) that
    [fits_column] (below 10^15 in magnitude) is stored and read back
    unchanged, and [toString] prints it in normal notation. Outside that
    range the code differs: the constructor reads more literals than
    [ofString] does (a leading plus, a bare point, exponents, Infinity, NaN,
    further decimals, which the column then rounds), a write above the
    column maximum is refused by the database, and [Decimal.toString] turns
    to exponent notation from 1e21 on. Statements that depend on this name
    the range as a hypothesis. *)

Module Prisma.

Definition Decimal : Type := Z.

Fixpoint fixed_digits (k : nat) (n : Z) (acc : string) : string :=
  match k with
  | O => acc
  | S k' => fixed_digits k' (n / 10) (String (Text.digit_char (n mod 10)) acc)
  end.

(** The fractional digits without their trailing zeros. *)
Fixpoint strip_zeros (k : nat) (f : Z) : string :=
  match k with
  | O => EmptyString
  | S k' => if f mod 10 =? 0 then strip_zeros k' (f / 10)
            else fixed_digits k f EmptyString
  end.

(** [Decimal.prototype.toString]: normal notation, no trailing zeros,
    no decimal point on integers, no sign on zero. (The library turns to
    exponent notation from 1e21 on, far above what a column holds.) *)
Definition toString (d : Decimal) : string :=
  let a := Z.abs d in
  let body :=
    Text.nat_string (a / 10000) +:+
    (if a mod 10000 =? 0 then EmptyString
     else "." +:+ strip_zeros 4 (a mod 10000)) in
  if d <? 0 then "-" +:+ body else body.

Fixpoint parse_frac (k : nat) (acc : Z) (s : string) {struct s} : option Z :=
  match s with
  | EmptyString => Some (acc * 10 ^ Z.of_nat k)
  | String c s' =>
      match k, Text.digit_of_ascii c with
      | S k', Some d => parse_frac k' (10 * acc + d) s'
      | _, _ => None
      end
  end.

Fixpoint parse_int (acc : Z) (seen : bool) (s : string) : option Z :=
  match s with
  | EmptyString => if seen then Some (acc * 10000) else None
  | String c s' =>
      if Text.code c =? 46 then (if seen then parse_frac 4 acc s' else None)
      else match Text.digit_of_ascii c with
           | Some d => parse_int (10 * acc + d) true s'
           | None => None
           end
  end.

(** [new Prisma.Decimal(s)] on the literals of at most four fractional
    digits, an optional minus sign, digits, and optionally a point and up to
    four digits: the texts of the amounts a column holds. [None] stands for
    the DecimalError the constructor throws on an invalid argument; the
    further literals the constructor reads are given [None] as well, and
    are kept out of the statements by a hypothesis on [ofString]. *)
Definition ofString (s : string) : option Decimal :=
  match s with
  | String c s' =>
      if Text.code c =? 45 then Z.opp <$> parse_int 0 false s'
      else parse_int 0 false s
  | EmptyString => None
  end.

Definition add (x y : Decimal) : Decimal := x + y.
Definition sub (x y : Decimal) : Decimal := x - y.
Definition negated (x : Decimal) : Decimal := - x.
Definition lessThan (x y : Decimal) : bool := x <? y.
Definition lessThanOrEqualTo (x y : Decimal) : bool := x <=? y.
Definition greaterThan (x y : Decimal) : bool := y <? x.

(** What a Decimal(19,4) column holds: fifteen digits before the point. *)
Definition fits_column (d : Decimal) : Prop := Z.abs d < 10 ^ 19.

(** The text the constructor tests and reports: its argument without a
    leading minus sign. *)
Definition unsigned (s : string) : string :=
  match s with
  | String c s' => if Text.code c =? 45 then s' else s
  | EmptyString => s
  end.

End Prisma.

(** ** The database: tables of the Prisma schema as the services use them

    The schema and the client generated from it are not among the sources;
    the enumerations and rows below follow the data model of the
    specification and the fields the services read and write. *)

(** Modelled from the spec: the generated enum LedgerEntryType,
    [entryType ∈ {CREDIT, DEBIT}]. *)
Inductive LedgerEntryType := CREDIT | DEBIT.

Definition LedgerEntryType_text (t : LedgerEntryType) : string :=
  match t with
  | CREDIT => "CREDIT"
  | DEBIT => "DEBIT"
  end.

#[global] Instance LedgerEntryType_eq_dec : EqDecision LedgerEntryType.
Proof. solve_decision. Defined.

(** Modelled from the spec: the generated enum PaymentIntentStatus, the
    states of the intent state machine. *)
Module PaymentIntentStatus.
Inductive t := PENDING | INITIATED | CONFIRMING | SETTLED | FAILED | EXPIRED | REFUNDED.

#[global] Instance eq_dec : EqDecision t.
Proof. solve_decision. Defined.

Definition text (s : t) : string :=
  match s with
  | PENDING => "PENDING"
  | INITIATED => "INITIATED"
  | CONFIRMING => "CONFIRMING"
  | SETTLED => "SETTLED"
  | FAILED => "FAILED"
  | EXPIRED => "EXPIRED"
  | REFUNDED => "REFUNDED"
  end.
End PaymentIntentStatus.

(** Modelled from the spec: the generated enum WebhookStatus, the states of
    the webhook state machine. *)
Module WebhookStatus.
Inductive t := RECEIVED | VERIFIED | PROCESSED | FAILED | DUPLICATE.

#[global] Instance eq_dec : EqDecision t.
Proof. solve_decision. Defined.
End WebhookStatus.

(** Modelled from the spec: the generated enum PaymentProvider. The
    services name flutterwave; the security library also knows paystack. *)
Module PaymentProvider.
Inductive t := flutterwave | paystack.

#[global] Instance eq_dec : EqDecision t.
Proof. solve_decision. Defined.
End PaymentProvider.

(** Modelled from the spec: the generated row types, with the fields of the
    data model that the services touch. Timestamps set by the store are
    left out, [processedAt] excepted. *)
Module LedgerEntry.
Record t := mk {
  id : string;
  accountId : string;
  walletSeq : Z;
  reference : string;
  orderId : option string;
  entryType : LedgerEntryType;
  amount : Prisma.Decimal;
  description : option string;
  prevHash : option string;
  entryHash : string
}.
End LedgerEntry.

Module WalletBalanceCache.
Record t := mk {
  balance : Prisma.Decimal;
  currency : string;
  lastEntrySeq : Z
}.
End WalletBalanceCache.

Module PaymentIntent.
Record t := mk {
  id : string;
  reference : string;
  orderId : string;
  amount : Prisma.Decimal;
  originalAmount : Prisma.Decimal;
  discountAmount : Prisma.Decimal;
  discountCode : option string;
  provider : PaymentProvider.t;
  currency : string;
  status : PaymentIntentStatus.t;
  metadata : option string
}.

Definition with_status (s : PaymentIntentStatus.t) (i : t) : t :=
  mk (id i) (reference i) (orderId i) (amount i) (originalAmount i)
     (discountAmount i) (discountCode i) (provider i) (currency i) s (metadata i).
End PaymentIntent.

Module WebhookInbox.
Record t := mk {
  id : string;
  provider : PaymentProvider.t;
  providerEventId : string;
  reference : option string;
  payload : string;
  headers : gmap string string;
  status : WebhookStatus.t;
  errorMessage : option string;
  processedAt : option Z
}.

Definition with_status (s : WebhookStatus.t) (w : t) : t :=
  mk (id w) (provider w) (providerEventId w) (reference w) (payload w)
     (headers w) s (errorMessage w) (processedAt w).

Definition with_errorMessage (m : string) (w : t) : t :=
  mk (id w) (provider w) (providerEventId w) (reference w) (payload w)
     (headers w) (status w) (Some m) (processedAt w).

Definition with_processedAt (now : Z) (w : t) : t :=
  mk (id w) (provider w) (providerEventId w) (reference w) (payload w)
     (headers w) (status w) (errorMessage w) (Some now).
End WebhookInbox.

(** One database behind all services. The wallet cache is keyed by its
    primary key; the other tables keep their rows in insertion order.
    [nextId] feeds the generated row identifiers. *)
Record DB := mkDB {
  ledgerEntry : list LedgerEntry.t;
  walletBalanceCache : gmap string WalletBalanceCache.t;
  paymentIntent : list PaymentIntent.t;
  webhookInbox : list WebhookInbox.t;
  nextId : Z
}.

Definition empty_db : DB := mkDB [] ∅ [] [] 0.

(** ** [LIKE] as PostgreSQL matches it

    In a pattern [%] stands for any run of characters, [_] for any one
    character, and the backslash, the default escape character, takes the
    character after it literally; every other character stands for itself,
    and the match is of the whole text, case kept. Texts are byte strings
    here: [_] takes one byte with the continuation bytes (10xxxxxx) that
    follow it, which is one character of a UTF-8 text. *)

Module Sql.

Fixpoint skip_continuation (s : list Z) : list Z :=
  match s with
  | b :: s' => if (128 <=? b) && (b <? 192) then skip_continuation s' else s
  | [] => []
  end.

Fixpoint like (pattern : list Z) : list Z → bool :=
  match pattern with
  | [] => λ s, match s with [] => true | _ :: _ => false end
  | c :: rest =>
      if c =? 37 then
        fix any_run (s : list Z) : bool :=
          like rest s || match s with [] => false | _ :: s' => any_run s' end
      else if c =? 95 then
        λ s, match s with [] => false | _ :: s' => like rest (skip_continuation s') end
      else if c =? 92 then
        match rest with
        | [] => λ _, false
        | q :: rest' =>
            λ s, match s with [] => false | b :: s' => (b =? q) && like rest' s' end
        end
      else
        λ s, match s with [] => false | b :: s' => (b =? c) && like rest s' end
  end.

(** [text LIKE prefix || '%']. A pattern built this way never ends in a
    lone escape character, for which PostgreSQL raises an error. *)
Definition like_prefix (prefix text : string) : bool :=
  like (Text.bytes prefix ++ [37]) (Text.bytes text).


End Sql.

(** ** Exceptions and the monad of database code *)

Inductive Exception :=
  | Error (message : string)
  | DecimalError (message : string)
  | UniqueConstraintViolation (target : string)
  | BadRequestException (code : string) (message : string).

(** A call either returns with the database as it left it, or throws with
    the database as it stood when it threw. *)
Inductive Outcome (A : Type) :=
  | Returned (a : A) (db : DB)
  | Thrown (e : Exception) (db : DB).

Arguments Returned {A} a db.
Arguments Thrown {A} e db.

Definition Tx (A : Type) : Type := DB → Outcome A.

Definition ret {A} (a : A) : Tx A := λ db, Returned a db.

Definition bind {A B} (m : Tx A) (k : A → Tx B) : Tx B :=
  λ db, match m db with
        | Returned a db' => k a db'
        | Thrown e db' => Thrown e db'
        end.

Definition throw {A} (e : Exception) : Tx A := λ db, Thrown e db.

Definition read {A} (f : DB → A) : Tx A := λ db, Returned (f db) db.

Definition write (f : DB → DB) : Tx unit := λ db, Returned tt (f db).

Notation "'let*' x ':=' m 'in' k" := (bind m (λ x, k))
  (at level 10, x name, m at level 100, k at level 200).
Notation "m ';;' k" := (bind m (λ _, k))
  (at level 100, k at level 200, right associativity).

(** [prisma.$transaction(callback)]: the writes of a callback that throws
    are rolled back, and the exception reaches the caller. *)
Definition transaction {A} (callback : Tx A) : Tx A :=
  λ db, match callback db with
        | Returned a db' => Returned a db'
        | Thrown e _ => Thrown e db
        end.

(** [@default(cuid())]: a fresh opaque identifier per created row. *)
Definition cuid (n : Z) : string := "c" +:+ Text.nat_string n.

Definition fresh_id : Tx string :=
  λ db, Returned (cuid (nextId db))
          (mkDB (ledgerEntry db) (walletBalanceCache db) (paymentIntent db)
                (webhookInbox db) (nextId db + 1)).

(** [new Prisma.Decimal(s)]. *)
Definition new_Decimal (s : string) : Tx Prisma.Decimal :=
  match Prisma.ofString s with
  | Some d => ret d
  | None => throw (DecimalError ("[DecimalError] Invalid argument: " +:+ Prisma.unsigned s))
  end.

(** *** Table access *)

Module ledgerEntry_.

Definition matches (accountId reference : string) (e : LedgerEntry.t) : bool :=
  bool_decide (LedgerEntry.accountId e = accountId) &&
  bool_decide (LedgerEntry.reference e = reference).

(** [findUnique({ where: { accountId_reference } })]. *)
Definition findUnique (accountId reference : string) : Tx (option LedgerEntry.t) :=
  read (λ db, List.find (matches accountId reference) (ledgerEntry db)).

Fixpoint last_of (accountId : string) (best : option LedgerEntry.t)
         (es : list LedgerEntry.t) : option LedgerEntry.t :=
  match es with
  | [] => best
  | e :: es' =>
      if bool_decide (LedgerEntry.accountId e = accountId) then
        match best with
        | Some b =>
            if LedgerEntry.walletSeq b <? LedgerEntry.walletSeq e
            then last_of accountId (Some e) es'
            else last_of accountId best es'
        | None => last_of accountId (Some e) es'
        end
      else last_of accountId best es'
  end.

(** [findFirst({ where: { accountId }, orderBy: { walletSeq: 'desc' } })]. *)
Definition findFirst_desc (accountId : string) : Tx (option LedgerEntry.t) :=
  read (λ db, last_of accountId None (ledgerEntry db)).

(** [findFirst({ where: { accountId, walletSeq } })]. *)
Definition findFirst_seq (accountId : string) (seq : Z) : Tx (option LedgerEntry.t) :=
  read (λ db, List.find
                (λ e, bool_decide (LedgerEntry.accountId e = accountId) &&
                      (LedgerEntry.walletSeq e =? seq))
                (ledgerEntry db)).

Definition insert (e : LedgerEntry.t) (db : DB) : DB :=
  mkDB (ledgerEntry db ++ [e]) (walletBalanceCache db) (paymentIntent db)
       (webhookInbox db) (nextId db).

(** [create({ data })], under the unique index on (accountId, reference). *)
Definition create (mk_row : string → LedgerEntry.t) : Tx LedgerEntry.t :=
  let* id := fresh_id in
  let row := mk_row id in
  let* clash := findUnique (LedgerEntry.accountId row) (LedgerEntry.reference row) in
  match clash with
  | Some _ => throw (UniqueConstraintViolation "LedgerEntry(accountId, reference)")
  | None => write (insert row) ;; ret row
  end.

Fixpoint insert_sorted (e : LedgerEntry.t) (es : list LedgerEntry.t) : list LedgerEntry.t :=
  match es with
  | [] => [e]
  | x :: es' =>
      if LedgerEntry.walletSeq e <? LedgerEntry.walletSeq x
      then e :: x :: es'
      else x :: insert_sorted e es'
  end.

(** [orderBy: { walletSeq: 'asc' }], stable. *)
Definition sort_asc (es : list LedgerEntry.t) : list LedgerEntry.t :=
  fold_right insert_sorted [] es.

Definition in_window (accountId : string) (fromSeq toSeq : option Z)
           (e : LedgerEntry.t) : bool :=
  bool_decide (LedgerEntry.accountId e = accountId) &&
  match toSeq, fromSeq with
  | Some u, _ => LedgerEntry.walletSeq e <=? u
  | None, Some f => f <=? LedgerEntry.walletSeq e
  | None, None => true
  end.

(** [findMany({ where: { accountId, ...gte, ...lte }, orderBy: asc })]: the
    two spreads write the same [walletSeq] key, so when both bounds are
    given the later one, [lte], is the filter. *)
Definition findMany_window (accountId : string) (fromSeq toSeq : option Z)
  : Tx (list LedgerEntry.t) :=
  read (λ db, sort_asc (List.filter (in_window accountId fromSeq toSeq) (ledgerEntry db))).

(** [findMany({ where: { reference: { startsWith } } })]: Prisma sends
    [reference LIKE prefix || '%'] without escaping the prefix. *)
Definition findMany_startsWith (prefix : string) : Tx (list LedgerEntry.t) :=
  read (λ db, List.filter (λ e, Sql.like_prefix prefix (LedgerEntry.reference e))
                          (ledgerEntry db)).

(** [findMany({ where: { accountId } })]. *)
Definition findMany_account (accountId : string) : Tx (list LedgerEntry.t) :=
  read (λ db, List.filter (λ e, bool_decide (LedgerEntry.accountId e = accountId))
                          (ledgerEntry db)).

End ledgerEntry_.

Module walletBalanceCache_.

Definition findUnique (accountId : string) : Tx (option WalletBalanceCache.t) :=
  read (λ db, walletBalanceCache db !! accountId).

Definition put (accountId : string) (row : WalletBalanceCache.t) (db : DB) : DB :=
  mkDB (ledgerEntry db) (<[accountId := row]> (walletBalanceCache db))
       (paymentIntent db) (webhookInbox db) (nextId db).

(** [update({ where: { accountId }, data: { balance, lastEntrySeq } })]. *)
Definition update (accountId : string) (balance : Prisma.Decimal) (lastEntrySeq : Z)
  : Tx unit :=
  let* row := findUnique accountId in
  match row with
  | Some r =>
      write (put accountId
               (WalletBalanceCache.mk balance (WalletBalanceCache.currency r) lastEntrySeq))
  | None => throw (Error "Record to update not found.")
  end.

(** [create({ data })], under the primary key on accountId. *)
Definition create (accountId : string) (row : WalletBalanceCache.t) : Tx unit :=
  let* clash := findUnique accountId in
  match clash with
  | Some _ => throw (UniqueConstraintViolation "WalletBalanceCache(accountId)")
  | None => write (put accountId row)
  end.

End walletBalanceCache_.

(** ** ledger-core *)

Module AppendEntryParams.
Record t := mk {
  reference : string;
  orderId : option string;
  accountId : string;
  entryType : LedgerEntryType;
  amount : string + Prisma.Decimal;
  description : option string
}.
End AppendEntryParams.

Module AppendEntryResult.
Record t := mk {
  id : string;
  accountId : string;
  walletSeq : Z;
  reference : string;
  entryType : LedgerEntryType;
  amount : Prisma.Decimal;
  entryHash : string;
  prevHash : option string
}.

Definition of_entry (e : LedgerEntry.t) : t :=
  mk (LedgerEntry.id e) (LedgerEntry.accountId e) (LedgerEntry.walletSeq e)
     (LedgerEntry.reference e) (LedgerEntry.entryType e) (LedgerEntry.amount e)
     (LedgerEntry.entryHash e) (LedgerEntry.prevHash e).
End AppendEntryResult.

Module VerifyChainResult.
Record t := mk {
  accountId : string;
  valid : bool;
  entriesVerified : Z;
  brokenAtSeq : option Z;
  expectedHash : option string;
  actualHash : option string;
  message : string
}.
End VerifyChainResult.

(** The canonical JSON text whose digest is the entry hash. *)
Definition canonical (prevHash : option string) (accountId : string) (walletSeq : Z)
           (reference entryType amount : string) (description : option string) : string :=
  JSON.stringify
    [ ("prevHash", JSON.of_nullable prevHash);
      ("accountId", JSON.Str accountId);
      ("walletSeq", JSON.Num walletSeq);
      ("reference", JSON.Str reference);
      ("entryType", JSON.Str entryType);
      ("amount", JSON.Str amount);
      ("description", JSON.of_nullable description) ].

Definition computeEntryHash (prevHash : option string) (accountId : string) (walletSeq : Z)
           (reference entryType amount : string) (description : option string) : string :=
  SHA256.hex (canonical prevHash accountId walletSeq reference entryType amount description).

(** The plain [Error]s of appendEntry, under the names the specification
    gives them. *)
Definition INSUFFICIENT_BALANCE (accountId : string) (current : Prisma.Decimal)
           (required : string) : Exception :=
  Error ("Insufficient balance for " +:+ accountId +:+ ". " +:+
         "Current: " +:+ Prisma.toString current +:+ ", " +:+
         "Required: " +:+ required).

Definition DEBIT_ON_NON_EXISTENT_WALLET (accountId : string) : Exception :=
  Error ("Cannot debit non-existent wallet: " +:+ accountId).

Definition amount_text (amount : string + Prisma.Decimal) : string :=
  match amount with
  | inl s => s
  | inr d => Prisma.toString d
  end.

Definition appendEntry (params : AppendEntryParams.t) : Tx AppendEntryResult.t :=
  let reference := AppendEntryParams.reference params in
  let orderId := AppendEntryParams.orderId params in
  let accountId := AppendEntryParams.accountId params in
  let entryType := AppendEntryParams.entryType params in
  let description := AppendEntryParams.description params in
  let amountStr := amount_text (AppendEntryParams.amount params) in
  let* amountDecimal := new_Decimal amountStr in
  let* existingEntry := ledgerEntry_.findUnique accountId reference in
  match existingEntry with
  | Some existing => ret (AppendEntryResult.of_entry existing)
  | None =>
      let* lastEntry := ledgerEntry_.findFirst_desc accountId in
      let prevHash := LedgerEntry.entryHash <$> lastEntry in
      let walletSeq := default 0 (LedgerEntry.walletSeq <$> lastEntry) + 1 in
      let entryHash :=
        computeEntryHash prevHash accountId walletSeq reference
          (LedgerEntryType_text entryType) amountStr description in
      let* entry :=
        ledgerEntry_.create
          (λ id, LedgerEntry.mk id accountId walletSeq reference orderId entryType
                   amountDecimal description prevHash entryHash) in
      let balanceChange :=
        match entryType with
        | CREDIT => amountDecimal
        | DEBIT => Prisma.negated amountDecimal
        end in
      let* existingBalance := walletBalanceCache_.findUnique accountId in
      match existingBalance with
      | Some cached =>
          let newBalance := Prisma.add (WalletBalanceCache.balance cached) balanceChange in
          if Prisma.lessThan newBalance 0 then
            throw (INSUFFICIENT_BALANCE accountId (WalletBalanceCache.balance cached) amountStr)
          else
            walletBalanceCache_.update accountId newBalance walletSeq ;;
            ret (AppendEntryResult.of_entry entry)
      | None =>
          match entryType with
          | DEBIT => throw (DEBIT_ON_NON_EXISTENT_WALLET accountId)
          | CREDIT =>
              walletBalanceCache_.create accountId
                (WalletBalanceCache.mk amountDecimal "NGN" walletSeq) ;;
              ret (AppendEntryResult.of_entry entry)
          end
      end
  end.

(** The loop of verifyChain over the entries read, with the running
    [prevHash]. *)
Fixpoint verify_entries (accountId : string) (fromSeq : option Z) (total : Z)
         (prevHash : option string) (entries : list LedgerEntry.t) : VerifyChainResult.t :=
  match entries with
  | [] =>
      VerifyChainResult.mk accountId true total None None None "Chain integrity verified"
  | entry :: rest =>
      let expectedHash :=
        computeEntryHash prevHash (LedgerEntry.accountId entry) (LedgerEntry.walletSeq entry)
          (LedgerEntry.reference entry) (LedgerEntryType_text (LedgerEntry.entryType entry))
          (Prisma.toString (LedgerEntry.amount entry)) (LedgerEntry.description entry) in
      if negb (String.eqb expectedHash (LedgerEntry.entryHash entry)) then
        VerifyChainResult.mk accountId false
          (LedgerEntry.walletSeq entry - default 1 fromSeq)
          (Some (LedgerEntry.walletSeq entry))
          (Some expectedHash) (Some (LedgerEntry.entryHash entry))
          ("Chain broken at sequence " +:+ Text.int_string (LedgerEntry.walletSeq entry))
      else if negb (bool_decide (LedgerEntry.prevHash entry = prevHash)) then
        VerifyChainResult.mk accountId false
          (LedgerEntry.walletSeq entry - default 1 fromSeq)
          (Some (LedgerEntry.walletSeq entry))
          (Some (default "null" prevHash))
          (Some (default "null" (LedgerEntry.prevHash entry)))
          ("Previous hash mismatch at sequence " +:+
           Text.int_string (LedgerEntry.walletSeq entry))
      else verify_entries accountId fromSeq total (Some (LedgerEntry.entryHash entry)) rest
  end.

Definition verifyChain (accountId : string) (fromSeq toSeq : option Z)
  : Tx VerifyChainResult.t :=
  let* entries := ledgerEntry_.findMany_window accountId fromSeq toSeq in
  match entries with
  | [] =>
      ret (VerifyChainResult.mk accountId true 0 None None None
             "No entries found for account")
  | _ =>
      let* prevHash :=
        match fromSeq with
        | Some f =>
            if (negb (f =? 0)) && (1 <? f) then
              let* prevEntry := ledgerEntry_.findFirst_seq accountId (f - 1) in
              ret (LedgerEntry.entryHash <$> prevEntry)
            else ret None
        | None => ret None
        end in
      ret (verify_entries accountId fromSeq (Z.of_nat (length entries)) prevHash entries)
  end.

Definition getBalance (accountId : string) : Tx (option (Prisma.Decimal * Z)) :=
  let* cache := walletBalanceCache_.findUnique accountId in
  ret ((λ c, (WalletBalanceCache.balance c, WalletBalanceCache.lastEntrySeq c)) <$> cache).

Definition recomputeBalance (accountId : string) : Tx Prisma.Decimal :=
  let* entries := ledgerEntry_.findMany_account accountId in
  ret (fold_left
         (λ balance entry,
            match LedgerEntry.entryType entry with
            | CREDIT => Prisma.add balance (LedgerEntry.amount entry)
            | DEBIT => Prisma.sub balance (LedgerEntry.amount entry)
            end)
         entries 0).

(** ** settlement-service *)

Definition PLATFORM_ESCROW : string := "PLATFORM_ESCROW".
Definition MARKETING_WALLET : string := "MARKETING_WALLET".

Module SettlementResult.
Record t := mk {
  success : bool;
  paymentIntentId : string;
  reference : string;
  ledgerEntries : list AppendEntryResult.t;
  message : string
}.
End SettlementResult.

Module paymentIntent_.

Definition findUnique_id (id : string) : Tx (option PaymentIntent.t) :=
  read (λ db, List.find (λ i, bool_decide (PaymentIntent.id i = id)) (paymentIntent db)).

Definition findUnique_reference (reference : string) : Tx (option PaymentIntent.t) :=
  read (λ db, List.find (λ i, bool_decide (PaymentIntent.reference i = reference))
                        (paymentIntent db)).

Definition set_rows (rows : list PaymentIntent.t) (db : DB) : DB :=
  mkDB (ledgerEntry db) (walletBalanceCache db) rows (webhookInbox db) (nextId db).

(** [update({ where: { id }, data: { status } })]. *)
Definition update_status (id : string) (status : PaymentIntentStatus.t) : Tx unit :=
  let* row := findUnique_id id in
  match row with
  | Some _ =>
      write (λ db, set_rows
                     (map (λ i, if bool_decide (PaymentIntent.id i = id)
                                then PaymentIntent.with_status status i else i)
                          (paymentIntent db)) db)
  | None => throw (Error "Record to update not found.")
  end.

(** [create({ data })], under the unique index on reference. *)
Definition create (mk_row : string → PaymentIntent.t) : Tx PaymentIntent.t :=
  let* id := fresh_id in
  let row := mk_row id in
  let* clash := findUnique_reference (PaymentIntent.reference row) in
  match clash with
  | Some _ => throw (UniqueConstraintViolation "PaymentIntent(reference)")
  | None => write (λ db, set_rows (paymentIntent db ++ [row]) db) ;; ret row
  end.

End paymentIntent_.

Definition primary_params (intent : PaymentIntent.t) : AppendEntryParams.t :=
  AppendEntryParams.mk
    (PaymentIntent.reference intent)
    (Some (PaymentIntent.orderId intent))
    PLATFORM_ESCROW
    CREDIT
    (inr (PaymentIntent.amount intent))
    (Some ("Payment received for order " +:+ PaymentIntent.orderId intent)).

Definition marketing_params (intent : PaymentIntent.t) : AppendEntryParams.t :=
  let discountReference := PaymentIntent.reference intent +:+ "_DISC" in
  AppendEntryParams.mk
    discountReference
    (Some (PaymentIntent.orderId intent))
    MARKETING_WALLET
    DEBIT
    (inr (PaymentIntent.discountAmount intent))
    (Some ("Discount subsidy for order " +:+ PaymentIntent.orderId intent +:+
           " (" +:+ default "null" (PaymentIntent.discountCode intent) +:+ ")")).

Definition subsidy_params (intent : PaymentIntent.t) : AppendEntryParams.t :=
  let discountReference := PaymentIntent.reference intent +:+ "_DISC" in
  AppendEntryParams.mk
    (discountReference +:+ "_ESCROW")
    (Some (PaymentIntent.orderId intent))
    PLATFORM_ESCROW
    CREDIT
    (inr (PaymentIntent.discountAmount intent))
    (Some ("Discount subsidy credit for order " +:+ PaymentIntent.orderId intent)).

(** The callback handed to [$transaction] by settlePayment. *)
Definition settle_callback (intentId : string) : Tx SettlementResult.t :=
  let* found := paymentIntent_.findUnique_id intentId in
  match found with
  | None =>
      throw (BadRequestException "INTENT_NOT_FOUND"
               ("Payment intent not found: " +:+ intentId))
  | Some intent =>
      if bool_decide (PaymentIntent.status intent = PaymentIntentStatus.SETTLED) then
        let* existingEntries :=
          ledgerEntry_.findMany_startsWith (PaymentIntent.reference intent) in
        ret (SettlementResult.mk true intentId (PaymentIntent.reference intent)
               (map AppendEntryResult.of_entry existingEntries)
               "Payment already settled")
      else if negb (bool_decide
                      (PaymentIntent.status intent = PaymentIntentStatus.CONFIRMING)) then
        throw (BadRequestException "INVALID_STATUS_FOR_SETTLEMENT"
                 ("Cannot settle payment in status: " +:+
                  PaymentIntentStatus.text (PaymentIntent.status intent)))
      else
        let* primaryEntry := appendEntry (primary_params intent) in
        let* ledgerEntries :=
          if Prisma.greaterThan (PaymentIntent.discountAmount intent) 0 then
            let* marketingDebit := appendEntry (marketing_params intent) in
            let* subsidyCredit := appendEntry (subsidy_params intent) in
            ret [primaryEntry; marketingDebit; subsidyCredit]
          else ret [primaryEntry] in
        paymentIntent_.update_status intentId PaymentIntentStatus.SETTLED ;;
        ret (SettlementResult.mk true intentId (PaymentIntent.reference intent)
               ledgerEntries "Payment settled successfully")
  end.

Definition settlePayment (intentId : string) : Tx SettlementResult.t :=
  transaction (settle_callback intentId).

Definition settlePaymentByReference (reference : string) : Tx SettlementResult.t :=
  let* found := paymentIntent_.findUnique_reference reference in
  match found with
  | None =>
      throw (BadRequestException "INTENT_NOT_FOUND"
               ("Payment intent not found for reference: " +:+ reference))
  | Some intent => settlePayment (PaymentIntent.id intent)
  end.

(** ** intent-service *)

Module CreatePaymentIntentDto.
Record t := mk {
  orderId : string;
  amount : string;
  originalAmount : string;
  discountCode : option string;
  provider : PaymentProvider.t;
  currency : option string;
  metadata : option string
}.
End CreatePaymentIntentDto.

Definition generatePaymentReference (orderId : string) : string :=
  "PAYMENT_" +:+ orderId.

(** JavaScript truthiness of an optional string. *)
Definition truthy (o : option string) : bool :=
  match o with
  | Some (String _ _) => true
  | _ => false
  end.

Definition js_or (o : option string) (fallback : string) : string :=
  if truthy o then default fallback o else fallback.

Definition validateInvariants (amount originalAmount discountAmount : Prisma.Decimal)
           (discountCode : option string) : Tx unit :=
  if Prisma.lessThan originalAmount amount then
    throw (BadRequestException "INVALID_AMOUNTS"
             "originalAmount must be greater than or equal to amount")
  else if Prisma.lessThanOrEqualTo amount 0 then
    throw (BadRequestException "INVALID_AMOUNT" "amount must be greater than zero")
  else if Prisma.greaterThan discountAmount 0 && negb (truthy discountCode) then
    throw (BadRequestException "DISCOUNT_CODE_REQUIRED"
             "discountCode is required when discountAmount > 0")
  else if Prisma.lessThan discountAmount 0 then
    throw (BadRequestException "INVALID_DISCOUNT"
             "discountAmount cannot be negative (amount cannot exceed originalAmount)")
  else ret tt.

Definition create (dto : CreatePaymentIntentDto.t) : Tx PaymentIntent.t :=
  let* amount := new_Decimal (CreatePaymentIntentDto.amount dto) in
  let* originalAmount := new_Decimal (CreatePaymentIntentDto.originalAmount dto) in
  let discountAmount := Prisma.sub originalAmount amount in
  validateInvariants amount originalAmount discountAmount
    (CreatePaymentIntentDto.discountCode dto) ;;
  let reference := generatePaymentReference (CreatePaymentIntentDto.orderId dto) in
  let* existing := paymentIntent_.findUnique_reference reference in
  match existing with
  | Some stored => ret stored
  | None =>
      paymentIntent_.create
        (λ id, PaymentIntent.mk id reference (CreatePaymentIntentDto.orderId dto)
                 amount originalAmount discountAmount
                 (CreatePaymentIntentDto.discountCode dto)
                 (CreatePaymentIntentDto.provider dto)
                 (js_or (CreatePaymentIntentDto.currency dto) "NGN")
                 PaymentIntentStatus.PENDING
                 (CreatePaymentIntentDto.metadata dto))
  end.

(** ** security and webhook-service *)

(** What the services read of the process: [process.env] and the clock
    behind [new Date()]. *)
Record Runtime := mkRuntime {
  env : gmap string string;
  now : Z
}.

Definition development (rt : Runtime) : bool :=
  bool_decide (env rt !! "NODE_ENV" = Some "development").

Definition verifyFlutterwaveSignature (rt : Runtime)
           (payload signature secretHash : string) : bool :=
  if development rt then true else false.

Module WebhookPayload.
Record t := mk {
  provider : PaymentProvider.t;
  providerEventId : string;
  reference : option string;
  payload : string;
  headers : gmap string string;
  rawBody : string
}.
End WebhookPayload.

Module WebhookResult.
Record t := mk {
  id : string;
  status : WebhookStatus.t;
  isDuplicate : bool;
  message : string
}.
End WebhookResult.

Module webhookInbox_.

Definition matches (provider : PaymentProvider.t) (providerEventId : string)
           (w : WebhookInbox.t) : bool :=
  bool_decide (WebhookInbox.provider w = provider) &&
  bool_decide (WebhookInbox.providerEventId w = providerEventId).

(** [findUnique({ where: { provider_providerEventId } })]. *)
Definition findUnique (provider : PaymentProvider.t) (providerEventId : string)
  : Tx (option WebhookInbox.t) :=
  read (λ db, List.find (matches provider providerEventId) (webhookInbox db)).

Definition findUnique_id (id : string) : Tx (option WebhookInbox.t) :=
  read (λ db, List.find (λ w, bool_decide (WebhookInbox.id w = id)) (webhookInbox db)).

Definition set_rows (rows : list WebhookInbox.t) (db : DB) : DB :=
  mkDB (ledgerEntry db) (walletBalanceCache db) (paymentIntent db) rows (nextId db).

(** [update({ where: { id }, data })]. *)
Definition update (id : string) (data : WebhookInbox.t → WebhookInbox.t) : Tx unit :=
  let* row := findUnique_id id in
  match row with
  | Some _ =>
      write (λ db, set_rows
                     (map (λ w, if bool_decide (WebhookInbox.id w = id) then data w else w)
                          (webhookInbox db)) db)
  | None => throw (Error "Record to update not found.")
  end.

(** [create({ data })], under the unique index on (provider, providerEventId). *)
Definition create (mk_row : string → WebhookInbox.t) : Tx WebhookInbox.t :=
  let* id := fresh_id in
  let row := mk_row id in
  let* clash := findUnique (WebhookInbox.provider row) (WebhookInbox.providerEventId row) in
  match clash with
  | Some _ => throw (UniqueConstraintViolation "WebhookInbox(provider, providerEventId)")
  | None => write (λ db, set_rows (webhookInbox db ++ [row]) db) ;; ret row
  end.

End webhookInbox_.

Definition verifySignature (rt : Runtime) (provider : PaymentProvider.t)
           (rawBody : string) (headers : gmap string string) : bool :=
  match provider with
  | PaymentProvider.flutterwave =>
      let signature :=
        if truthy (headers !! "verif-hash") then default EmptyString (headers !! "verif-hash")
        else js_or (headers !! "x-flw-signature") EmptyString in
      let secretHash := js_or (env rt !! "FLUTTERWAVE_SECRET_HASH") EmptyString in
      verifyFlutterwaveSignature rt rawBody signature secretHash
  | _ => development rt
  end.

(** Both branches only write to the log: the call to the settlement
    service is still to be written in the source. *)
Definition triggerSettlement (reference : option string) (webhookId : string) : Tx unit :=
  if negb (truthy reference) then ret tt else ret tt.

Definition processWebhook (rt : Runtime) (payload : WebhookPayload.t) : Tx WebhookResult.t :=
  let provider := WebhookPayload.provider payload in
  let providerEventId := WebhookPayload.providerEventId payload in
  let reference := WebhookPayload.reference payload in
  let headers := WebhookPayload.headers payload in
  let rawBody := WebhookPayload.rawBody payload in
  let* existing := webhookInbox_.findUnique provider providerEventId in
  match existing with
  | Some existing =>
      (if negb (bool_decide (WebhookInbox.status existing = WebhookStatus.DUPLICATE)) then
         webhookInbox_.update (WebhookInbox.id existing)
           (WebhookInbox.with_status WebhookStatus.DUPLICATE)
       else ret tt) ;;
      ret (WebhookResult.mk (WebhookInbox.id existing) WebhookStatus.DUPLICATE true
             "Webhook already processed")
  | None =>
      let* webhook :=
        webhookInbox_.create
          (λ id, WebhookInbox.mk id provider providerEventId reference
                   (WebhookPayload.payload payload) headers WebhookStatus.RECEIVED
                   None None) in
      let isValid := verifySignature rt provider rawBody headers in
      if negb isValid then
        webhookInbox_.update (WebhookInbox.id webhook)
          (λ w, WebhookInbox.with_processedAt (now rt)
                  (WebhookInbox.with_errorMessage "Signature verification failed"
                     (WebhookInbox.with_status WebhookStatus.FAILED w))) ;;
        ret (WebhookResult.mk (WebhookInbox.id webhook) WebhookStatus.FAILED false
               "Signature verification failed")
      else
        webhookInbox_.update (WebhookInbox.id webhook)
          (λ w, WebhookInbox.with_processedAt (now rt)
                  (WebhookInbox.with_status WebhookStatus.VERIFIED w)) ;;
        triggerSettlement reference (WebhookInbox.id webhook) ;;
        webhookInbox_.update (WebhookInbox.id webhook)
          (WebhookInbox.with_status WebhookStatus.PROCESSED) ;;
        ret (WebhookResult.mk (WebhookInbox.id webhook) WebhookStatus.PROCESSED false
               "Webhook processed successfully")
  end.

(** ** The seed script *)

Module SystemAccount.
Record t := mk {
  accountId : string;
  initialBalance : string;
  description : string
}.
End SystemAccount.

Definition SYSTEM_ACCOUNTS : list SystemAccount.t :=
  [ SystemAccount.mk "MARKETING_WALLET" "1000000.0000"
      "Marketing subsidy wallet for discount campaigns";
    SystemAccount.mk "PLATFORM_ESCROW" "0.0000"
      "Platform escrow for payment collection";
    SystemAccount.mk "LEGACY_MIGRATION_WALLET" "0.0000"
      "Wallet for legacy data migration entries" ].

Definition seed_account (account : SystemAccount.t) : Tx unit :=
  let accountId := SystemAccount.accountId account in
  let initialBalance := SystemAccount.initialBalance account in
  let* existingWallet := walletBalanceCache_.findUnique accountId in
  match existingWallet with
  | Some _ => ret tt
  | None =>
      let funded := negb (String.eqb initialBalance "0.0000") in
      let* balance := new_Decimal initialBalance in
      walletBalanceCache_.create accountId
        (WalletBalanceCache.mk balance "NGN" (if funded then 1 else 0)) ;;
      if funded then
        let reference := "GENESIS_" +:+ accountId in
        let description := SystemAccount.description account +:+ " - Initial funding" in
        let entryHash :=
          computeEntryHash None accountId 1 reference "CREDIT" initialBalance
            (Some description) in
        ledgerEntry_.create
          (λ id, LedgerEntry.mk id accountId 1 reference None CREDIT balance
                   (Some description) None entryHash) ;;
        ret tt
      else ret tt
  end.

Definition seed : Tx unit :=
  fold_right (λ account rest, seed_account account ;; rest) (ret tt) SYSTEM_ACCOUNTS.

Definition seeded_db : DB :=
  match seed empty_db with
  | Returned _ db => db
  | Thrown _ db => db
  end.

(** ** Derived forms used in the statements *)

(** The database after one identifier has been drawn. *)
Definition bump (db : DB) : DB :=
  mkDB (ledgerEntry db) (walletBalanceCache db) (paymentIntent db)
       (webhookInbox db) (nextId db + 1).

(** The row appendEntry inserts for [params] when the amount reads as [d]
    and the reference is new on the account. *)
Definition next_entry (params : AppendEntryParams.t) (d : Prisma.Decimal) (db : DB)
  : LedgerEntry.t :=
  let accountId := AppendEntryParams.accountId params in
  let lastEntry := ledgerEntry_.last_of accountId None (ledgerEntry db) in
  let prevHash := LedgerEntry.entryHash <$> lastEntry in
  let walletSeq := default 0 (LedgerEntry.walletSeq <$> lastEntry) + 1 in
  LedgerEntry.mk (cuid (nextId db)) accountId walletSeq
    (AppendEntryParams.reference params) (AppendEntryParams.orderId params)
    (AppendEntryParams.entryType params) d (AppendEntryParams.description params)
    prevHash
    (computeEntryHash prevHash accountId walletSeq (AppendEntryParams.reference params)
       (LedgerEntryType_text (AppendEntryParams.entryType params))
       (amount_text (AppendEntryParams.amount params))
       (AppendEntryParams.description params)).

(** Whether the ledger holds an entry under (accountId, reference). *)
Definition stored (accountId reference : string) (db : DB) : option LedgerEntry.t :=
  List.find (ledgerEntry_.matches accountId reference) (ledgerEntry db).

(** The database a computation leaves behind, whether it returned or threw. *)
Definition final_db {A} (o : Outcome A) : DB :=
  match o with
  | Returned _ db => db
  | Thrown _ db => db
  end.

(** The inbox after a repeated delivery found [existing]: its row is marked
    DUPLICATE unless it already is. Neither the runtime nor the headers or
    body of the delivery enter. *)
Definition mark_duplicate (existing : WebhookInbox.t) (db : DB) : DB :=
  if bool_decide (WebhookInbox.status existing = WebhookStatus.DUPLICATE) then db
  else webhookInbox_.set_rows
         (map (λ w, if bool_decide (WebhookInbox.id w = WebhookInbox.id existing)
                    then WebhookInbox.with_status WebhookStatus.DUPLICATE w else w)
              (webhookInbox db)) db.

(** The unique index of the inbox: no two rows share (provider,
    providerEventId). *)
Definition inbox_unique (db : DB) : Prop :=
  NoDup (map (λ w, (WebhookInbox.provider w, WebhookInbox.providerEventId w))
             (webhookInbox db)).

(** The rows of a pair, and those of them whose status is not DUPLICATE. *)
Definition rows_of (provider : PaymentProvider.t) (providerEventId : string) (db : DB)
  : list WebhookInbox.t :=
  List.filter (webhookInbox_.matches provider providerEventId) (webhookInbox db).

Definition non_duplicates (provider : PaymentProvider.t) (providerEventId : string)
           (db : DB) : list WebhookInbox.t :=
  List.filter (λ w, negb (bool_decide (WebhookInbox.status w = WebhookStatus.DUPLICATE)))
              (rows_of provider providerEventId db).

(** The inbox row a first delivery ends with, by the status it reaches. *)
Definition inbox_row (rt : Runtime) (payload : WebhookPayload.t) (db : DB)
           (status : WebhookStatus.t) (errorMessage : option string) : WebhookInbox.t :=
  WebhookInbox.mk (cuid (nextId db)) (WebhookPayload.provider payload)
    (WebhookPayload.providerEventId payload) (WebhookPayload.reference payload)
    (WebhookPayload.payload payload) (WebhookPayload.headers payload)
    status errorMessage (Some (now rt)).

(** The database after [update({ where: { id }, data: { status } })] found
    its row. *)
Definition set_status (id : string) (status : PaymentIntentStatus.t) (db : DB) : DB :=
  paymentIntent_.set_rows
    (map (λ i, if bool_decide (PaymentIntent.id i = id)
               then PaymentIntent.with_status status i else i)
         (paymentIntent db)) db.

(** The intent stored under [id]. *)
Definition intent_of (id : string) (db : DB) : option PaymentIntent.t :=
  List.find (λ i, bool_decide (PaymentIntent.id i = id)) (paymentIntent db).

(** The entries of one account, in the order they were written. *)
Definition on_account (accountId : string) (db : DB) : list LedgerEntry.t :=
  List.filter (λ e, bool_decide (LedgerEntry.accountId e = accountId)) (ledgerEntry db).

(** A chain as verifyChain accepts it: sequence numbers [n + 1], [n + 2], ...,
    each entry pointing at the hash before it and carrying the hash of its
    own fields, the amount in its [toString] form. *)
Fixpoint chained (prev : option string) (n : Z) (es : list LedgerEntry.t) : Prop :=
  match es with
  | [] => True
  | e :: rest =>
    LedgerEntry.walletSeq e = n + 1 ∧
    LedgerEntry.prevHash e = prev ∧
    LedgerEntry.entryHash e
    = computeEntryHash prev (LedgerEntry.accountId e) (LedgerEntry.walletSeq e)
        (LedgerEntry.reference e) (LedgerEntryType_text (LedgerEntry.entryType e))
        (Prisma.toString (LedgerEntry.amount e)) (LedgerEntry.description e) ∧
    chained (Some (LedgerEntry.entryHash e)) (n + 1) rest
  end.

(** What the chains of a database need for the next append: they are
    [chained], and the tail appendEntry reads is their last entry. *)
Definition chains_ok (db : DB) : Prop :=
  ∀ accountId,
    chained None 0 (on_account accountId db) ∧
    ledgerEntry_.last_of accountId None (ledgerEntry db) = last (on_account accountId db).

(** An amount whose text is the [toString] form of its value: every
    Prisma.Decimal, and the literals written without trailing zeros. *)
Definition canonical_amount (amount : string + Prisma.Decimal) : Prop :=
  ∃ d, Prisma.ofString (amount_text amount) = Some d ∧ amount_text amount = Prisma.toString d.

(** The databases whose ledger was written by appendEntry alone, from such
    amounts. *)
Inductive appended : DB → Prop :=
  | appended_empty : appended empty_db
  | appended_entry (p : AppendEntryParams.t) (r : AppendEntryResult.t) (db db' : DB) :
    appended db →
    canonical_amount (AppendEntryParams.amount p) →
    appendEntry p db = Returned r db' →
    appended db'
  | appended_other (db db' : DB) :
    appended db →
    ledgerEntry db' = ledgerEntry db →
    appended db'.

(** A ledger row read as one leg of a settlement. *)
Definition leg (e : LedgerEntry.t) (accountId reference : string)
           (entryType : LedgerEntryType) (amount : Prisma.Decimal) : Prop :=
  LedgerEntry.accountId e = accountId ∧
  LedgerEntry.reference e = reference ∧
  LedgerEntry.entryType e = entryType ∧
  LedgerEntry.amount e = amount.

(** ** Concrete databases and calls used as instances *)

Module Scenario.

(** A wallet funded with 5.0000 by one credit. *)
Definition fund_params : AppendEntryParams.t :=
  AppendEntryParams.mk "REF_001" None "TEST_ACCOUNT" CREDIT (inl "5.0000")
    (Some "Test entry").

Definition funded_db : DB := final_db (transaction (appendEntry fund_params) empty_db).

(** A debit of the whole balance, and of one ten-thousandth more. *)
Definition debit_all : AppendEntryParams.t :=
  AppendEntryParams.mk "REF_002" None "TEST_ACCOUNT" DEBIT (inl "5.0000") None.

Definition debit_more : AppendEntryParams.t :=
  AppendEntryParams.mk "REF_002" None "TEST_ACCOUNT" DEBIT (inl "5.0001") None.

Definition debit_unknown : AppendEntryParams.t :=
  AppendEntryParams.mk "REF_002" None "NO_SUCH_WALLET" DEBIT (inl "5.0000") None.

(** The funding call again, with an amount that is no decimal literal. *)
Definition fund_again_invalid : AppendEntryParams.t :=
  AppendEntryParams.mk "REF_001" None "TEST_ACCOUNT" CREDIT (inl "abc")
    (Some "Test entry").

(** Order O1 is paid without discount, order O10 likewise; both intents
    are created through the intent service, moved to CONFIRMING (the
    transition made outside the core) and settled once. *)
Definition order (orderId amount : string) : CreatePaymentIntentDto.t :=
  CreatePaymentIntentDto.mk orderId amount amount None PaymentProvider.flutterwave
    None None.

Definition confirmed_db : DB :=
  final_db
    ((create (order "O1" "10000.0000") ;;
      create (order "O10" "250.0000") ;;
      paymentIntent_.update_status "c0" PaymentIntentStatus.CONFIRMING ;;
      paymentIntent_.update_status "c1" PaymentIntentStatus.CONFIRMING)
       empty_db).

Definition settled_db : DB :=
  final_db ((settlePayment "c0" ;; settlePayment "c1") confirmed_db).

(** A production runtime whose configured secret hash is the very value
    the delivery carries in its verif-hash header. *)
Definition production : Runtime :=
  mkRuntime (<["NODE_ENV" := "production"]>
               (<["FLUTTERWAVE_SECRET_HASH" := "s3cret-hash"]> ∅)) 1700000000000.

Definition development_rt : Runtime :=
  mkRuntime (<["NODE_ENV" := "development"]>
               (<["FLUTTERWAVE_SECRET_HASH" := "s3cret-hash"]> ∅)) 1700000000000.

Definition signed_delivery : WebhookPayload.t :=
  WebhookPayload.mk PaymentProvider.flutterwave "flw_abc" (Some "PAYMENT_O1")
    "{}" (<["verif-hash" := "s3cret-hash"]> ∅) "{}".

(** A delivery whose payload carries no reference. *)
Definition unreferenced_delivery : WebhookPayload.t :=
  WebhookPayload.mk PaymentProvider.flutterwave "flw_xyz" None
    "{}" (<["verif-hash" := "s3cret-hash"]> ∅) "{}".

Definition delivered_db : DB :=
  final_db (processWebhook development_rt signed_delivery confirmed_db).

(** Order O2 is paid 8000.0000 of 10000.0000 under PROMO2024, on the
    seeded database; its intent is CONFIRMING. *)
Definition discounted (orderId : string) : CreatePaymentIntentDto.t :=
  CreatePaymentIntentDto.mk orderId "8000.0000" "10000.0000" (Some "PROMO2024")
    PaymentProvider.flutterwave None None.

Definition subsidy_db : DB :=
  final_db
    ((create (discounted "O2") ;;
      paymentIntent_.update_status "c1" PaymentIntentStatus.CONFIRMING) seeded_db).

(** The same order when the marketing wallet has been drained to
    1000.0000 beforehand. *)
Definition drain : AppendEntryParams.t :=
  AppendEntryParams.mk "CAMPAIGN_SPEND" None "MARKETING_WALLET" DEBIT
    (inl "999000.0000") None.

Definition drained_db : DB :=
  final_db
    ((transaction (appendEntry drain) ;;
      create (discounted "O2") ;;
      paymentIntent_.update_status "c2" PaymentIntentStatus.CONFIRMING) seeded_db).

(** Order O1_DISC_ESCROW is settled without discount; then order O1 is
    paid under a discount, so that the reference of its subsidy credit,
    PAYMENT_O1_DISC_ESCROW, is the reference of the earlier payment. *)
Definition collision_db : DB :=
  final_db
    ((create (order "O1_DISC_ESCROW" "300.0000") ;;
      paymentIntent_.update_status "c1" PaymentIntentStatus.CONFIRMING ;;
      settlePayment "c1" ;;
      create (discounted "O1") ;;
      paymentIntent_.update_status "c3" PaymentIntentStatus.CONFIRMING) seeded_db).

Definition discounted_intent (id orderId : string) : PaymentIntent.t :=
  PaymentIntent.mk id ("PAYMENT_" +:+ orderId) orderId 80000000 100000000 20000000
    (Some "PROMO2024") PaymentProvider.flutterwave "NGN"
    PaymentIntentStatus.CONFIRMING None.

(** Order O1 submitted again, with a zero amount. *)
Definition order_again_zero : CreatePaymentIntentDto.t := order "O1" "0.0000".

End Scenario.

(** ** The invariants of the data model, as predicates on a database *)

(** The reduction of recomputeBalance over the entries it reads. *)
Definition ledger_sum (es : list LedgerEntry.t) : Prisma.Decimal :=
  fold_left
    (λ balance entry,
       match LedgerEntry.entryType entry with
       | CREDIT => Prisma.add balance (LedgerEntry.amount entry)
       | DEBIT => Prisma.sub balance (LedgerEntry.amount entry)
       end)
    es 0.

(** The cached balance is the balance of the ledger: where getBalance finds
    a cache row, recomputeBalance returns its balance, and an account
    without a row has no entry. *)
Definition cache_matches_ledger (db : DB) : Prop :=
  ∀ accountId,
    match getBalance accountId db with
    | Returned (Some (balance, _)) _ => recomputeBalance accountId db = Returned balance db
    | _ => on_account accountId db = []
    end.

(** The cached lastEntrySeq is the walletSeq of the entry appendEntry reads
    as the tail of the account, 0 when there is none. *)
Definition cache_tracks_tail (db : DB) : Prop :=
  ∀ accountId balance lastEntrySeq tail,
    getBalance accountId db = Returned (Some (balance, lastEntrySeq)) db →
    ledgerEntry_.findFirst_desc accountId db = Returned tail db →
    lastEntrySeq = default 0 (LedgerEntry.walletSeq <$> tail).

(** No cached balance is negative. *)
Definition balances_non_negative (db : DB) : Prop :=
  ∀ accountId balance lastEntrySeq,
    getBalance accountId db = Returned (Some (balance, lastEntrySeq)) db → 0 <= balance.

(** No two entries share (accountId, reference). *)
Definition references_unique (db : DB) : Prop :=
  NoDup (map (λ e, (LedgerEntry.accountId e, LedgerEntry.reference e)) (ledgerEntry db)).

(** Sequence numbers [n + 1], [n + 2], ... without gap, each entry pointing
    at the hash of the one before it; nothing is asked of the hashes
    themselves. *)
Fixpoint linked (prev : option string) (n : Z) (es : list LedgerEntry.t) : Prop :=
  match es with
  | [] => True
  | e :: rest =>
    LedgerEntry.walletSeq e = n + 1 ∧
    LedgerEntry.prevHash e = prev ∧
    linked (Some (LedgerEntry.entryHash e)) (n + 1) rest
  end.

Definition well_sequenced (db : DB) : Prop :=
  ∀ accountId, linked None 0 (on_account accountId db).

(** A character of a lowercase hexadecimal numeral. *)
Definition lower_hex (c : ascii) : bool :=
  let n := Text.code c in
  ((48 <=? n) && (n <=? 57)) || ((97 <=? n) && (n <=? 102)).

(** ** More string methods of JavaScript, on UTF-8 byte strings *)

Module StringMethods.

Definition of_bytes (bs : list Z) : string :=
  string_of_list_ascii (map Text.chr bs).

(** [Array.prototype.join]. *)
Fixpoint join (sep : string) (parts : list string) : string :=
  match parts with
  | [] => EmptyString
  | [p] => p
  | p :: rest => p +:+ sep +:+ join sep rest
  end.

(** [String.prototype.split] on a separator of one character. *)
Fixpoint split (sep : ascii) (s : string) : list string :=
  match s with
  | EmptyString => [EmptyString]
  | String c s' =>
      if Text.code c =? Text.code sep then EmptyString :: split sep s'
      else match split sep s' with
           | x :: xs => String c x :: xs
           | [] => [String c EmptyString]
           end
  end.

(** The WhiteSpace and LineTerminator code points of ECMA-262, which [trim]
    removes, in their UTF-8 form: U+0009 to U+000D, U+0020, U+00A0, U+1680,
    U+2000 to U+200A, U+2028, U+2029, U+202F, U+205F, U+3000, U+FEFF. *)
Definition white_space : list (list Z) :=
  [ [9]; [10]; [11]; [12]; [13]; [32]; [0xC2; 0xA0]; [0xE1; 0x9A; 0x80];
    [0xE2; 0x80; 0x80]; [0xE2; 0x80; 0x81]; [0xE2; 0x80; 0x82]; [0xE2; 0x80; 0x83];
    [0xE2; 0x80; 0x84]; [0xE2; 0x80; 0x85]; [0xE2; 0x80; 0x86]; [0xE2; 0x80; 0x87];
    [0xE2; 0x80; 0x88]; [0xE2; 0x80; 0x89]; [0xE2; 0x80; 0x8A]; [0xE2; 0x80; 0xA8];
    [0xE2; 0x80; 0xA9]; [0xE2; 0x80; 0xAF]; [0xE2; 0x81; 0x9F]; [0xE3; 0x80; 0x80];
    [0xEF; 0xBB; 0xBF] ].

Fixpoint strip_prefix (p bs : list Z) : option (list Z) :=
  match p, bs with
  | [], _ => Some bs
  | x :: p', b :: bs' => if x =? b then strip_prefix p' bs' else None
  | _ :: _, [] => None
  end.

Fixpoint first_stripped (ps : list (list Z)) (bs : list Z) : option (list Z) :=
  match ps with
  | [] => None
  | p :: ps' =>
      match strip_prefix p bs with
      | Some rest => Some rest
      | None => first_stripped ps' bs
      end
  end.

(** Strip the encodings [ps] off the front for as long as one is there. *)
Fixpoint strip_all (fuel : nat) (ps : list (list Z)) (bs : list Z) : list Z :=
  match fuel with
  | O => bs
  | S fuel' =>
      match first_stripped ps bs with
      | Some rest => strip_all fuel' ps rest
      | None => bs
      end
  end.

(** [String.prototype.trim]: the front, then the back read in reverse. *)
Definition trim (s : string) : string :=
  let bs := Text.bytes s in
  let front := strip_all (length bs) white_space bs in
  of_bytes (rev (strip_all (length front) (map (@rev Z) white_space) (rev front))).

(** [String.prototype.toLowerCase] on the letters A to Z; every other byte
    is kept. The one caller compares the result with the values of Role,
    ASCII words without a k: no character outside A to Z has a lower case
    made of ASCII letters other than k (U+212A), so the comparison comes out
    as it does under the full mapping. *)
Definition toLowerCase (s : string) : string :=
  of_bytes (map (λ n, if (65 <=? n) && (n <=? 90) then n + 32 else n) (Text.bytes s)).

End StringMethods.

(** ** idempotency: references, keys and the idempotent context *)

(** A part of an idempotency key, [string | number]. The numbers are the
    integers a JavaScript number holds exactly, up to 2^53 - 1 in magnitude,
    which [String] prints in plain decimal notation; fractions and larger
    magnitudes are outside this embedding. *)
Inductive KeyPart :=
  | KeyStr (s : string)
  | KeyNum (n : Z).

(** [String(part)]. *)
Definition KeyPart_text (p : KeyPart) : string :=
  match p with
  | KeyStr s => s
  | KeyNum n => Text.int_string n
  end.

Definition generateIdempotencyKey (parts : list KeyPart) : string :=
  let combined := StringMethods.join "|" (map KeyPart_text parts) in
  String.substring 0 32 (SHA256.hex combined).

(** The sequence is an integer a JavaScript number holds exactly, up to
    2^53 - 1 in magnitude, which the template prints in plain decimal
    notation. *)
Definition generateRefundReference (paymentIntentId : string) (sequence : Z) : string :=
  "REFUND_" +:+ paymentIntentId +:+ "_" +:+ Text.int_string sequence.

Definition generateDiscountReference (paymentReference : string) : string :=
  paymentReference +:+ "_DISC".

(** Whether [s] holds a character that [.] does not match: LF, CR, U+2028
    or U+2029 (E2 80 A8 and E2 80 A9 in UTF-8). *)
Fixpoint has_line_terminator (s : string) : bool :=
  match s with
  | EmptyString => false
  | String c s' =>
      (Text.code c =? 10) || (Text.code c =? 13) ||
      ((Text.code c =? 226) &&
       match s' with
       | String c1 (String c2 _) =>
           (Text.code c1 =? 128) && ((Text.code c2 =? 168) || (Text.code c2 =? 169))
       | _ => false
       end) ||
      has_line_terminator s'
  end.

(** [reference.match(/^PAYMENT_(.+)$/)]: the rest after the prefix, when it
    is not empty and runs to the end of the text without a line
    terminator. *)
Definition extractOrderIdFromPaymentRef (reference : string) : option string :=
  if Text.startsWith reference "PAYMENT_" then
    let orderId := String.substring 8 (String.length reference - 8) reference in
    if negb (String.eqb orderId EmptyString) && negb (has_line_terminator orderId)
    then Some orderId else None
  else None.

(** The character class [[A-Z0-9_]]. *)
Definition reference_char (c : ascii) : bool :=
  let n := Text.code c in
  ((65 <=? n) && (n <=? 90)) || ((48 <=? n) && (n <=? 57)) || (n =? 95).

(** [/^[A-Z0-9_]+$/.test(reference)]. *)
Definition isValidReference (reference : string) : bool :=
  negb (String.eqb reference EmptyString) &&
  forallb reference_char (list_ascii_of_string reference).

Module IdempotentResult.
Record t (T : Type) := mk {
  executed : bool;
  result : T;
  cached : bool
}.
Arguments mk {T} executed result cached.
Arguments executed {T} _.
Arguments result {T} _.
Arguments cached {T} _.
End IdempotentResult.

(** The object createIdempotentContext returns, as the [cache] its three
    methods close over; the cached results of one context are taken to be of
    one type. An operation is a computation on the database that returns or
    throws. *)
Module IdempotentContext.

Definition t (T : Type) : Type := gmap string T.

Definition create {T} : t T := ∅.

Definition executeOnce {T} (key : string) (operation : Tx T) (cache : t T)
  : DB → t T * Outcome (IdempotentResult.t T) :=
  λ db,
    match cache !! key with
    | Some result => (cache, Returned (IdempotentResult.mk false result true) db)
    | None =>
        match operation db with
        | Returned result db' =>
            (<[key := result]> cache, Returned (IdempotentResult.mk true result false) db')
        | Thrown e db' => (cache, Thrown e db')
        end
    end.

Definition has {T} (key : string) (cache : t T) : bool :=
  bool_decide (is_Some (cache !! key)).

Definition clear {T} (cache : t T) : t T := ∅.

End IdempotentContext.

(** ** security: roles and the guard *)

Module Role.
Inductive t := ADMIN | OPS | VENDOR | CUSTOMER | SERVICE.

#[global] Instance eq_dec : EqDecision t.
Proof. solve_decision. Defined.

Definition text (r : t) : string :=
  match r with
  | ADMIN => "admin"
  | OPS => "ops"
  | VENDOR => "vendor"
  | CUSTOMER => "customer"
  | SERVICE => "service"
  end.

(** [Object.values(Role)]. *)
Definition values : list t := [ADMIN; OPS; VENDOR; CUSTOMER; SERVICE].

(** The Role whose value is [s], if [Object.values(Role).includes(s)]. *)
Definition of_text (s : string) : option t :=
  List.find (λ r, String.eqb (text r) s) values.
End Role.

Module UserContext.
Record t := mk {
  id : string;
  email : option string;
  roles : list Role.t;
  metadata : option string
}.
End UserContext.

(** Nest's HTTP exceptions, thrown by the guard and by the services around
    the core. *)
Inductive HttpException :=
  | UnauthorizedException (message : string)
  | ForbiddenException (message : string)
  | NotFoundException (message : string).

(** The metadata is the object [{ token }] with the first ten characters of
    the token, kept here as that text (ten bytes: tokens are ASCII). *)
Definition decodeJwtStub (token : string) : option UserContext.t :=
  Some (UserContext.mk "jwt-user" None [Role.CUSTOMER]
          (Some (String.substring 0 10 token))).

(** extractUserContext reads [request.headers] only; a header is taken to
    carry one value, a string. *)
Definition extractUserContext (headers : gmap string string) : option UserContext.t :=
  let roleHeader := headers !! "x-role" in
  if truthy roleHeader then
    let roles :=
      map (λ r, StringMethods.toLowerCase (StringMethods.trim r))
          (StringMethods.split "," (default EmptyString roleHeader)) in
    Some (UserContext.mk "dev-user" None (omap Role.of_text roles) None)
  else
    let authHeader := headers !! "authorization" in
    if from_option (λ h, Text.startsWith h "Bearer ") false authHeader then
      let h := default EmptyString authHeader in
      decodeJwtStub (String.substring 7 (String.length h - 7) h)
    else
      let apiKey := headers !! "x-api-key" in
      if truthy apiKey then
        Some (UserContext.mk "service-account" None [Role.SERVICE] None)
      else None.

(** What the guard reads of the execution context: the metadata the
    decorators Public and Roles left on the handler and on its class, and
    the headers of the request. *)
Module ExecutionContext.
Record t := mk {
  handlerPublic : option bool;
  classPublic : option bool;
  handlerRoles : option (list Role.t);
  classRoles : option (list Role.t);
  headers : gmap string string
}.
End ExecutionContext.

(** [Reflector.getAllAndOverride(key, [handler, class])]: the first value
    that is defined. *)
Definition getAllAndOverride {A} (handler class : option A) : option A :=
  match handler with
  | Some v => Some v
  | None => class
  end.

(** RolesGuard.canActivate: what it returns or throws, and [request.user]
    as the call leaves it. *)
Definition canActivate (context : ExecutionContext.t)
  : (HttpException + bool) * option UserContext.t :=
  let isPublic :=
    getAllAndOverride (ExecutionContext.handlerPublic context)
      (ExecutionContext.classPublic context) in
  if default false isPublic then (inr true, None)
  else
    let requiredRoles :=
      getAllAndOverride (ExecutionContext.handlerRoles context)
        (ExecutionContext.classRoles context) in
    match extractUserContext (ExecutionContext.headers context) with
    | None => (inl (UnauthorizedException "Authentication required"), None)
    | Some user =>
        match requiredRoles with
        | None | Some [] => (inr true, Some user)
        | Some requiredRoles =>
            let hasRole :=
              existsb (λ role, bool_decide (role ∈ UserContext.roles user)) requiredRoles in
            if negb hasRole then
              (inl (ForbiddenException
                      ("Required roles: " +:+
                       StringMethods.join ", " (map Role.text requiredRoles) +:+
                       ". User has: " +:+
                       StringMethods.join ", " (map Role.text (UserContext.roles user)))),
               Some user)
            else (inr true, Some user)
        end
    end.

(** ** intent-service: the readers, and refund intents *)

Definition findById (id : string) (db : DB) : HttpException + PaymentIntent.t :=
  match paymentIntent_.findUnique_id id db with
  | Returned (Some intent) _ => inr intent
  | _ => inl (NotFoundException ("Payment intent not found: " +:+ id))
  end.

Definition findByReference (reference : string) (db : DB)
  : HttpException + PaymentIntent.t :=
  match paymentIntent_.findUnique_reference reference db with
  | Returned (Some intent) _ => inr intent
  | _ => inl (NotFoundException
                ("Payment intent not found for reference: " +:+ reference))
  end.

Definition findByOrderId (orderId : string) (db : DB) : HttpException + PaymentIntent.t :=
  let reference := generatePaymentReference orderId in
  findByReference reference db.

(** Modelled from the spec: the generated enum RefundIntentStatus. The
    service names three of its values; any other value is carried by its
    name. *)
Module RefundIntentStatus.
Inductive t := PENDING | PROCESSING | SETTLED | Other (name : string).

#[global] Instance eq_dec : EqDecision t.
Proof. solve_decision. Defined.
End RefundIntentStatus.

(** Modelled from the spec: the row type RefundIntent with the fields the
    service writes; [reason] is the name of a RefundReason value. *)
Module RefundIntent.
Record t := mk {
  id : string;
  reference : string;
  paymentIntentId : string;
  amount : Prisma.Decimal;
  reason : string;
  description : option string;
  status : RefundIntentStatus.t
}.
End RefundIntent.

Module CreateRefundIntentDto.
Record t := mk {
  paymentIntentId : string;
  amount : string;
  reason : string;
  description : option string
}.
End CreateRefundIntentDto.

(** The database as the intent service sees it: the tables of the core and
    the refund intents beside them, in insertion order. *)
Record IntentDB := mkIntentDB {
  core : DB;
  refundIntent : list RefundIntent.t
}.

Inductive Failure :=
  | Core (e : Exception)
  | Http (e : HttpException).

(** [refundIntent.findMany({ where: { paymentIntentId, status: { in:
    [PENDING, PROCESSING, SETTLED] } } })]. *)
Definition refundIntent_findMany_active (paymentIntentId : string) (s : IntentDB)
  : list RefundIntent.t :=
  List.filter
    (λ r, bool_decide (RefundIntent.paymentIntentId r = paymentIntentId) &&
          bool_decide (RefundIntent.status r ∈
                       [RefundIntentStatus.PENDING; RefundIntentStatus.PROCESSING;
                        RefundIntentStatus.SETTLED]))
    (refundIntent s).

(** RefundIntentService.create: what it returns or throws, and the database
    as the call leaves it. The schema of the table is not among the sources:
    [unique_reference] says whether it puts a unique index on [reference],
    under which [refundIntent.create] throws on a reference already stored;
    the statements below hold either way. *)
Definition RefundIntentService_create (unique_reference : bool)
           (dto : CreateRefundIntentDto.t) (s : IntentDB)
  : (Failure + RefundIntent.t) * IntentDB :=
  match Prisma.ofString (CreateRefundIntentDto.amount dto) with
  | None =>
      (inl (Core (DecimalError ("[DecimalError] Invalid argument: " +:+
                                Prisma.unsigned (CreateRefundIntentDto.amount dto)))), s)
  | Some amount =>
      if Prisma.lessThanOrEqualTo amount 0 then
        (inl (Core (BadRequestException "INVALID_AMOUNT"
                      "Refund amount must be greater than zero")), s)
      else
        match List.find
                (λ i, bool_decide
                        (PaymentIntent.id i = CreateRefundIntentDto.paymentIntentId dto))
                (paymentIntent (core s))
        with
        | None =>
            (inl (Http (NotFoundException
                          ("Payment intent not found: " +:+
                           CreateRefundIntentDto.paymentIntentId dto))), s)
        | Some payment =>
            if negb (bool_decide
                       (PaymentIntent.status payment = PaymentIntentStatus.SETTLED))
            then
              (inl (Core (BadRequestException "PAYMENT_NOT_SETTLED"
                            "Can only refund settled payments")), s)
            else
              let existingRefunds :=
                refundIntent_findMany_active
                  (CreateRefundIntentDto.paymentIntentId dto) s in
              let totalRefunded :=
                fold_left (λ sum r, Prisma.add sum (RefundIntent.amount r))
                          existingRefunds 0 in
              let remaining := Prisma.sub (PaymentIntent.amount payment) totalRefunded in
              if Prisma.greaterThan amount remaining then
                (inl (Core (BadRequestException "REFUND_EXCEEDS_REMAINING"
                              "Refund amount exceeds remaining refundable amount")), s)
              else
                let sequence := Z.of_nat (length existingRefunds) + 1 in
                let reference :=
                  generateRefundReference (CreateRefundIntentDto.paymentIntentId dto)
                    sequence in
                let row :=
                  RefundIntent.mk (cuid (nextId (core s))) reference
                    (CreateRefundIntentDto.paymentIntentId dto) amount
                    (CreateRefundIntentDto.reason dto)
                    (CreateRefundIntentDto.description dto)
                    RefundIntentStatus.PENDING in
                if unique_reference &&
                   existsb (λ r, String.eqb (RefundIntent.reference r) reference)
                           (refundIntent s)
                then
                  (inl (Core (UniqueConstraintViolation "RefundIntent(reference)")),
                   mkIntentDB (bump (core s)) (refundIntent s))
                else (inr row, mkIntentDB (bump (core s)) (refundIntent s ++ [row]))
        end
  end.

(** The sum of the refunds that count against a payment. *)
Definition refunded (paymentIntentId : string) (s : IntentDB) : Prisma.Decimal :=
  fold_left (λ sum r, Prisma.add sum (RefundIntent.amount r))
            (refundIntent_findMany_active paymentIntentId s) 0.

(** No payment has more refunds pending, in process or settled than its
    amount. *)
Definition refunds_within_payments (s : IntentDB) : Prop :=
  ∀ paymentIntentId payment,
    List.find (λ i, bool_decide (PaymentIntent.id i = paymentIntentId))
              (paymentIntent (core s)) = Some payment →
    refunded paymentIntentId s <= PaymentIntent.amount payment.

(** The invariants create enforces, read off a stored intent. *)
Definition intent_well_formed (i : PaymentIntent.t) : Prop :=
  0 < PaymentIntent.amount i ∧
  PaymentIntent.amount i <= PaymentIntent.originalAmount i ∧
  PaymentIntent.discountAmount i = PaymentIntent.originalAmount i - PaymentIntent.amount i ∧
  (0 < PaymentIntent.discountAmount i → truthy (PaymentIntent.discountCode i) = true).

Definition intents_well_formed (db : DB) : Prop :=
  Forall intent_well_formed (paymentIntent db) ∧
  NoDup (map PaymentIntent.reference (paymentIntent db)).

(** The row create stores for an order that has no intent yet. *)
Definition new_intent (dto : CreatePaymentIntentDto.t) (a o : Prisma.Decimal) (db : DB)
  : PaymentIntent.t :=
  PaymentIntent.mk (cuid (nextId db))
    (generatePaymentReference (CreatePaymentIntentDto.orderId dto))
    (CreatePaymentIntentDto.orderId dto) a o (Prisma.sub o a)
    (CreatePaymentIntentDto.discountCode dto) (CreatePaymentIntentDto.provider dto)
    (js_or (CreatePaymentIntentDto.currency dto) "NGN")
    PaymentIntentStatus.PENDING (CreatePaymentIntentDto.metadata dto).

(** ** webhook-service: replay *)

Definition replayWebhook (rt : Runtime) (webhookId : string) : Tx WebhookResult.t :=
  let* found := webhookInbox_.findUnique_id webhookId in
  match found with
  | None =>
      ret (WebhookResult.mk webhookId WebhookStatus.FAILED false "Webhook not found")
  | Some webhook =>
      if bool_decide (WebhookInbox.status webhook = WebhookStatus.PROCESSED) then
        ret (WebhookResult.mk webhookId WebhookStatus.PROCESSED false
               "Webhook already processed")
      else
        triggerSettlement (WebhookInbox.reference webhook) webhookId ;;
        webhookInbox_.update webhookId
          (λ w, WebhookInbox.with_processedAt (now rt)
                  (WebhookInbox.with_status WebhookStatus.PROCESSED w)) ;;
        ret (WebhookResult.mk webhookId WebhookStatus.PROCESSED false
               "Webhook replayed successfully")
  end.

(** The tables the webhook service must leave alone: ledger, balance cache
    and payment intents. *)
Definition same_books (db db' : DB) : Prop :=
  ledgerEntry db' = ledgerEntry db ∧
  walletBalanceCache db' = walletBalanceCache db ∧
  paymentIntent db' = paymentIntent db.

(** ** ops-service: chain verification and aggregates *)

(** [for (const x of xs) { results.push(await f(x)) }]. *)
Fixpoint for_each {A B} (f : A → Tx B) (xs : list A) : Tx (list B) :=
  match xs with
  | [] => ret []
  | x :: rest =>
      let* y := f x in
      let* ys := for_each f rest in
      ret (y :: ys)
  end.

Module VerifyChainsSummary.
Record t := mk {
  totalAccounts : Z;
  validAccounts : Z;
  invalidAccounts : Z;
  allValid : bool
}.
End VerifyChainsSummary.

(** [walletBalanceCache.findMany({ select: { accountId: true } })]; the
    source asks for no order, the rows come as the map lists them. *)
Definition walletBalanceCache_findMany_accountId : Tx (list string) :=
  read (λ db, (map_to_list (walletBalanceCache db)).*1).

Definition verifyChains (accountIds : list string) (verifyAll : bool)
  : Tx (list VerifyChainResult.t * VerifyChainsSummary.t) :=
  let* accounts :=
    if verifyAll then walletBalanceCache_findMany_accountId else ret accountIds in
  let* results := for_each (λ accountId, verifyChain accountId None None) accounts in
  let validCount := Z.of_nat (length (List.filter VerifyChainResult.valid results)) in
  ret (results,
       VerifyChainsSummary.mk
         (Z.of_nat (length results)) validCount
         (Z.of_nat (length results) - validCount)
         (validCount =? Z.of_nat (length results))).

Module Aggregates.
Record t := mk {
  totalCredits : string;
  totalDebits : string;
  netAmount : string
}.
End Aggregates.

(** OpsService.computeAggregates; [where_] stands for the Prisma filter, by
    the rows it selects. *)
Definition computeAggregates (where_ : LedgerEntry.t → bool) : Tx Aggregates.t :=
  let* entries := read (λ db, List.filter where_ (ledgerEntry db)) in
  let totals :=
    fold_left
      (λ '(totalCredits, totalDebits) e,
         match LedgerEntry.entryType e with
         | CREDIT => (Prisma.add totalCredits (LedgerEntry.amount e), totalDebits)
         | DEBIT => (totalCredits, Prisma.add totalDebits (LedgerEntry.amount e))
         end)
      entries (0, 0) in
  ret (Aggregates.mk (Prisma.toString (fst totals)) (Prisma.toString (snd totals))
         (Prisma.toString (Prisma.sub (fst totals) (snd totals)))).

(** ** Further instances *)

Module Cases.

(** The funded wallet after the debit of its whole balance. *)
Definition emptied_db : DB :=
  final_db (appendEntry Scenario.debit_all Scenario.funded_db).

(** A database with the ledger [es] in place of its own. *)
Definition with_ledger (es : list LedgerEntry.t) (db : DB) : DB :=
  mkDB es (walletBalanceCache db) (paymentIntent db) (webhookInbox db) (nextId db).

Definition blank : LedgerEntry.t :=
  LedgerEntry.mk EmptyString EmptyString 0 EmptyString None CREDIT 0 None None EmptyString.

(** The two escrow credits of [Scenario.settled_db], for orders O1 and
    O10. *)
Definition paid_O1 : LedgerEntry.t := nth 0 (ledgerEntry Scenario.settled_db) blank.

Definition paid_O10 : LedgerEntry.t := nth 1 (ledgerEntry Scenario.settled_db) blank.

(** The first credit with its amount changed from 10000 to 9999, all else
    as stored. *)
Definition overstated_O1 : LedgerEntry.t :=
  LedgerEntry.mk (LedgerEntry.id paid_O1) (LedgerEntry.accountId paid_O1)
    (LedgerEntry.walletSeq paid_O1) (LedgerEntry.reference paid_O1)
    (LedgerEntry.orderId paid_O1) (LedgerEntry.entryType paid_O1) 99990000
    (LedgerEntry.description paid_O1) (LedgerEntry.prevHash paid_O1)
    (LedgerEntry.entryHash paid_O1).

Definition overstated_db : DB :=
  with_ledger [overstated_O1; paid_O10] Scenario.settled_db.

(** The second credit pointing at a hash that is not the first one's, all
    else as stored. *)
Definition relinked_O10 : LedgerEntry.t :=
  LedgerEntry.mk (LedgerEntry.id paid_O10) (LedgerEntry.accountId paid_O10)
    (LedgerEntry.walletSeq paid_O10) (LedgerEntry.reference paid_O10)
    (LedgerEntry.orderId paid_O10) (LedgerEntry.entryType paid_O10)
    (LedgerEntry.amount paid_O10) (LedgerEntry.description paid_O10)
    (Some (LedgerEntry.entryHash paid_O10)) (LedgerEntry.entryHash paid_O10).

Definition relinked_db : DB :=
  with_ledger [paid_O1; relinked_O10] Scenario.settled_db.

(** A handler that asks for OPS or ADMIN, called with the header
    [x-role: admin] and nothing else. *)
Definition ops_endpoint : ExecutionContext.t :=
  ExecutionContext.mk None None (Some [Role.OPS; Role.ADMIN]) None
    (<["x-role" := "admin"]> ∅).

(** A refund of 100.0000 on the settled payment of order O1. *)
Definition refund_O1 : CreateRefundIntentDto.t :=
  CreateRefundIntentDto.mk "c0" "100.0000" "CUSTOMER_REQUEST" None.

Definition settled_intents : IntentDB := mkIntentDB Scenario.settled_db [].

End Cases.

(** * Properties *)

(** Closed facts about concrete runs: split the conjunctions, then evaluate. *)
Ltac evaluate :=
  repeat match goal with |- _ ∧ _ => split end; vm_compute; reflexivity.

(** The digest against the test vectors of FIPS 180-4. *)
Example sha256_abc :
  SHA256.hex "abc" = "ba7816bf8f01cfea414140de5dae2223b00361a396177a9cb410ff61f20015ad".
Proof. vm_compute. reflexivity. Qed.

Example sha256_empty :
  SHA256.hex EmptyString
  = "e3b0c44298fc1c149afbf4c8996fb92427ae41e4649b934ca495991b7852b855".
Proof. vm_compute. reflexivity. Qed.

Example sha256_two_blocks :
  SHA256.hex "abcdbcdecdefdefgefghfghighijhijkijkljklmklmnlmnomnopnopq"
  = "248d6a61d20638b8e5c026930c3e6039a33ce45964ff2167f6ecedd419db06c1".
Proof. vm_compute. reflexivity. Qed.

Example sha256_constants :
  SHA256.primes 8 = [2; 3; 5; 7; 11; 13; 17; 19] ∧
  nth 0 SHA256.K 0 = 0x428a2f98 ∧ nth 63 SHA256.K 0 = 0xc67178f2 ∧
  nth 0 SHA256.H0 0 = 0x6a09e667 ∧ nth 7 SHA256.H0 0 = 0x5be0cd19.
Proof. evaluate. Qed.

Arguments computeEntryHash : simpl never.
Arguments SHA256.hex : simpl never.
Arguments Prisma.toString : simpl never.
Arguments Prisma.ofString : simpl never.
Arguments Text.nat_string : simpl never.
Arguments Text.int_string : simpl never.

(** ** Decimal text: printing then parsing gives the value back *)

Section DecimalText.

Lemma digit_of_digit_char (d : Z) :
  0 <= d < 10 → Text.digit_of_ascii (Text.digit_char d) = Some d.
Proof.
  intros Hd.
  assert (Hcases : d = 0 ∨ d = 1 ∨ d = 2 ∨ d = 3 ∨ d = 4 ∨
                   d = 5 ∨ d = 6 ∨ d = 7 ∨ d = 8 ∨ d = 9) by lia.
  repeat (destruct Hcases as [-> | Hcases]; [reflexivity |]).
  subst d. reflexivity.
Qed.

Lemma digit_char_code (d : Z) :
  0 <= d < 10 → Text.code (Text.digit_char d) = 48 + d.
Proof.
  intros Hd.
  assert (Hcases : d = 0 ∨ d = 1 ∨ d = 2 ∨ d = 3 ∨ d = 4 ∨
                   d = 5 ∨ d = 6 ∨ d = 7 ∨ d = 8 ∨ d = 9) by lia.
  repeat (destruct Hcases as [-> | Hcases]; [reflexivity |]).
  subst d. reflexivity.
Qed.

Lemma parse_int_digit (a d : Z) (seen : bool) (s : string) :
  0 <= d < 10 →
  Prisma.parse_int a seen (String (Text.digit_char d) s)
  = Prisma.parse_int (10 * a + d) true s.
Proof.
  intros Hd. cbn [Prisma.parse_int].
  rewrite digit_char_code, digit_of_digit_char by done.
  destruct (48 + d =? 46) eqn:E; [lia | done].
Qed.

Lemma parse_int_digits (fuel : nat) :
  ∀ (n a : Z) (seen : bool) (acc : string),
    0 <= n < 10 ^ Z.of_nat (S fuel) →
    ∃ k, 0 <= k ∧
         Prisma.parse_int a seen (Text.digits_of (S fuel) n acc)
         = Prisma.parse_int (a * 10 ^ k + n) true acc.
Proof.
  induction fuel as [| fuel IH]; intros n a seen acc Hn.
  - exists 1. split; [lia |].
    change (10 ^ Z.of_nat 1) with 10 in Hn.
    cbn [Text.digits_of].
    destruct (n <? 10) eqn:E; [| lia].
    rewrite Z.mod_small by lia.
    rewrite parse_int_digit by lia. f_equal. lia.
  - cbn [Text.digits_of].
    destruct (n <? 10) eqn:E.
    + exists 1. split; [lia |].
      rewrite Z.mod_small by lia.
      rewrite parse_int_digit by lia. f_equal. lia.
    + assert (Hq : 0 <= n / 10 < 10 ^ Z.of_nat (S fuel)).
      { split; [apply Z.div_pos; lia |].
        apply Z.div_lt_upper_bound; [lia |].
        replace (Z.of_nat (S (S fuel))) with (1 + Z.of_nat (S fuel)) in Hn by lia.
        rewrite Z.pow_add_r in Hn by lia. lia. }
      destruct (IH (n / 10) a seen (String (Text.digit_char (n mod 10)) acc) Hq)
        as (k & Hk & Heq).
      exists (k + 1). split; [lia |].
      etransitivity; [exact Heq |].
      rewrite parse_int_digit by (apply Z.mod_pos_bound; lia).
      f_equal. rewrite Z.pow_add_r by lia.
      pose proof (Z.div_mod n 10 ltac:(lia)). lia.
Qed.

Lemma digits_of_app (fuel : nat) :
  ∀ (n : Z) (acc s : string),
    Text.digits_of fuel n acc +:+ s = Text.digits_of fuel n (acc +:+ s).
Proof.
  induction fuel as [| fuel IH]; intros n acc s; cbn [Text.digits_of]; [done |].
  destruct (n <? 10); [done |]. apply IH.
Qed.

Lemma nat_string_fuel (n : Z) :
  0 <= n → n < 10 ^ Z.of_nat (S (Z.to_nat (Z.log2 n))).
Proof.
  intros Hn.
  destruct (Z.eq_dec n 0) as [-> | Hne]; [reflexivity |].
  pose proof (Z.log2_nonneg n) as Hl.
  pose proof (Z.log2_spec n ltac:(lia)) as [_ Hup].
  replace (Z.of_nat (S (Z.to_nat (Z.log2 n)))) with (Z.succ (Z.log2 n)) by lia.
  eapply Z.lt_le_trans; [exact Hup |].
  apply Z.pow_le_mono_l. lia.
Qed.

Lemma parse_int_nat_string (n : Z) (suffix : string) :
  0 <= n →
  Prisma.parse_int 0 false (Text.nat_string n +:+ suffix)
  = Prisma.parse_int n true suffix.
Proof.
  intros Hn. unfold Text.nat_string. rewrite digits_of_app.
  destruct (parse_int_digits (Z.to_nat (Z.log2 n)) n 0 false
              (EmptyString +:+ suffix)) as (k & _ & Heq).
  { split; [done |]. by apply nat_string_fuel. }
  rewrite Heq. f_equal.
Qed.

Lemma parse_frac_fixed (j : nat) :
  ∀ (m : nat) (n acc : Z) (rest : string),
    0 <= n < 10 ^ Z.of_nat j →
    Prisma.parse_frac (j + m) acc (Prisma.fixed_digits j n rest)
    = Prisma.parse_frac m (acc * 10 ^ Z.of_nat j + n) rest.
Proof.
  induction j as [| j IH]; intros m n acc rest Hn.
  - cbn. f_equal. change (10 ^ Z.of_nat 0) with 1 in *. lia.
  - cbn [Prisma.fixed_digits].
    assert (Hq : 0 <= n / 10 < 10 ^ Z.of_nat j).
    { split; [apply Z.div_pos; lia |].
      apply Z.div_lt_upper_bound; [lia |].
      replace (Z.of_nat (S j)) with (1 + Z.of_nat j) in Hn by lia.
      rewrite Z.pow_add_r in Hn by lia. lia. }
    replace (S j + m)%nat with (j + S m)%nat by lia.
    rewrite IH by done.
    cbn [Prisma.parse_frac].
    rewrite digit_of_digit_char by (apply Z.mod_pos_bound; lia).
    f_equal.
    replace (Z.of_nat (S j)) with (Z.of_nat j + 1) by lia.
    rewrite Z.pow_add_r by lia.
    pose proof (Z.div_mod n 10 ltac:(lia)). lia.
Qed.

Lemma parse_frac_strip (k : nat) :
  ∀ (m : nat) (f acc : Z),
    0 < f < 10 ^ Z.of_nat k →
    Prisma.parse_frac (k + m) acc (Prisma.strip_zeros k f)
    = Some ((acc * 10 ^ Z.of_nat k + f) * 10 ^ Z.of_nat m).
Proof.
  induction k as [| k IH]; intros m f acc Hf.
  - change (10 ^ Z.of_nat 0) with 1 in Hf. lia.
  - cbn [Prisma.strip_zeros].
    replace (Z.of_nat (S k)) with (Z.of_nat k + 1) in * by lia.
    rewrite Z.pow_add_r in * by lia.
    pose proof (Z.div_mod f 10 ltac:(lia)) as Hdm.
    destruct (f mod 10 =? 0) eqn:E.
    + apply Z.eqb_eq in E.
      replace (S k + m)%nat with (k + S m)%nat by lia.
      rewrite IH by lia. f_equal.
      replace (Z.of_nat (S m)) with (Z.of_nat m + 1) by lia.
      rewrite Z.pow_add_r by lia. lia.
    + rewrite (parse_frac_fixed (S k) m f acc EmptyString).
      * cbn [Prisma.parse_frac]. do 3 f_equal.
        replace (Z.of_nat (S k)) with (Z.of_nat k + 1) by lia.
        rewrite Z.pow_add_r by lia. lia.
      * replace (Z.of_nat (S k)) with (Z.of_nat k + 1) by lia.
        rewrite Z.pow_add_r by lia. lia.
Qed.

Lemma parse_int_body (a : Z) :
  0 <= a →
  Prisma.parse_int 0 false
    (Text.nat_string (a / 10000) +:+
     (if a mod 10000 =? 0 then EmptyString
      else "." +:+ Prisma.strip_zeros 4 (a mod 10000)))
  = Some a.
Proof.
  intros Ha.
  pose proof (Z.div_mod a 10000 ltac:(lia)) as Hdm.
  pose proof (Z.mod_pos_bound a 10000 ltac:(lia)) as Hm.
  rewrite parse_int_nat_string by (apply Z.div_pos; lia).
  destruct (a mod 10000 =? 0) eqn:E.
  - apply Z.eqb_eq in E. cbn [Prisma.parse_int]. f_equal. lia.
  - apply Z.eqb_neq in E.
    change ("." +:+ Prisma.strip_zeros 4 (a mod 10000))
      with (String "." (Prisma.strip_zeros 4 (a mod 10000))).
    cbn [Prisma.parse_int].
    change (Text.code "." =? 46) with true. cbv iota.
    pose proof (parse_frac_strip 4 0 (a mod 10000) (a / 10000)) as Hf.
    change (4 + 0)%nat with 4%nat in Hf.
    change (10 ^ Z.of_nat 4) with 10000 in Hf.
    change (10 ^ Z.of_nat 0) with 1 in Hf.
    rewrite Hf by lia. f_equal. lia.
Qed.

Lemma nat_string_head (n : Z) :
  0 <= n → ∃ d s, 0 <= d < 10 ∧ Text.nat_string n = String (Text.digit_char d) s.
Proof.
  intros Hn. unfold Text.nat_string.
  generalize (Z.to_nat (Z.log2 n)) as fuel. intros fuel.
  assert (Hgen : ∀ fuel n acc, 0 <= n →
            ∃ d s, 0 <= d < 10 ∧
                   Text.digits_of (S fuel) n acc = String (Text.digit_char d) s).
  { clear. induction fuel as [| fuel IH]; intros n acc Hn; cbn [Text.digits_of].
    - destruct (n <? 10); exists (n mod 10), acc;
        (split; [apply Z.mod_pos_bound; lia | done]).
    - destruct (n <? 10).
      + exists (n mod 10), acc. split; [apply Z.mod_pos_bound; lia | done].
      + apply IH. apply Z.div_pos; lia. }
  by apply Hgen.
Qed.

Lemma ofString_digit_head (c : Z) (s : string) :
  0 <= c < 10 →
  Prisma.ofString (String (Text.digit_char c) s)
  = Prisma.parse_int 0 false (String (Text.digit_char c) s).
Proof.
  intros Hc. unfold Prisma.ofString.
  rewrite digit_char_code by done.
  destruct (48 + c =? 45) eqn:E; [lia | done].
Qed.

(** [new Prisma.Decimal(d.toString())] is [d] again. *)
Lemma ofString_toString (d : Prisma.Decimal) :
  Prisma.ofString (Prisma.toString d) = Some d.
Proof.
  unfold Prisma.toString.
  set (a := Z.abs d).
  assert (Ha : 0 <= a) by (subst a; lia).
  pose proof (parse_int_body a Ha) as Hbody.
  set (body := Text.nat_string (a / 10000) +:+ _) in *.
  destruct (d <? 0) eqn:Hneg.
  - change ("-" +:+ body) with (String "-" body).
    unfold Prisma.ofString. change (Text.code "-" =? 45) with true. cbv iota.
    rewrite Hbody. cbn. f_equal. subst a. lia.
  - destruct (nat_string_head (a / 10000)) as (c & s & Hc & Hs).
    { apply Z.div_pos; lia. }
    assert (Hb : body = String (Text.digit_char c) (s +:+
               (if a mod 10000 =? 0 then EmptyString
                else "." +:+ Prisma.strip_zeros 4 (a mod 10000)))).
    { subst body. rewrite Hs. done. }
    rewrite Hb, ofString_digit_head, <- Hb, Hbody by done.
    f_equal. subst a. lia.
Qed.

End DecimalText.

(** ** The ledger engine *)

Ltac tx_unfold :=
  unfold bind, ret, throw, read, write, fresh_id, transaction in *.

Ltac db_simpl :=
  cbn [ledgerEntry walletBalanceCache paymentIntent webhookInbox nextId
       ledgerEntry_.insert walletBalanceCache_.put paymentIntent_.set_rows
       webhookInbox_.set_rows bump] in *.

Section LedgerEngine.

Implicit Types (p : AppendEntryParams.t) (db : DB) (d : Prisma.Decimal).

Lemma appendEntry_fresh p db d :
  Prisma.ofString (amount_text (AppendEntryParams.amount p)) = Some d →
  stored (AppendEntryParams.accountId p) (AppendEntryParams.reference p) db = None →
  appendEntry p db =
    let accountId := AppendEntryParams.accountId p in
    let e := next_entry p d db in
    let db1 := ledgerEntry_.insert e (bump db) in
    match walletBalanceCache db !! accountId with
    | Some cached =>
        let newBalance :=
          WalletBalanceCache.balance cached +
          match AppendEntryParams.entryType p with CREDIT => d | DEBIT => - d end in
        if newBalance <? 0 then
          Thrown (INSUFFICIENT_BALANCE accountId (WalletBalanceCache.balance cached)
                    (amount_text (AppendEntryParams.amount p))) db1
        else
          Returned (AppendEntryResult.of_entry e)
            (walletBalanceCache_.put accountId
               (WalletBalanceCache.mk newBalance (WalletBalanceCache.currency cached)
                  (LedgerEntry.walletSeq e)) db1)
    | None =>
        match AppendEntryParams.entryType p with
        | DEBIT => Thrown (DEBIT_ON_NON_EXISTENT_WALLET accountId) db1
        | CREDIT =>
            Returned (AppendEntryResult.of_entry e)
              (walletBalanceCache_.put accountId
                 (WalletBalanceCache.mk d "NGN" (LedgerEntry.walletSeq e)) db1)
        end
    end.
Proof.
  intros Hd Hnew. unfold stored in Hnew.
  unfold appendEntry, new_Decimal. rewrite Hd.
  unfold ledgerEntry_.findUnique, ledgerEntry_.findFirst_desc, ledgerEntry_.create,
    ledgerEntry_.findUnique, walletBalanceCache_.findUnique,
    walletBalanceCache_.update, walletBalanceCache_.create,
    walletBalanceCache_.findUnique.
  tx_unfold. cbn beta iota. rewrite Hnew.
  cbn [ledgerEntry LedgerEntry.accountId LedgerEntry.reference]. rewrite Hnew. cbn [walletBalanceCache ledgerEntry_.insert].
  unfold Prisma.lessThan, Prisma.add, Prisma.negated, next_entry.
  destruct (walletBalanceCache db !! AppendEntryParams.accountId p) as [cached |] eqn:Hc.
  - cbn zeta.
    destruct (_ <? 0); [done |].
    unfold ledgerEntry_.insert, bump. cbn [walletBalanceCache]. rewrite Hc. done.
  - destruct (AppendEntryParams.entryType p); [| done].
    unfold ledgerEntry_.insert, bump. cbn [walletBalanceCache]. rewrite Hc. done.
Qed.

Lemma appendEntry_existing p db d existing :
  Prisma.ofString (amount_text (AppendEntryParams.amount p)) = Some d →
  stored (AppendEntryParams.accountId p) (AppendEntryParams.reference p) db
  = Some existing →
  appendEntry p db = Returned (AppendEntryResult.of_entry existing) db.
Proof.
  intros Hd Hex. unfold stored in Hex.
  unfold appendEntry, new_Decimal. rewrite Hd.
  unfold ledgerEntry_.findUnique. tx_unfold. cbn beta iota.
  by rewrite Hex.
Qed.

Lemma appendEntry_invalid_amount p db :
  Prisma.ofString (amount_text (AppendEntryParams.amount p)) = None →
  appendEntry p db
  = Thrown (DecimalError ("[DecimalError] Invalid argument: " +:+
                          Prisma.unsigned (amount_text (AppendEntryParams.amount p)))) db.
Proof.
  intros Hd. unfold appendEntry, new_Decimal. rewrite Hd. done.
Qed.

Lemma append_length (s t : string) :
  String.length (s +:+ t) = (String.length s + String.length t)%nat.
Proof.
  induction s as [| c s IH]; [done |].
  change (String c s +:+ t) with (String c (s +:+ t)).
  cbn [String.length]. by rewrite IH.
Qed.

Lemma append_neq (s t u : string) :
  (String.length t + String.length u ≠ 0)%nat → (s +:+ t) +:+ u ≠ s.
Proof.
  intros Hlen Heq. apply (f_equal String.length) in Heq.
  rewrite !append_length in Heq. lia.
Qed.

Lemma find_snoc {A} (f : A → bool) (l : list A) (x : A) :
  List.find f l = None →
  List.find f (l ++ [x]) = if f x then Some x else None.
Proof.
  induction l as [| y l IH]; cbn; [done |].
  destruct (f y); [done | exact IH].
Qed.

Lemma last_of_snoc (accountId : string) (l : list LedgerEntry.t) (e : LedgerEntry.t) :
  ∀ best,
    ledgerEntry_.last_of accountId best (l ++ [e])
    = if bool_decide (LedgerEntry.accountId e = accountId) then
        match ledgerEntry_.last_of accountId best l with
        | Some b => if LedgerEntry.walletSeq b <? LedgerEntry.walletSeq e
                    then Some e else Some b
        | None => Some e
        end
      else ledgerEntry_.last_of accountId best l.
Proof.
  induction l as [| x l IH]; intros best; cbn [app ledgerEntry_.last_of].
  - destruct (bool_decide _); [| done].
    destruct best as [b |]; [| done]. by destruct (_ <? _).
  - destruct (bool_decide (LedgerEntry.accountId x = accountId)); [| apply IH].
    destruct best as [b |]; [| apply IH].
    destruct (LedgerEntry.walletSeq b <? LedgerEntry.walletSeq x); apply IH.
Qed.

Lemma last_of_next (p : AppendEntryParams.t) (d : Prisma.Decimal) db :
  ledgerEntry_.last_of (AppendEntryParams.accountId p) None
    (ledgerEntry db ++ [next_entry p d db])
  = Some (next_entry p d db).
Proof.
  rewrite last_of_snoc.
  change (LedgerEntry.accountId (next_entry p d db)) with (AppendEntryParams.accountId p).
  rewrite bool_decide_eq_true_2 by done.
  change (LedgerEntry.walletSeq (next_entry p d db))
    with (default 0 (LedgerEntry.walletSeq <$>
                     ledgerEntry_.last_of (AppendEntryParams.accountId p) None
                       (ledgerEntry db)) + 1).
  destruct (ledgerEntry_.last_of _ None (ledgerEntry db)) as [b |]; [| done].
  cbn. destruct (_ <? _) eqn:E; [done | lia].
Qed.

(** What a call that returned has done: either it found the entry and
    changed nothing, or it appended [next_entry] and wrote the cache row
    of the account. *)
Lemma appendEntry_returned p db (r : AppendEntryResult.t) (db1 : DB) :
  appendEntry p db = Returned r db1 →
  ∃ d, Prisma.ofString (amount_text (AppendEntryParams.amount p)) = Some d ∧
    ((∃ existing,
        stored (AppendEntryParams.accountId p) (AppendEntryParams.reference p) db
        = Some existing ∧ r = AppendEntryResult.of_entry existing ∧ db1 = db) ∨
     (stored (AppendEntryParams.accountId p) (AppendEntryParams.reference p) db = None ∧
      r = AppendEntryResult.of_entry (next_entry p d db) ∧
      ∃ row,
        db1 = walletBalanceCache_.put (AppendEntryParams.accountId p) row
                (ledgerEntry_.insert (next_entry p d db) (bump db)) ∧
        WalletBalanceCache.balance row
        = default 0 (WalletBalanceCache.balance <$>
                     walletBalanceCache db !! AppendEntryParams.accountId p)
          + match AppendEntryParams.entryType p with CREDIT => d | DEBIT => - d end)).
Proof.
  intros Hret.
  destruct (Prisma.ofString (amount_text (AppendEntryParams.amount p))) as [d |] eqn:Hd;
    [| rewrite appendEntry_invalid_amount in Hret by done; discriminate].
  exists d. split; [done |].
  destruct (stored (AppendEntryParams.accountId p) (AppendEntryParams.reference p) db)
    as [existing |] eqn:Hst.
  - left. exists existing. rewrite (appendEntry_existing p db d existing Hd Hst) in Hret.
    by injection Hret as <- <-.
  - right. rewrite (appendEntry_fresh p db d Hd Hst) in Hret. cbv zeta in Hret.
    split; [done |].
    destruct (walletBalanceCache db !! AppendEntryParams.accountId p) as [cached |] eqn:Hc.
    + destruct (_ <? 0) eqn:E; [discriminate |].
      injection Hret as <- <-. split; [done |].
      eexists. split; [reflexivity |]. done.
    + destruct (AppendEntryParams.entryType p) eqn:Ht; [| discriminate].
      injection Hret as <- <-. split; [done |].
      eexists. split; [reflexivity |]. done.
Qed.

End LedgerEngine.

(** C4. A DEBIT under a new reference, run in its transaction, on an account
    whose cache row holds balance [b]: it succeeds exactly when the amount
    [d] is at most [b], the new balance being [b - d] (so 0 when [d = b]);
    a larger amount throws INSUFFICIENT_BALANCE and leaves the database as
    it was, so no entry is written and the cache is unchanged; without a
    cache row the debit throws DEBIT_ON_NON_EXISTENT_WALLET. *)
Theorem appendEntry_debit_guard (p : AppendEntryParams.t) (db : DB) (d : Prisma.Decimal) :
  AppendEntryParams.entryType p = DEBIT →
  Prisma.ofString (amount_text (AppendEntryParams.amount p)) = Some d →
  stored (AppendEntryParams.accountId p) (AppendEntryParams.reference p) db = None →
  (∀ cached,
     walletBalanceCache db !! AppendEntryParams.accountId p = Some cached →
     let b := WalletBalanceCache.balance cached in
     ((∃ r db', transaction (appendEntry p) db = Returned r db') ↔ d <= b) ∧
     (d <= b →
      ∃ db',
        transaction (appendEntry p) db
        = Returned (AppendEntryResult.of_entry (next_entry p d db)) db' ∧
        ledgerEntry db' = ledgerEntry db ++ [next_entry p d db] ∧
        WalletBalanceCache.balance <$> walletBalanceCache db' !! AppendEntryParams.accountId p
        = Some (b - d) ∧
        (d = b →
         WalletBalanceCache.balance <$> walletBalanceCache db' !! AppendEntryParams.accountId p
         = Some 0)) ∧
     (b < d →
      transaction (appendEntry p) db
      = Thrown (INSUFFICIENT_BALANCE (AppendEntryParams.accountId p) b
                  (amount_text (AppendEntryParams.amount p))) db)) ∧
  (walletBalanceCache db !! AppendEntryParams.accountId p = None →
   transaction (appendEntry p) db
   = Thrown (DEBIT_ON_NON_EXISTENT_WALLET (AppendEntryParams.accountId p)) db).
Proof.
  intros Hdebit Hd Hnew.
  pose proof (appendEntry_fresh p db d Hd Hnew) as Hrun.
  cbv zeta in Hrun. rewrite Hdebit in Hrun.
  split.
  - intros cached Hc b. rewrite Hc in Hrun.
    assert (Hok : d <= b →
      ∃ db',
        transaction (appendEntry p) db
        = Returned (AppendEntryResult.of_entry (next_entry p d db)) db' ∧
        ledgerEntry db' = ledgerEntry db ++ [next_entry p d db] ∧
        WalletBalanceCache.balance <$> walletBalanceCache db' !! AppendEntryParams.accountId p
        = Some (b - d) ∧
        (d = b →
         WalletBalanceCache.balance <$> walletBalanceCache db' !! AppendEntryParams.accountId p
         = Some 0)).
    { intros Hle. unfold transaction. rewrite Hrun.
      destruct (WalletBalanceCache.balance cached + - d <? 0) eqn:E; [subst b; lia |].
      eexists. split; [reflexivity |].
      cbn [ledgerEntry walletBalanceCache walletBalanceCache_.put ledgerEntry_.insert bump].
      rewrite lookup_insert_eq. cbn.
      split; [done |]. split; [f_equal; subst b; lia |].
      intros ->. f_equal. subst b. lia. }
    assert (Hko : b < d →
      transaction (appendEntry p) db
      = Thrown (INSUFFICIENT_BALANCE (AppendEntryParams.accountId p) b
                  (amount_text (AppendEntryParams.amount p))) db).
    { intros Hlt. unfold transaction. rewrite Hrun.
      destruct (WalletBalanceCache.balance cached + - d <? 0) eqn:E; [done | subst b; lia]. }
    split; [| split; done].
    split.
    + intros (r & db' & Hret).
      destruct (Z_le_gt_dec d b) as [Hle | Hgt]; [done |].
      rewrite Hko in Hret by lia. discriminate.
    + intros Hle. destruct (Hok Hle) as (db' & Hret & _). eauto.
  - intros Hc. rewrite Hc in Hrun. unfold transaction. by rewrite Hrun.
Qed.

(** C4 on a wallet holding 5.0000: debiting 5.0000 goes through and leaves
    a balance of 0. *)
Lemma appendEntry_debit_guard_witness :
  AppendEntryParams.entryType Scenario.debit_all = DEBIT ∧
  Prisma.ofString (amount_text (AppendEntryParams.amount Scenario.debit_all)) = Some 50000 ∧
  stored "TEST_ACCOUNT" "REF_002" Scenario.funded_db = None ∧
  (∃ db',
     transaction (appendEntry Scenario.debit_all) Scenario.funded_db
     = Returned (AppendEntryResult.of_entry
                   (next_entry Scenario.debit_all 50000 Scenario.funded_db)) db' ∧
     WalletBalanceCache.balance <$> walletBalanceCache db' !! "TEST_ACCOUNT" = Some 0).
Proof.
  split; [reflexivity |]. split; [reflexivity |]. split; [reflexivity |].
  destruct (appendEntry_debit_guard Scenario.debit_all Scenario.funded_db 50000
              eq_refl eq_refl eq_refl) as [Hrow _].
  destruct (Hrow (WalletBalanceCache.mk 50000 "NGN" 1) eq_refl) as (_ & Hok & _).
  destruct (Hok ltac:(cbn; lia)) as (db' & Hret & _ & _ & Hzero).
  exists db'. split; [exact Hret | exact (Hzero eq_refl)].
Defined.

(** The two refusals of C4 on the same wallet. Inside the transaction the
    entry of the refused debit had been inserted before the balance was
    checked; it is the rollback that removes it. *)
Example appendEntry_debit_refused :
  transaction (appendEntry Scenario.debit_more) Scenario.funded_db
  = Thrown (INSUFFICIENT_BALANCE "TEST_ACCOUNT" 50000 "5.0001") Scenario.funded_db ∧
  map LedgerEntry.reference
    (ledgerEntry (final_db (appendEntry Scenario.debit_more Scenario.funded_db)))
  = ["REF_001"; "REF_002"] ∧
  transaction (appendEntry Scenario.debit_unknown) Scenario.funded_db
  = Thrown (DEBIT_ON_NON_EXISTENT_WALLET "NO_SUCH_WALLET") Scenario.funded_db.
Proof. evaluate. Qed.

(** C5. When an entry is stored under (accountId, reference), appendEntry
    called with that pair returns the fields of that entry as they are
    stored, id, accountId, walletSeq, reference, entryType, amount,
    entryHash and prevHash, and leaves the database exactly as it was: no
    insert, no change to the balance cache, no identifier drawn, with or
    without the enclosing transaction. The amount of the call is a
    Prisma.Decimal or a literal of at most four decimals, whatever its
    value: it need not be the amount stored. And whatever the amount is,
    also one the constructor refuses, the call writes nothing. *)
Theorem appendEntry_idempotent (p : AppendEntryParams.t) (db : DB)
        (existing : LedgerEntry.t) :
  stored (AppendEntryParams.accountId p) (AppendEntryParams.reference p) db
  = Some existing →
  let result :=
    AppendEntryResult.mk (LedgerEntry.id existing) (LedgerEntry.accountId existing)
      (LedgerEntry.walletSeq existing) (LedgerEntry.reference existing)
      (LedgerEntry.entryType existing) (LedgerEntry.amount existing)
      (LedgerEntry.entryHash existing) (LedgerEntry.prevHash existing) in
  (∀ d,
     Prisma.ofString (amount_text (AppendEntryParams.amount p)) = Some d →
     appendEntry p db = Returned result db ∧
     transaction (appendEntry p) db = Returned result db) ∧
  final_db (appendEntry p db) = db ∧
  AppendEntryResult.accountId result = AppendEntryParams.accountId p ∧
  AppendEntryResult.reference result = AppendEntryParams.reference p ∧
  In existing (ledgerEntry db).
Proof.
  intros Hex result.
  assert (Hrun : ∀ d,
            Prisma.ofString (amount_text (AppendEntryParams.amount p)) = Some d →
            appendEntry p db = Returned result db)
    by (intros d Hd; exact (appendEntry_existing p db d existing Hd Hex)).
  split; [| split].
  - intros d Hd. split; [by apply (Hrun d) |]. unfold transaction. by rewrite (Hrun d).
  - destruct (Prisma.ofString (amount_text (AppendEntryParams.amount p))) as [d |] eqn:Hd.
    + by rewrite (Hrun d).
    + by rewrite appendEntry_invalid_amount.
  - unfold stored in Hex. destruct (List.find_some _ _ Hex) as [Hin Hmatch].
    unfold ledgerEntry_.matches in Hmatch. apply andb_prop in Hmatch as [Ha Hr].
    apply bool_decide_eq_true_1 in Ha, Hr. done.
Qed.

(** The funding call of [Scenario.funded_db] made a second time: the entry
    of 5.0000 comes back with the fields it was stored with. *)
Lemma appendEntry_idempotent_witness :
  Prisma.ofString (amount_text (AppendEntryParams.amount Scenario.fund_params))
  = Some 50000 ∧
  stored "TEST_ACCOUNT" "REF_001" Scenario.funded_db
  = Some (next_entry Scenario.fund_params 50000 empty_db) ∧
  ∃ entryHash,
    appendEntry Scenario.fund_params Scenario.funded_db
    = Returned (AppendEntryResult.mk "c0" "TEST_ACCOUNT" 1 "REF_001" CREDIT 50000
                  entryHash None)
        Scenario.funded_db ∧
    LedgerEntry.entryHash <$> stored "TEST_ACCOUNT" "REF_001" Scenario.funded_db
    = Some entryHash.
Proof.
  assert (Hstored : stored "TEST_ACCOUNT" "REF_001" Scenario.funded_db
                    = Some (next_entry Scenario.fund_params 50000 empty_db))
    by (vm_compute; reflexivity).
  split; [reflexivity |]. split; [exact Hstored |].
  exists (LedgerEntry.entryHash (next_entry Scenario.fund_params 50000 empty_db)).
  split; [| by rewrite Hstored].
  destruct (appendEntry_idempotent Scenario.fund_params Scenario.funded_db
              (next_entry Scenario.fund_params 50000 empty_db) Hstored)
    as [Hreturned _].
  destruct (Hreturned 50000 eq_refl) as [Hrun _].
  rewrite Hrun. vm_compute. reflexivity.
Defined.

(** The amount is read before the idempotency probe: a repeated call whose
    amount is no decimal literal throws instead of returning the entry. *)
Example appendEntry_reads_amount_first :
  is_Some (stored "TEST_ACCOUNT" "REF_001" Scenario.funded_db) ∧
  appendEntry Scenario.fund_again_invalid Scenario.funded_db
  = Thrown (DecimalError "[DecimalError] Invalid argument: abc") Scenario.funded_db.
Proof.
  split; [vm_compute; eauto |].
  apply (appendEntry_invalid_amount Scenario.fund_again_invalid). reflexivity.
Qed.

(** ** Chain verification against the seed *)

(** C1, at two untampered chains. The seed hashes the amount of the genesis
    entry as ["1000000.0000"]; verifyChain hashes [entry.amount.toString()],
    which is ["1000000"], and reports the chain of MARKETING_WALLET broken
    at sequence 1. Likewise an entry that appendEntry wrote from the
    scale-4 literal ["5.0000"] carries the hash of that text and fails
    against ["5"]. *)
Theorem verifyChain_untampered_broken :
  seed empty_db = Returned tt seeded_db ∧
  (∃ genesis,
     ledgerEntry seeded_db = [genesis] ∧
     LedgerEntry.amount genesis = 10000000000 ∧
     Prisma.toString (LedgerEntry.amount genesis) = "1000000" ∧
     LedgerEntry.entryHash genesis
     = computeEntryHash None "MARKETING_WALLET" 1 "GENESIS_MARKETING_WALLET" "CREDIT"
         "1000000.0000"
         (Some "Marketing subsidy wallet for discount campaigns - Initial funding")) ∧
  verifyChain MARKETING_WALLET None None seeded_db
  = Returned
      (VerifyChainResult.mk "MARKETING_WALLET" false 0 (Some 1)
         (Some "0d8c49f8cf49ec6fce76d85d3a6a247cbcddcedf5ce50191a80284d357c22821")
         (Some "5204c32597932a335dd5a8e0f1d4d0e8d06dad0239672b40cb882b2abc2f6db9")
         "Chain broken at sequence 1")
      seeded_db ∧
  appendEntry Scenario.fund_params empty_db
  = Returned (AppendEntryResult.of_entry (next_entry Scenario.fund_params 50000 empty_db))
      Scenario.funded_db ∧
  AppendEntryParams.amount Scenario.fund_params = inl "5.0000" ∧
  verifyChain "TEST_ACCOUNT" None None Scenario.funded_db
  = Returned
      (VerifyChainResult.mk "TEST_ACCOUNT" false 0 (Some 1)
         (Some (computeEntryHash None "TEST_ACCOUNT" 1 "REF_001" "CREDIT" "5"
                  (Some "Test entry")))
         (Some (computeEntryHash None "TEST_ACCOUNT" 1 "REF_001" "CREDIT" "5.0000"
                  (Some "Test entry")))
         "Chain broken at sequence 1")
      Scenario.funded_db.
Proof.
  split; [vm_compute; reflexivity |].
  split.
  { eexists. split; [vm_compute; reflexivity |].
    evaluate. }
  evaluate.
Qed.

(** ** Chains written by appendEntry *)

Section Chains.

Implicit Types (db : DB) (e : LedgerEntry.t) (es : list LedgerEntry.t)
         (prev : option string) (n : Z).

Lemma chained_sorted prev n es : chained prev n es → ledgerEntry_.sort_asc es = es.
Proof.
revert prev n. induction es as [| e rest IH]; intros prev n; [done |].
intros (Hseq & _ & _ & Hrest). cbn [ledgerEntry_.sort_asc fold_right].
change (fold_right ledgerEntry_.insert_sorted [] rest) with (ledgerEntry_.sort_asc rest).
rewrite (IH _ _ Hrest).
destruct rest as [| x rest']; [done |].
destruct Hrest as (Hx & _). cbn [ledgerEntry_.insert_sorted].
destruct (LedgerEntry.walletSeq e <? LedgerEntry.walletSeq x) eqn:E; [done | lia].
Qed.

Lemma chained_verifies (accountId : string) (fromSeq : option Z) (total : Z) prev n es :
  chained prev n es →
  verify_entries accountId fromSeq total prev es
  = VerifyChainResult.mk accountId true total None None None "Chain integrity verified".
Proof.
revert prev n. induction es as [| e rest IH]; intros prev n; [done |].
intros (_ & Hprev & Hhash & Hrest). cbn [verify_entries].
rewrite <- Hhash, String.eqb_refl. cbn [negb].
rewrite bool_decide_eq_true_2 by done. cbn [negb].
by apply (IH _ (n + 1)).
Qed.

Lemma chained_last prev n es e :
  chained prev n es → last es = Some e →
  LedgerEntry.walletSeq e = n + Z.of_nat (length es).
Proof.
revert prev n. induction es as [| x rest IH]; intros prev n; [done |].
intros (Hseq & _ & _ & Hrest) Hlast.
destruct rest as [| y rest'].
- injection Hlast as <-. cbn. lia.
- rewrite last_cons_cons in Hlast.
  rewrite (IH _ _ Hrest Hlast). cbn [length]. lia.
Qed.

Lemma chained_snoc prev n es e :
  chained prev n es →
  LedgerEntry.walletSeq e = n + Z.of_nat (length es) + 1 →
  LedgerEntry.prevHash e = from_option (λ x, Some (LedgerEntry.entryHash x)) prev (last es) →
  LedgerEntry.entryHash e
  = computeEntryHash (LedgerEntry.prevHash e) (LedgerEntry.accountId e)
    (LedgerEntry.walletSeq e) (LedgerEntry.reference e)
    (LedgerEntryType_text (LedgerEntry.entryType e))
    (Prisma.toString (LedgerEntry.amount e)) (LedgerEntry.description e) →
  chained prev n (es ++ [e]).
Proof.
revert prev n. induction es as [| x rest IH]; intros prev n Hes Hseq Hprev Hhash.
- cbn in *. rewrite <- Hprev. repeat split; [lia | done].
- destruct Hes as (Hx & Hxprev & Hxhash & Hrest). cbn [app chained].
  repeat split; try done.
  apply IH; [done | cbn [length] in Hseq; lia | | done].
  rewrite Hprev. destruct rest as [| y rest']; [reflexivity |].
  rewrite last_cons_cons.
  destruct (last (y :: rest')) eqn:E; [done | apply last_None in E; discriminate].
Qed.

Lemma chains_ok_empty : chains_ok empty_db.
Proof. intros accountId. done. Qed.

Lemma chains_ok_appendEntry (p : AppendEntryParams.t) (r : AppendEntryResult.t) db db' :
  chains_ok db →
  canonical_amount (AppendEntryParams.amount p) →
  appendEntry p db = Returned r db' →
  chains_ok db'.
Proof.
intros Hok (d & Hd & Htext) Hret.
destruct (appendEntry_returned p db r db' Hret) as (d' & Hd' & Hcase).
rewrite Hd in Hd'. injection Hd' as <-.
destruct Hcase as [(existing & _ & _ & ->) | (_ & _ & row & -> & _)]; [done |].
intros accountId. destruct (Hok accountId) as [Hchain Hlast].
unfold on_account in *. db_simpl. rewrite List.filter_app. cbn [List.filter].
change (LedgerEntry.accountId (next_entry p d db)) with (AppendEntryParams.accountId p).
destruct (decide (AppendEntryParams.accountId p = accountId)) as [<- | Hne].
- rewrite bool_decide_eq_true_2 by done.
  rewrite last_of_next, last_snoc. split; [| done].
  apply chained_snoc; [done | | |].
  + unfold next_entry. cbn [LedgerEntry.walletSeq]. rewrite Hlast.
    destruct (last (List.filter _ (ledgerEntry db))) as [x |] eqn:Hx.
    * cbn. rewrite (chained_last _ _ _ _ Hchain Hx). lia.
    * apply last_None in Hx. rewrite Hx. cbn. lia.
  + unfold next_entry. cbn [LedgerEntry.prevHash]. rewrite Hlast.
    by destruct (last _).
  + unfold next_entry. cbn [LedgerEntry.prevHash LedgerEntry.entryHash LedgerEntry.accountId
      LedgerEntry.walletSeq LedgerEntry.reference LedgerEntry.entryType LedgerEntry.amount
      LedgerEntry.description]. by rewrite Htext.
- rewrite bool_decide_eq_false_2 by done. rewrite app_nil_r.
  rewrite last_of_snoc.
  change (LedgerEntry.accountId (next_entry p d db)) with (AppendEntryParams.accountId p).
  by rewrite bool_decide_eq_false_2.
Qed.

Lemma appended_chains_ok db : appended db → chains_ok db.
Proof.
induction 1 as [| p r db db' _ IH Hcanon Hret | db db' _ IH Hsame].
- apply chains_ok_empty.
- by apply (chains_ok_appendEntry p r db db').
- intros accountId. unfold chains_ok, on_account in *. rewrite Hsame. apply IH.
Qed.

Lemma canonical_decimal (x : Prisma.Decimal) : canonical_amount (inr x).
Proof. exists x. split; [apply ofString_toString | done]. Qed.

(** On a chained account verifyChain, run without a window, reports the
    chain valid and counts its entries. *)
Lemma verifyChain_chained (accountId : string) db :
  chained None 0 (on_account accountId db) →
  verifyChain accountId None None db
  = Returned
    (VerifyChainResult.mk accountId true (Z.of_nat (length (on_account accountId db)))
       None None None
       (match on_account accountId db with
        | [] => "No entries found for account"
        | _ => "Chain integrity verified"
        end))
    db.
Proof.
intros Hchain. unfold verifyChain, ledgerEntry_.findMany_window. tx_unfold.
assert (Hwindow : List.filter (ledgerEntry_.in_window accountId None None) (ledgerEntry db)
                  = on_account accountId db).
{ unfold on_account. apply List.filter_ext. intros e. unfold ledgerEntry_.in_window.
  by rewrite andb_true_r. }
rewrite Hwindow, (chained_sorted _ _ _ Hchain).
destruct (on_account accountId db) as [| e rest] eqn:Hes; [done |].
by rewrite (chained_verifies accountId None _ None 0 (e :: rest) Hchain).
Qed.

(** Every ledger written by appendEntry from amounts in [toString] form
    verifies on every account. *)
Lemma verifyChain_appended (accountId : string) db :
  appended db →
  ∃ result,
  verifyChain accountId None None db = Returned result db ∧
  VerifyChainResult.valid result = true ∧
  VerifyChainResult.entriesVerified result = Z.of_nat (length (on_account accountId db)).
Proof.
intros Happ. destruct (appended_chains_ok db Happ accountId) as [Hchain _].
rewrite (verifyChain_chained accountId db Hchain). eauto.
Qed.

(** The seed writes its genesis entry with a hash of its own making, not
    through appendEntry: the seeded ledger is none that appendEntry writes. *)
Lemma seeded_not_appended : ¬ appended seeded_db.
Proof.
  intros Happ.
  destruct (verifyChain_appended MARKETING_WALLET seeded_db Happ)
    as (result & Hrun & Hvalid & _).
  vm_compute in Hrun. injection Hrun as <-. discriminate.
Qed.

End Chains.

(** ** The webhook pipeline *)

Section Webhooks.

Implicit Types (rt : Runtime) (payload : WebhookPayload.t) (db : DB)
         (w existing : WebhookInbox.t).

Lemma find_some_by_id (f : WebhookInbox.t → bool) (rows : list WebhookInbox.t) w :
  List.find f rows = Some w →
  is_Some (List.find (λ x, bool_decide (WebhookInbox.id x = WebhookInbox.id w)) rows).
Proof.
  induction rows as [| x rows IH]; cbn; [done |].
  destruct (f x).
  - intros [= ->]. rewrite bool_decide_eq_true_2 by done. eauto.
  - intros Hw. destruct (bool_decide _); [eauto | by apply IH].
Qed.

Lemma with_status_same w :
  WebhookInbox.with_status (WebhookInbox.status w) w = w.
Proof. by destruct w. Qed.

Lemma find_map_status provider providerEventId (g : WebhookInbox.t → WebhookInbox.t)
      (rows : list WebhookInbox.t) :
  (∀ x, webhookInbox_.matches provider providerEventId (g x)
        = webhookInbox_.matches provider providerEventId x) →
  List.find (webhookInbox_.matches provider providerEventId) (map g rows)
  = g <$> List.find (webhookInbox_.matches provider providerEventId) rows.
Proof.
  intros Hg. induction rows as [| x rows IH]; cbn; [done |].
  rewrite Hg. destruct (webhookInbox_.matches provider providerEventId x); [done | exact IH].
Qed.

Lemma filter_map_status (f : WebhookInbox.t → bool) (g : WebhookInbox.t → WebhookInbox.t)
      (rows : list WebhookInbox.t) :
  (∀ x, f (g x) = f x) →
  length (List.filter f (map g rows)) = length (List.filter f rows).
Proof.
  intros Hg. induction rows as [| x rows IH]; cbn; [done |].
  rewrite Hg. destruct (f x); cbn; by rewrite IH.
Qed.

Lemma matches_mark provider providerEventId (id : string) w :
  webhookInbox_.matches provider providerEventId
    (if bool_decide (WebhookInbox.id w = id)
     then WebhookInbox.with_status WebhookStatus.DUPLICATE w else w)
  = webhookInbox_.matches provider providerEventId w.
Proof. by destruct (bool_decide _). Qed.

Lemma processWebhook_found rt payload db existing :
  List.find (webhookInbox_.matches (WebhookPayload.provider payload)
               (WebhookPayload.providerEventId payload)) (webhookInbox db)
  = Some existing →
  processWebhook rt payload db
  = Returned (WebhookResult.mk (WebhookInbox.id existing) WebhookStatus.DUPLICATE true
                "Webhook already processed")
      (mark_duplicate existing db).
Proof.
  intros Hfind. unfold processWebhook, webhookInbox_.findUnique, mark_duplicate.
  tx_unfold. cbn beta iota zeta. rewrite Hfind.
  destruct (bool_decide (WebhookInbox.status existing = WebhookStatus.DUPLICATE));
    cbn [negb]; [done |].
  unfold webhookInbox_.update, webhookInbox_.findUnique_id. tx_unfold.
  destruct (find_some_by_id _ _ _ Hfind) as [x Hx]. by rewrite Hx.
Qed.

(** A row created last is the only one an update by its identifier
    touches, identifiers being a primary key. *)
Lemma update_created (g : WebhookInbox.t → WebhookInbox.t) (rows : list WebhookInbox.t) w :
  Forall (λ x, WebhookInbox.id x ≠ WebhookInbox.id w) rows →
  map (λ x, if bool_decide (WebhookInbox.id x = WebhookInbox.id w) then g x else x)
      (rows ++ [w])
  = rows ++ [g w].
Proof.
  intros Hfresh. rewrite map_app. cbn. rewrite bool_decide_eq_true_2 by done.
  f_equal. induction Hfresh as [| x rows Hx _ IH]; cbn; [done |].
  rewrite bool_decide_eq_false_2 by done. by rewrite IH.
Qed.

Lemma find_id_created (rows : list WebhookInbox.t) w :
  is_Some (List.find (λ x, bool_decide (WebhookInbox.id x = WebhookInbox.id w))
                     (rows ++ [w])).
Proof.
  induction rows as [| x rows IH]; cbn.
  - rewrite bool_decide_eq_true_2 by done. eauto.
  - destruct (bool_decide _); [eauto | exact IH].
Qed.

(** A first delivery: stored, then FAILED or PROCESSED by the verdict on
    its signature. Nothing but the inbox and the identifier counter moves. *)
Lemma processWebhook_first rt payload db :
  List.find (webhookInbox_.matches (WebhookPayload.provider payload)
               (WebhookPayload.providerEventId payload)) (webhookInbox db) = None →
  Forall (λ x, WebhookInbox.id x ≠ cuid (nextId db)) (webhookInbox db) →
  processWebhook rt payload db
  = if verifySignature rt (WebhookPayload.provider payload)
         (WebhookPayload.rawBody payload) (WebhookPayload.headers payload)
    then
      Returned (WebhookResult.mk (cuid (nextId db)) WebhookStatus.PROCESSED false
                  "Webhook processed successfully")
        (webhookInbox_.set_rows
           (webhookInbox db ++ [inbox_row rt payload db WebhookStatus.PROCESSED None])
           (bump db))
    else
      Returned (WebhookResult.mk (cuid (nextId db)) WebhookStatus.FAILED false
                  "Signature verification failed")
        (webhookInbox_.set_rows
           (webhookInbox db ++
            [inbox_row rt payload db WebhookStatus.FAILED
               (Some "Signature verification failed")])
           (bump db)).
Proof.
  intros Hnone Hfresh.
  unfold processWebhook, webhookInbox_.findUnique, webhookInbox_.create,
    webhookInbox_.findUnique, webhookInbox_.update, webhookInbox_.findUnique_id,
    triggerSettlement.
  tx_unfold. cbn beta iota zeta. rewrite Hnone.
  cbn [webhookInbox WebhookInbox.provider WebhookInbox.providerEventId]. rewrite Hnone.
  cbn [webhookInbox webhookInbox_.set_rows WebhookInbox.id].
  set (row := WebhookInbox.mk (cuid (nextId db)) _ _ _ _ _ _ _ _).
  destruct (find_id_created (webhookInbox db) row) as [x Hx].
  change (cuid (nextId db)) with (WebhookInbox.id row) in Hfresh |- *.
  destruct (verifySignature rt _ _ _); cbn [negb].
  - db_simpl. rewrite Hx. db_simpl. rewrite (update_created _ _ _ Hfresh).
    set (verified := WebhookInbox.with_processedAt _ _).
    destruct (find_id_created (webhookInbox db) verified) as [y Hy].
    change (WebhookInbox.id verified) with (WebhookInbox.id row) in Hy.
    destruct (negb (truthy (WebhookPayload.reference payload)));
      db_simpl; rewrite Hy; db_simpl;
      rewrite (update_created _ (webhookInbox db) verified Hfresh); done.
  - db_simpl. rewrite Hx. db_simpl. rewrite (update_created _ _ _ Hfresh). done.
Qed.

End Webhooks.

(** Outside development the flutterwave verification refuses every
    signature, whatever the header and the configured secret are. *)
Lemma verifySignature_outside_development (rt : Runtime) (rawBody : string)
      (headers : gmap string string) :
  development rt = false →
  verifySignature rt PaymentProvider.flutterwave rawBody headers = false.
Proof.
  intros Hdev. unfold verifySignature, verifyFlutterwaveSignature. by rewrite Hdev.
Qed.

Lemma verifySignature_in_development (rt : Runtime) (provider : PaymentProvider.t)
      (rawBody : string) (headers : gmap string string) :
  development rt = true →
  verifySignature rt provider rawBody headers = true.
Proof.
  intros Hdev. unfold verifySignature, verifyFlutterwaveSignature.
  destruct provider; by rewrite Hdev.
Qed.

(** Outside development every first flutterwave delivery is stored and ends
    FAILED with its errorMessage. *)
Lemma processWebhook_rejected_outside_development (rt : Runtime)
      (payload : WebhookPayload.t) (db : DB) :
  development rt = false →
  WebhookPayload.provider payload = PaymentProvider.flutterwave →
  List.find (webhookInbox_.matches (WebhookPayload.provider payload)
               (WebhookPayload.providerEventId payload)) (webhookInbox db) = None →
  Forall (λ x, WebhookInbox.id x ≠ cuid (nextId db)) (webhookInbox db) →
  processWebhook rt payload db
  = Returned (WebhookResult.mk (cuid (nextId db)) WebhookStatus.FAILED false
                "Signature verification failed")
      (webhookInbox_.set_rows
         (webhookInbox db ++
          [inbox_row rt payload db WebhookStatus.FAILED
             (Some "Signature verification failed")])
         (bump db)).
Proof.
  intros Hdev Hprovider Hnone Hfresh.
  rewrite (processWebhook_first rt payload db Hnone Hfresh), Hprovider.
  by rewrite verifySignature_outside_development.
Qed.

(** C7, at a production delivery whose verif-hash header equals the
    configured FLUTTERWAVE_SECRET_HASH: the signature is refused and the
    inbox entry ends FAILED with its errorMessage, where the claim has it
    accepted and VERIFIED. *)
Theorem processWebhook_matching_signature_rejected :
  WebhookPayload.headers Scenario.signed_delivery !! "verif-hash"
  = env Scenario.production !! "FLUTTERWAVE_SECRET_HASH" ∧
  development Scenario.production = false ∧
  verifySignature Scenario.production PaymentProvider.flutterwave
    (WebhookPayload.rawBody Scenario.signed_delivery)
    (WebhookPayload.headers Scenario.signed_delivery) = false ∧
  processWebhook Scenario.production Scenario.signed_delivery Scenario.confirmed_db
  = Returned (WebhookResult.mk "c2" WebhookStatus.FAILED false
                "Signature verification failed")
      (webhookInbox_.set_rows
         [inbox_row Scenario.production Scenario.signed_delivery Scenario.confirmed_db
            WebhookStatus.FAILED (Some "Signature verification failed")]
         (bump Scenario.confirmed_db)).
Proof.
  split; [vm_compute; reflexivity |].
  split; [vm_compute; reflexivity |].
  split; [by apply verifySignature_outside_development |].
  vm_compute; reflexivity.
Qed.

(** Under the unique index the row found for a pair is its only row. *)
Lemma rows_of_found provider providerEventId db existing :
  inbox_unique db →
  List.find (webhookInbox_.matches provider providerEventId) (webhookInbox db)
  = Some existing →
  rows_of provider providerEventId db = [existing].
Proof.
  unfold inbox_unique, rows_of. induction (webhookInbox db) as [| x rows IH]; [done |].
  cbn [map List.find List.filter]. intros Hunique. apply NoDup_cons in Hunique as [Hx Hrest].
  destruct (webhookInbox_.matches provider providerEventId x) eqn:Hm.
  - intros [= <-]. f_equal.
    assert (Hnone : ∀ l : list WebhookInbox.t,
              (WebhookInbox.provider x, WebhookInbox.providerEventId x)
              ∉ map (λ w, (WebhookInbox.provider w, WebhookInbox.providerEventId w)) l →
              List.filter (webhookInbox_.matches provider providerEventId) l = []).
    { induction l as [| y l IHl]; [done |]. cbn [map List.filter]. intros Hy.
      apply not_elem_of_cons in Hy as [Hne Hl].
      destruct (webhookInbox_.matches provider providerEventId y) eqn:Hmy; [| by apply IHl].
      unfold webhookInbox_.matches in Hm, Hmy.
      apply andb_prop in Hm as [H1 H2]. apply andb_prop in Hmy as [H3 H4].
      apply bool_decide_eq_true_1 in H1, H2, H3, H4. congruence. }
    by apply Hnone.
  - intros Hfind. by apply IH.
Qed.

Lemma filter_map_same {A} (f : A → bool) (g : A → A) (l : list A) :
  (∀ x, f (g x) = f x) → List.filter f (map g l) = map g (List.filter f l).
Proof.
  intros Hg. induction l as [| x l IH]; [done |]. cbn. rewrite Hg.
  destruct (f x); cbn; by rewrite IH.
Qed.

(** C8, as amended. A delivery whose (provider, providerEventId) is already
    in the inbox returns DUPLICATE with isDuplicate set, for any runtime,
    headers and body. The database it leaves is [mark_duplicate]: no row is
    added, the stored row carries status DUPLICATE, the number of rows of
    the pair is what it was, and ledger, balances and intents are
    untouched. Under the unique index of the inbox the pair has exactly one
    row afterwards, the stored one, and its status is DUPLICATE: no row of
    the pair with another status is left. *)
Theorem processWebhook_duplicate (rt : Runtime) (payload : WebhookPayload.t) (db : DB)
        (existing : WebhookInbox.t) :
  List.find (webhookInbox_.matches (WebhookPayload.provider payload)
               (WebhookPayload.providerEventId payload)) (webhookInbox db)
  = Some existing →
  let db' := mark_duplicate existing db in
  processWebhook rt payload db
  = Returned (WebhookResult.mk (WebhookInbox.id existing) WebhookStatus.DUPLICATE true
                "Webhook already processed") db' ∧
  length (webhookInbox db') = length (webhookInbox db) ∧
  nextId db' = nextId db ∧
  List.find (webhookInbox_.matches (WebhookPayload.provider payload)
               (WebhookPayload.providerEventId payload)) (webhookInbox db')
  = Some (WebhookInbox.with_status WebhookStatus.DUPLICATE existing) ∧
  length (List.filter (webhookInbox_.matches (WebhookPayload.provider payload)
                         (WebhookPayload.providerEventId payload)) (webhookInbox db'))
  = length (List.filter (webhookInbox_.matches (WebhookPayload.provider payload)
                           (WebhookPayload.providerEventId payload)) (webhookInbox db)) ∧
  ledgerEntry db' = ledgerEntry db ∧
  walletBalanceCache db' = walletBalanceCache db ∧
  paymentIntent db' = paymentIntent db ∧
  (inbox_unique db →
   inbox_unique db' ∧
   rows_of (WebhookPayload.provider payload) (WebhookPayload.providerEventId payload) db'
   = [WebhookInbox.with_status WebhookStatus.DUPLICATE existing] ∧
   non_duplicates (WebhookPayload.provider payload)
     (WebhookPayload.providerEventId payload) db' = []).
Proof.
  intros Hfind db'. split; [by apply processWebhook_found |].
  assert (Hrows : inbox_unique db →
            inbox_unique db' ∧
            rows_of (WebhookPayload.provider payload)
              (WebhookPayload.providerEventId payload) db'
            = [WebhookInbox.with_status WebhookStatus.DUPLICATE existing]).
  { intros Hunique.
    pose proof (rows_of_found _ _ db existing Hunique Hfind) as Hone.
    subst db'. unfold mark_duplicate.
    destruct (bool_decide (WebhookInbox.status existing = WebhookStatus.DUPLICATE))
      eqn:Hdup.
    - apply bool_decide_eq_true_1 in Hdup. split; [done |].
      by rewrite Hone, <- Hdup, with_status_same.
    - unfold inbox_unique, rows_of in *. db_simpl. split.
      + rewrite map_map. cbn beta.
        assert (Hsame :
          map (λ w, (WebhookInbox.provider
                       (if bool_decide (WebhookInbox.id w = WebhookInbox.id existing)
                        then WebhookInbox.with_status WebhookStatus.DUPLICATE w else w),
                     WebhookInbox.providerEventId
                       (if bool_decide (WebhookInbox.id w = WebhookInbox.id existing)
                        then WebhookInbox.with_status WebhookStatus.DUPLICATE w else w)))
              (webhookInbox db)
          = map (λ w, (WebhookInbox.provider w, WebhookInbox.providerEventId w))
                (webhookInbox db)).
        { apply map_ext. intros x.
          by destruct (bool_decide (WebhookInbox.id x = WebhookInbox.id existing)). }
        rewrite Hsame. exact Hunique.
      + rewrite filter_map_same by (intros x; apply matches_mark).
        rewrite Hone. cbn. by rewrite bool_decide_eq_true_2. }
  assert (Hlast : inbox_unique db →
            inbox_unique db' ∧
            rows_of (WebhookPayload.provider payload)
              (WebhookPayload.providerEventId payload) db'
            = [WebhookInbox.with_status WebhookStatus.DUPLICATE existing] ∧
            non_duplicates (WebhookPayload.provider payload)
              (WebhookPayload.providerEventId payload) db' = []).
  { intros Hunique. destruct (Hrows Hunique) as [Hkept Hone].
    split; [exact Hkept |]. split; [exact Hone |].
    unfold non_duplicates. rewrite Hone. cbn. by rewrite bool_decide_eq_true_2. }
  clear Hrows. revert Hlast. subst db'. unfold mark_duplicate.
  destruct (bool_decide (WebhookInbox.status existing = WebhookStatus.DUPLICATE)) eqn:Hdup.
  - apply bool_decide_eq_true_1 in Hdup. intros Hlast.
    repeat split; try done; try (by apply Hlast).
    rewrite Hfind, <- Hdup. by rewrite with_status_same.
  - db_simpl. intros Hlast. repeat split; try done; try (by apply Hlast).
    + by rewrite length_map.
    + rewrite find_map_status by (intros x; apply matches_mark).
      rewrite Hfind. cbn. by rewrite bool_decide_eq_true_2.
    + apply filter_map_status. intros x. apply matches_mark.
Qed.

(** The delivery of [Scenario.delivered_db] again, this time in production:
    one row before, one row after, now marked DUPLICATE. *)
Lemma processWebhook_duplicate_witness :
  List.find (webhookInbox_.matches PaymentProvider.flutterwave "flw_abc")
            (webhookInbox Scenario.delivered_db)
  = Some (inbox_row Scenario.development_rt Scenario.signed_delivery
            Scenario.confirmed_db WebhookStatus.PROCESSED None) ∧
  inbox_unique Scenario.delivered_db ∧
  processWebhook Scenario.production Scenario.signed_delivery Scenario.delivered_db
  = Returned (WebhookResult.mk "c2" WebhookStatus.DUPLICATE true
                "Webhook already processed")
      (mark_duplicate
         (inbox_row Scenario.development_rt Scenario.signed_delivery
            Scenario.confirmed_db WebhookStatus.PROCESSED None)
         Scenario.delivered_db) ∧
  rows_of PaymentProvider.flutterwave "flw_abc"
    (mark_duplicate
       (inbox_row Scenario.development_rt Scenario.signed_delivery
          Scenario.confirmed_db WebhookStatus.PROCESSED None)
       Scenario.delivered_db)
  = [inbox_row Scenario.development_rt Scenario.signed_delivery
       Scenario.confirmed_db WebhookStatus.DUPLICATE None].
Proof.
  assert (Hfind :
    List.find (webhookInbox_.matches PaymentProvider.flutterwave "flw_abc")
              (webhookInbox Scenario.delivered_db)
    = Some (inbox_row Scenario.development_rt Scenario.signed_delivery
              Scenario.confirmed_db WebhookStatus.PROCESSED None))
    by (vm_compute; reflexivity).
  assert (Hunique : inbox_unique Scenario.delivered_db)
    by (vm_compute; apply NoDup_singleton).
  split; [exact Hfind |]. split; [exact Hunique |].
  destruct (processWebhook_duplicate Scenario.production Scenario.signed_delivery
              Scenario.delivered_db
              (inbox_row Scenario.development_rt Scenario.signed_delivery
                 Scenario.confirmed_db WebhookStatus.PROCESSED None) Hfind)
    as (Hrun & _ & _ & _ & _ & _ & _ & _ & Hrows).
  split; [exact Hrun |].
  destruct (Hrows Hunique) as (_ & Hone & _). exact Hone.
Defined.

(** C8 as stated fails in its last clause. After the repeated delivery the
    one row of the pair carries status DUPLICATE, so the pair has no inbox
    entry that is not a duplicate, where the claim has exactly one. *)
Lemma processWebhook_duplicate_counterexample :
  let db' :=
    final_db (processWebhook Scenario.production Scenario.signed_delivery
                Scenario.delivered_db) in
  map WebhookInbox.status
      (rows_of PaymentProvider.flutterwave "flw_abc" Scenario.delivered_db)
  = [WebhookStatus.PROCESSED] ∧
  map WebhookInbox.status (rows_of PaymentProvider.flutterwave "flw_abc" db')
  = [WebhookStatus.DUPLICATE] ∧
  length (non_duplicates PaymentProvider.flutterwave "flw_abc" db') ≠ 1%nat.
Proof.
  split; [vm_compute; reflexivity |]. split; [vm_compute; reflexivity |].
  vm_compute. discriminate.
Qed.

(** A delivery that passes verification ends PROCESSED whether or not it
    carries a reference, and the run writes to the inbox only. *)
Lemma processWebhook_verified (rt : Runtime) (payload : WebhookPayload.t) (db : DB) :
  List.find (webhookInbox_.matches (WebhookPayload.provider payload)
               (WebhookPayload.providerEventId payload)) (webhookInbox db) = None →
  Forall (λ x, WebhookInbox.id x ≠ cuid (nextId db)) (webhookInbox db) →
  verifySignature rt (WebhookPayload.provider payload)
    (WebhookPayload.rawBody payload) (WebhookPayload.headers payload) = true →
  ∃ db',
    processWebhook rt payload db
    = Returned (WebhookResult.mk (cuid (nextId db)) WebhookStatus.PROCESSED false
                  "Webhook processed successfully") db' ∧
    webhookInbox db'
    = webhookInbox db ++ [inbox_row rt payload db WebhookStatus.PROCESSED None] ∧
    ledgerEntry db' = ledgerEntry db ∧
    walletBalanceCache db' = walletBalanceCache db ∧
    paymentIntent db' = paymentIntent db.
Proof.
  intros Hnone Hfresh Hvalid.
  rewrite (processWebhook_first rt payload db Hnone Hfresh), Hvalid.
  eexists. split; [reflexivity |]. by db_simpl.
Qed.

(** C9, at two verified deliveries. Without a reference the entry still ends
    PROCESSED, not VERIFIED. With the reference of a CONFIRMING intent the
    entry ends PROCESSED although no settlement ran: the intent is still
    CONFIRMING and the ledger is empty. *)
Theorem processWebhook_settlement_not_triggered :
  verifySignature Scenario.development_rt PaymentProvider.flutterwave
    (WebhookPayload.rawBody Scenario.unreferenced_delivery)
    (WebhookPayload.headers Scenario.unreferenced_delivery) = true ∧
  WebhookPayload.reference Scenario.unreferenced_delivery = None ∧
  processWebhook Scenario.development_rt Scenario.unreferenced_delivery
    Scenario.confirmed_db
  = Returned (WebhookResult.mk "c2" WebhookStatus.PROCESSED false
                "Webhook processed successfully")
      (webhookInbox_.set_rows
         [inbox_row Scenario.development_rt Scenario.unreferenced_delivery
            Scenario.confirmed_db WebhookStatus.PROCESSED None]
         (bump Scenario.confirmed_db)) ∧
  WebhookPayload.reference Scenario.signed_delivery = Some "PAYMENT_O1" ∧
  map WebhookInbox.status (webhookInbox Scenario.delivered_db)
  = [WebhookStatus.PROCESSED] ∧
  (PaymentIntent.status <$>
   List.find (λ i, bool_decide (PaymentIntent.reference i = "PAYMENT_O1"))
             (paymentIntent Scenario.delivered_db))
  = Some PaymentIntentStatus.CONFIRMING ∧
  ledgerEntry Scenario.delivered_db = [].
Proof.
  evaluate.
Qed.

(** ** The payment intent service *)

(** C10. With an intent already stored under PAYMENT_{orderId}, create still
    validates first: originalAmount < amount throws INVALID_AMOUNTS, else
    amount ≤ 0 throws INVALID_AMOUNT, else a positive discount without a
    code throws DISCOUNT_CODE_REQUIRED, each leaving the database as it
    was; the stored intent is returned exactly when the input passes all
    three checks. *)
Theorem create_validates_before_lookup (dto : CreatePaymentIntentDto.t) (db : DB)
        (a o : Prisma.Decimal) (stored_intent : PaymentIntent.t) :
  Prisma.ofString (CreatePaymentIntentDto.amount dto) = Some a →
  Prisma.ofString (CreatePaymentIntentDto.originalAmount dto) = Some o →
  List.find (λ i, bool_decide (PaymentIntent.reference i
                               = generatePaymentReference (CreatePaymentIntentDto.orderId dto)))
            (paymentIntent db) = Some stored_intent →
  (o < a →
   create dto db
   = Thrown (BadRequestException "INVALID_AMOUNTS"
               "originalAmount must be greater than or equal to amount") db) ∧
  (a <= o → a <= 0 →
   create dto db
   = Thrown (BadRequestException "INVALID_AMOUNT" "amount must be greater than zero") db) ∧
  (0 < a → a < o → truthy (CreatePaymentIntentDto.discountCode dto) = false →
   create dto db
   = Thrown (BadRequestException "DISCOUNT_CODE_REQUIRED"
               "discountCode is required when discountAmount > 0") db) ∧
  (create dto db = Returned stored_intent db ↔
   0 < a ∧ a <= o ∧ (a < o → truthy (CreatePaymentIntentDto.discountCode dto) = true)).
Proof.
  intros Ha Ho Hstored.
  assert (Hrun : create dto db =
    if o <? a then
      Thrown (BadRequestException "INVALID_AMOUNTS"
                "originalAmount must be greater than or equal to amount") db
    else if a <=? 0 then
      Thrown (BadRequestException "INVALID_AMOUNT" "amount must be greater than zero") db
    else if (0 <? o - a) && negb (truthy (CreatePaymentIntentDto.discountCode dto)) then
      Thrown (BadRequestException "DISCOUNT_CODE_REQUIRED"
                "discountCode is required when discountAmount > 0") db
    else Returned stored_intent db).
  { unfold create, new_Decimal, validateInvariants, paymentIntent_.findUnique_reference.
    rewrite Ha, Ho.
    unfold Prisma.lessThan, Prisma.lessThanOrEqualTo, Prisma.greaterThan, Prisma.sub.
    tx_unfold. cbn beta iota.
    destruct (o <? a) eqn:E1; [done |].
    destruct (a <=? 0) eqn:E2; [done |].
    destruct ((0 <? o - a) && negb (truthy (CreatePaymentIntentDto.discountCode dto)));
      [done |].
    destruct (o - a <? 0) eqn:E4; [lia |].
    by rewrite Hstored. }
  rewrite Hrun. clear Hrun.
  split; [| split; [| split; [| split]]].
  - intros Hlt. destruct (o <? a) eqn:E; [done | lia].
  - intros Hle Hz. destruct (o <? a) eqn:E1; [lia |].
    destruct (a <=? 0) eqn:E2; [done | lia].
  - intros Hpos Hdisc Hcode. destruct (o <? a) eqn:E1; [lia |].
    destruct (a <=? 0) eqn:E2; [lia |].
    destruct (0 <? o - a) eqn:E3; [| lia]. by rewrite Hcode.
  - destruct (o <? a) eqn:E1; [done |].
    destruct (a <=? 0) eqn:E2; [done |].
    destruct (0 <? o - a) eqn:E3;
      destruct (truthy (CreatePaymentIntentDto.discountCode dto)) eqn:E4;
      cbn; intros; try done; repeat split; try lia; done.
  - intros (Hpos & Hle & Hcode).
    destruct (o <? a) eqn:E1; [lia |].
    destruct (a <=? 0) eqn:E2; [lia |].
    destruct (0 <? o - a) eqn:E3; [| done].
    rewrite Hcode by lia. done.
Qed.

(** Order O1 has its intent stored; submitting it again with amount 0.0000
    is refused with INVALID_AMOUNT, and submitting it as it was returns the
    stored intent. *)
Lemma create_validates_before_lookup_witness :
  Prisma.ofString (CreatePaymentIntentDto.amount Scenario.order_again_zero) = Some 0 ∧
  Prisma.ofString (CreatePaymentIntentDto.originalAmount Scenario.order_again_zero)
  = Some 0 ∧
  is_Some (List.find (λ i, bool_decide (PaymentIntent.reference i = "PAYMENT_O1"))
                     (paymentIntent Scenario.settled_db)) ∧
  create Scenario.order_again_zero Scenario.settled_db
  = Thrown (BadRequestException "INVALID_AMOUNT" "amount must be greater than zero")
      Scenario.settled_db.
Proof.
  split; [reflexivity |]. split; [reflexivity |].
  split; [vm_compute; eauto |].
  destruct (List.find (λ i, bool_decide (PaymentIntent.reference i = "PAYMENT_O1"))
                      (paymentIntent Scenario.settled_db)) as [stored_intent |] eqn:Hfind;
    [| vm_compute in Hfind; discriminate].
  destruct (create_validates_before_lookup Scenario.order_again_zero Scenario.settled_db
              0 0 stored_intent eq_refl eq_refl Hfind) as (_ & Hzero & _).
  apply Hzero; lia.
Defined.

(** ** The settlement service *)

Section Settlement.

Implicit Types (db : DB) (intent : PaymentIntent.t) (id : string).

Lemma update_status_found id (status : PaymentIntentStatus.t) db intent :
  intent_of id db = Some intent →
  paymentIntent_.update_status id status db = Returned tt (set_status id status db).
Proof.
  intros Hfound. unfold paymentIntent_.update_status, paymentIntent_.findUnique_id.
  tx_unfold. unfold intent_of in Hfound. by rewrite Hfound.
Qed.

Lemma intent_of_set_status id (status : PaymentIntentStatus.t) db intent :
  intent_of id db = Some intent →
  intent_of id (set_status id status db) = Some (PaymentIntent.with_status status intent).
Proof.
  unfold intent_of, set_status. db_simpl.
  induction (paymentIntent db) as [| x rows IH]; cbn; [done |].
  destruct (bool_decide (PaymentIntent.id x = id)) eqn:E.
  - intros [= ->]. cbn. by rewrite E.
  - rewrite E. exact IH.
Qed.

(** The callback on a CONFIRMING intent, leg by leg. *)
Lemma settle_callback_confirming id db intent :
  intent_of id db = Some intent →
  PaymentIntent.status intent = PaymentIntentStatus.CONFIRMING →
  settle_callback id db =
    match appendEntry (primary_params intent) db with
    | Thrown e db1 => Thrown e db1
    | Returned r1 db1 =>
        if 0 <? PaymentIntent.discountAmount intent then
          match appendEntry (marketing_params intent) db1 with
          | Thrown e db2 => Thrown e db2
          | Returned r2 db2 =>
              match appendEntry (subsidy_params intent) db2 with
              | Thrown e db3 => Thrown e db3
              | Returned r3 db3 =>
                  match paymentIntent_.update_status id PaymentIntentStatus.SETTLED db3 with
                  | Thrown e db4 => Thrown e db4
                  | Returned _ db4 =>
                      Returned (SettlementResult.mk true id (PaymentIntent.reference intent)
                                  [r1; r2; r3] "Payment settled successfully") db4
                  end
              end
          end
        else
          match paymentIntent_.update_status id PaymentIntentStatus.SETTLED db1 with
          | Thrown e db4 => Thrown e db4
          | Returned _ db4 =>
              Returned (SettlementResult.mk true id (PaymentIntent.reference intent)
                          [r1] "Payment settled successfully") db4
          end
    end.
Proof.
  intros Hfound Hstatus. unfold settle_callback, paymentIntent_.findUnique_id.
  unfold intent_of in Hfound. unfold bind at 1, read. rewrite Hfound, Hstatus.
  cbn [bool_decide decide_rel negb]. unfold Prisma.greaterThan.
  change (bool_decide (PaymentIntentStatus.CONFIRMING = PaymentIntentStatus.SETTLED))
    with false.
  change (bool_decide (PaymentIntentStatus.CONFIRMING = PaymentIntentStatus.CONFIRMING))
    with true.
  cbn [negb]. unfold bind, ret.
  destruct (appendEntry (primary_params intent) db) as [r1 db1 | e db1]; [| done].
  destruct (0 <? PaymentIntent.discountAmount intent); [| done].
  destruct (appendEntry (marketing_params intent) db1) as [r2 db2 | e db2]; [| done].
  destruct (appendEntry (subsidy_params intent) db2) as [r3 db3 | e db3]; done.
Qed.

(** A settled intent: the entries returned are those whose reference
    matches the reference of the intent taken as the prefix of a LIKE
    pattern, and nothing is written. *)
Lemma settlePayment_settled id db intent :
  intent_of id db = Some intent →
  PaymentIntent.status intent = PaymentIntentStatus.SETTLED →
  settlePayment id db
  = Returned
      (SettlementResult.mk true id (PaymentIntent.reference intent)
         (map AppendEntryResult.of_entry
            (List.filter
               (λ e, Sql.like_prefix (PaymentIntent.reference intent)
                       (LedgerEntry.reference e))
               (ledgerEntry db)))
         "Payment already settled")
      db.
Proof.
  intros Hfound Hstatus.
  unfold settlePayment, transaction, settle_callback, paymentIntent_.findUnique_id,
    ledgerEntry_.findMany_startsWith.
  unfold intent_of in Hfound. tx_unfold. rewrite Hfound, Hstatus. done.
Qed.

(** Rollback: a settlement that throws leaves the database as it found it. *)
Lemma settlePayment_thrown id db (e : Exception) (db' : DB) :
  settlePayment id db = Thrown e db' → db' = db.
Proof.
  unfold settlePayment, transaction.
  destruct (settle_callback id db); [discriminate |]. by intros [= _ <-].
Qed.

Lemma stored_after_append (a r : string) (acct : string) (row : WalletBalanceCache.t)
      (e : LedgerEntry.t) db :
  stored a r db = None →
  ledgerEntry_.matches a r e = false →
  stored a r (walletBalanceCache_.put acct row (ledgerEntry_.insert e (bump db))) = None.
Proof.
  unfold stored. db_simpl. intros Hnone He. rewrite find_snoc by done. by rewrite He.
Qed.

Lemma amount_of_decimal (x : Prisma.Decimal) :
  Prisma.ofString (amount_text (inr x)) = Some x.
Proof. apply ofString_toString. Qed.

(** A leg appended under a new reference, as [appendEntry_returned] gives
    it, with the amount read back from its text. *)
Lemma leg_appended (p : AppendEntryParams.t) (x : Prisma.Decimal) db
      (r : AppendEntryResult.t) (db1 : DB) :
  AppendEntryParams.amount p = inr x →
  stored (AppendEntryParams.accountId p) (AppendEntryParams.reference p) db = None →
  appendEntry p db = Returned r db1 →
  r = AppendEntryResult.of_entry (next_entry p x db) ∧
  ∃ row,
    db1 = walletBalanceCache_.put (AppendEntryParams.accountId p) row
            (ledgerEntry_.insert (next_entry p x db) (bump db)) ∧
    WalletBalanceCache.balance row
    = default 0 (WalletBalanceCache.balance <$>
                 walletBalanceCache db !! AppendEntryParams.accountId p)
      + match AppendEntryParams.entryType p with CREDIT => x | DEBIT => - x end.
Proof.
  intros Hamount Hnew Hret.
  destruct (appendEntry_returned p db r db1 Hret) as (d & Hd & Hcase).
  rewrite Hamount, amount_of_decimal in Hd. injection Hd as <-.
  destruct Hcase as [(existing & Hst & _) | (_ & Hr & row & Hdb & Hbal)].
  - rewrite Hnew in Hst. discriminate.
  - split; [done |]. exists row. done.
Qed.

Lemma escrow_is_not_marketing : PLATFORM_ESCROW ≠ MARKETING_WALLET.
Proof. discriminate. Qed.

Section Legs.

Variables (id : string) (db : DB) (intent : PaymentIntent.t).

Let R := PaymentIntent.reference intent.
Let amount := PaymentIntent.amount intent.
Let discount := PaymentIntent.discountAmount intent.

Hypothesis Hfound : intent_of id db = Some intent.
Hypothesis Hstatus : PaymentIntent.status intent = PaymentIntentStatus.CONFIRMING.
Hypothesis Hprimary : stored PLATFORM_ESCROW R db = None.

Lemma intent_kept (acct : string) (row : WalletBalanceCache.t) (e : LedgerEntry.t)
      (db0 : DB) :
  intent_of id (walletBalanceCache_.put acct row (ledgerEntry_.insert e (bump db0)))
  = intent_of id db0.
Proof. done. Qed.

Lemma settled_one (res : SettlementResult.t) (db' : DB) :
  discount <= 0 →
  settlePayment id db = Returned res db' →
  intent_of id db' = Some (PaymentIntent.with_status PaymentIntentStatus.SETTLED intent) ∧
  ∃ e1,
    SettlementResult.ledgerEntries res = [AppendEntryResult.of_entry e1] ∧
    ledgerEntry db' = ledgerEntry db ++ [e1] ∧
    leg e1 PLATFORM_ESCROW R CREDIT amount.
Proof.
  intros Hzero Hret. unfold settlePayment, transaction in Hret.
  rewrite (settle_callback_confirming id db intent Hfound Hstatus) in Hret.
  destruct (appendEntry (primary_params intent) db) as [r1 db1 | e db1] eqn:H1;
    [| discriminate].
  destruct (leg_appended (primary_params intent) amount db r1 db1 eq_refl Hprimary H1)
    as (-> & row1 & -> & _).
  fold discount in Hret. destruct (0 <? discount) eqn:E; [lia |].
  rewrite (update_status_found id _ _ intent) in Hret by (by rewrite intent_kept).
  injection Hret as <- <-.
  split; [apply intent_of_set_status; by rewrite intent_kept |].
  eexists. split; [reflexivity |]. split; [reflexivity |]. done.
Qed.

Hypothesis Hmarketing : stored MARKETING_WALLET (R +:+ "_DISC") db = None.
Hypothesis Hsubsidy : stored PLATFORM_ESCROW ((R +:+ "_DISC") +:+ "_ESCROW") db = None.

Lemma settled_three (res : SettlementResult.t) (db' : DB) :
  0 < discount →
  settlePayment id db = Returned res db' →
  intent_of id db' = Some (PaymentIntent.with_status PaymentIntentStatus.SETTLED intent) ∧
  ∃ e1 e2 e3,
    SettlementResult.ledgerEntries res
    = [AppendEntryResult.of_entry e1; AppendEntryResult.of_entry e2;
       AppendEntryResult.of_entry e3] ∧
    ledgerEntry db' = ledgerEntry db ++ [e1; e2; e3] ∧
    leg e1 PLATFORM_ESCROW R CREDIT amount ∧
    leg e2 MARKETING_WALLET (R +:+ "_DISC") DEBIT discount ∧
    leg e3 PLATFORM_ESCROW ((R +:+ "_DISC") +:+ "_ESCROW") CREDIT discount ∧
    LedgerEntry.walletSeq e3 = LedgerEntry.walletSeq e1 + 1.
Proof.
  intros Hpos Hret. unfold settlePayment, transaction in Hret.
  rewrite (settle_callback_confirming id db intent Hfound Hstatus) in Hret.
  destruct (appendEntry (primary_params intent) db) as [r1 db1 | e db1] eqn:H1;
    [| discriminate].
  destruct (leg_appended (primary_params intent) amount db r1 db1 eq_refl Hprimary H1)
    as (-> & row1 & -> & _).
  set (e1 := next_entry (primary_params intent) amount db) in *.
  set (db1 := walletBalanceCache_.put _ row1 _) in *.
  fold discount in Hret. destruct (0 <? discount) eqn:E; [| lia].
  assert (Hm1 : stored MARKETING_WALLET (R +:+ "_DISC") db1 = None).
  { apply stored_after_append; [done |]. unfold ledgerEntry_.matches.
    change (LedgerEntry.accountId e1) with PLATFORM_ESCROW.
    by rewrite (bool_decide_eq_false_2 _ escrow_is_not_marketing). }
  destruct (appendEntry (marketing_params intent) db1) as [r2 db2 | e db2] eqn:H2;
    [| discriminate].
  destruct (leg_appended (marketing_params intent) discount db1 r2 db2 eq_refl Hm1 H2)
    as (-> & row2 & -> & _).
  set (e2 := next_entry (marketing_params intent) discount db1) in *.
  set (db2 := walletBalanceCache_.put _ row2 _) in *.
  assert (Hs2 : stored PLATFORM_ESCROW ((R +:+ "_DISC") +:+ "_ESCROW") db2 = None).
  { apply stored_after_append.
    - apply stored_after_append; [done |]. unfold ledgerEntry_.matches.
      change (LedgerEntry.reference e1) with R.
      rewrite (bool_decide_eq_false_2 (R = _)); [by rewrite andb_false_r |].
      intros Heq. symmetry in Heq. revert Heq. apply append_neq. cbn. lia.
    - unfold ledgerEntry_.matches.
      change (LedgerEntry.accountId e2) with MARKETING_WALLET.
      rewrite (bool_decide_eq_false_2 (MARKETING_WALLET = PLATFORM_ESCROW)); [done |].
      discriminate. }
  destruct (appendEntry (subsidy_params intent) db2) as [r3 db3 | e db3] eqn:H3;
    [| discriminate].
  destruct (leg_appended (subsidy_params intent) discount db2 r3 db3 eq_refl Hs2 H3)
    as (-> & row3 & -> & _).
  set (e3 := next_entry (subsidy_params intent) discount db2) in *.
  rewrite (update_status_found id _ _ intent) in Hret by (by rewrite !intent_kept).
  injection Hret as <- <-.
  split; [apply intent_of_set_status; by rewrite !intent_kept |].
  exists e1, e2, e3. split; [reflexivity |].
  split; [unfold set_status; subst db2 db1; db_simpl; by rewrite <- !app_assoc |].
  do 3 (split; [done |]).
  subst e3. unfold next_entry at 1. cbn [LedgerEntry.walletSeq].
  change (AppendEntryParams.accountId (subsidy_params intent)) with PLATFORM_ESCROW.
  subst db2 db1. db_simpl.
  rewrite last_of_snoc.
  change (LedgerEntry.accountId e2) with MARKETING_WALLET.
  rewrite (bool_decide_eq_false_2 (MARKETING_WALLET = PLATFORM_ESCROW)) by discriminate.
  pose proof (last_of_next (primary_params intent) amount db) as Hlast.
  change (AppendEntryParams.accountId (primary_params intent))
    with PLATFORM_ESCROW in Hlast.
  fold e1 in Hlast. rewrite Hlast. done.
Qed.

End Legs.

(** A new leg goes through when the cached balance covers it. *)
Lemma appendEntry_succeeds (p : AppendEntryParams.t) (x : Prisma.Decimal) db :
  AppendEntryParams.amount p = inr x →
  stored (AppendEntryParams.accountId p) (AppendEntryParams.reference p) db = None →
  match walletBalanceCache db !! AppendEntryParams.accountId p with
  | Some c =>
      0 <= WalletBalanceCache.balance c +
           match AppendEntryParams.entryType p with CREDIT => x | DEBIT => - x end
  | None => AppendEntryParams.entryType p = CREDIT
  end →
  ∃ row,
    appendEntry p db
    = Returned (AppendEntryResult.of_entry (next_entry p x db))
        (walletBalanceCache_.put (AppendEntryParams.accountId p) row
           (ledgerEntry_.insert (next_entry p x db) (bump db))) ∧
    WalletBalanceCache.balance row
    = default 0 (WalletBalanceCache.balance <$>
                 walletBalanceCache db !! AppendEntryParams.accountId p)
      + match AppendEntryParams.entryType p with CREDIT => x | DEBIT => - x end.
Proof.
  intros Hamount Hnew Hfunds.
  assert (Hd : Prisma.ofString (amount_text (AppendEntryParams.amount p)) = Some x)
    by (rewrite Hamount; apply amount_of_decimal).
  rewrite (appendEntry_fresh p db x Hd Hnew). cbv zeta.
  destruct (walletBalanceCache db !! AppendEntryParams.accountId p) as [c |].
  - destruct (_ <? 0) eqn:E; [lia |]. eexists. split; [reflexivity | done].
  - rewrite Hfunds. eexists. split; [reflexivity |]. cbn. lia.
Qed.

Lemma settlePayment_returns id db intent :
  intent_of id db = Some intent →
  PaymentIntent.status intent = PaymentIntentStatus.CONFIRMING →
  stored PLATFORM_ESCROW (PaymentIntent.reference intent) db = None →
  (0 < PaymentIntent.discountAmount intent →
   stored MARKETING_WALLET (PaymentIntent.reference intent +:+ "_DISC") db = None ∧
   stored PLATFORM_ESCROW ((PaymentIntent.reference intent +:+ "_DISC") +:+ "_ESCROW") db
   = None) →
  0 <= default 0 (WalletBalanceCache.balance <$> walletBalanceCache db !! PLATFORM_ESCROW)
       + PaymentIntent.amount intent →
  (0 < PaymentIntent.discountAmount intent →
   ∃ c, walletBalanceCache db !! MARKETING_WALLET = Some c ∧
        PaymentIntent.discountAmount intent <= WalletBalanceCache.balance c) →
  ∃ res db', settlePayment id db = Returned res db'.
Proof.
  intros Hfound Hstatus Hprimary Hnew Hescrow Hfunds.
  unfold settlePayment, transaction.
  rewrite (settle_callback_confirming id db intent Hfound Hstatus).
  destruct (appendEntry_succeeds (primary_params intent) (PaymentIntent.amount intent) db
              eq_refl Hprimary) as (row1 & -> & Hrow1).
  { change (AppendEntryParams.accountId (primary_params intent)) with PLATFORM_ESCROW.
    destruct (walletBalanceCache db !! PLATFORM_ESCROW); [exact Hescrow | done]. }
  change (AppendEntryParams.accountId (primary_params intent))
    with PLATFORM_ESCROW in Hrow1 |- *.
  change (AppendEntryParams.entryType (primary_params intent)) with CREDIT in Hrow1.
  set (e1 := next_entry (primary_params intent) (PaymentIntent.amount intent) db).
  set (db1 := walletBalanceCache_.put PLATFORM_ESCROW row1 _).
  destruct (0 <? PaymentIntent.discountAmount intent) eqn:E.
  - apply Z.ltb_lt in E. destruct (Hnew E) as [Hm Hs].
    destruct (Hfunds E) as (c & Hc & Hle).
    destruct (appendEntry_succeeds (marketing_params intent)
                (PaymentIntent.discountAmount intent) db1 eq_refl)
      as (row2 & -> & _).
    { apply stored_after_append; [done |]. unfold ledgerEntry_.matches.
      change (LedgerEntry.accountId e1) with PLATFORM_ESCROW.
      by rewrite (bool_decide_eq_false_2 _ escrow_is_not_marketing). }
    { change (AppendEntryParams.accountId (marketing_params intent)) with MARKETING_WALLET.
      subst db1. db_simpl.
      rewrite lookup_insert_ne by apply escrow_is_not_marketing.
      rewrite Hc. cbn. lia. }
    set (e2 := next_entry (marketing_params intent) _ db1).
    set (db2 := walletBalanceCache_.put _ row2 _).
    destruct (appendEntry_succeeds (subsidy_params intent)
                (PaymentIntent.discountAmount intent) db2 eq_refl)
      as (row3 & -> & _).
    { apply stored_after_append.
      - apply stored_after_append; [done |]. unfold ledgerEntry_.matches.
        change (LedgerEntry.reference e1) with (PaymentIntent.reference intent).
        rewrite (bool_decide_eq_false_2 (PaymentIntent.reference intent = _));
          [by rewrite andb_false_r |].
        intros Heq. symmetry in Heq. revert Heq. apply append_neq. cbn. lia.
      - unfold ledgerEntry_.matches.
        change (LedgerEntry.accountId e2) with MARKETING_WALLET.
        rewrite (bool_decide_eq_false_2 (MARKETING_WALLET = PLATFORM_ESCROW)); [done |].
        discriminate. }
    { change (AppendEntryParams.accountId (subsidy_params intent)) with PLATFORM_ESCROW.
      change (AppendEntryParams.accountId (marketing_params intent)) with MARKETING_WALLET.
      subst db2 db1. db_simpl.
      rewrite lookup_insert_ne by discriminate.
      rewrite lookup_insert_eq. cbn. lia. }
    rewrite (update_status_found id _ _ intent) by done. eauto.
  - rewrite (update_status_found id _ _ intent) by done. eauto.
Qed.

(** The marketing debit is refused when the discount exceeds the cached
    balance, and the exception of the refusal is the one that leaves the
    transaction. *)
Lemma settlePayment_marketing_short id db intent (c : WalletBalanceCache.t) :
  intent_of id db = Some intent →
  PaymentIntent.status intent = PaymentIntentStatus.CONFIRMING →
  0 < PaymentIntent.discountAmount intent →
  walletBalanceCache db !! MARKETING_WALLET = Some c →
  WalletBalanceCache.balance c < PaymentIntent.discountAmount intent →
  stored MARKETING_WALLET (PaymentIntent.reference intent +:+ "_DISC") db = None →
  ∃ e,
    settlePayment id db = Thrown e db ∧
    (∀ r1 db1,
       appendEntry (primary_params intent) db = Returned r1 db1 →
       e = INSUFFICIENT_BALANCE MARKETING_WALLET (WalletBalanceCache.balance c)
             (Prisma.toString (PaymentIntent.discountAmount intent))).
Proof.
  intros Hfound Hstatus Hpos Hc Hshort Hm.
  unfold settlePayment, transaction.
  rewrite (settle_callback_confirming id db intent Hfound Hstatus).
  destruct (appendEntry (primary_params intent) db) as [r1 db1 | e db1] eqn:H1.
  2: { exists e. split; [done |]. intros r1' db1' [=]. }
  assert (Hdb1 : stored MARKETING_WALLET (PaymentIntent.reference intent +:+ "_DISC") db1
                 = None ∧
                 walletBalanceCache db1 !! MARKETING_WALLET = Some c).
  { destruct (appendEntry_returned _ _ _ _ H1)
      as (d & _ & [(existing & _ & _ & ->) | (_ & _ & row & -> & _)]); [done |].
    split.
    - apply stored_after_append; [done |]. unfold ledgerEntry_.matches.
      change (LedgerEntry.accountId (next_entry (primary_params intent) d db))
        with PLATFORM_ESCROW.
      by rewrite (bool_decide_eq_false_2 _ escrow_is_not_marketing).
    - db_simpl.
      change (AppendEntryParams.accountId (primary_params intent)) with PLATFORM_ESCROW.
      by rewrite lookup_insert_ne by apply escrow_is_not_marketing. }
  destruct Hdb1 as [Hm1 Hc1].
  destruct (0 <? PaymentIntent.discountAmount intent) eqn:E; [| lia].
  rewrite (appendEntry_fresh (marketing_params intent) db1
             (PaymentIntent.discountAmount intent) (amount_of_decimal _) Hm1).
  cbv zeta.
  change (AppendEntryParams.accountId (marketing_params intent)) with MARKETING_WALLET.
  rewrite Hc1.
  change (AppendEntryParams.entryType (marketing_params intent)) with DEBIT. cbv iota.
  destruct (_ <? 0) eqn:E2; [| lia].
  eexists. split; [reflexivity |]. intros r1' db1' _. done.
Qed.

(** Whichever of the three appends throws, and whatever it throws, the
    settlement throws the same exception and the database is the one it
    started from. *)
Lemma settlePayment_append_throws id db intent :
  intent_of id db = Some intent →
  PaymentIntent.status intent = PaymentIntentStatus.CONFIRMING →
  (∀ e db1,
     appendEntry (primary_params intent) db = Thrown e db1 →
     settlePayment id db = Thrown e db) ∧
  (∀ r1 db1 e db2,
     0 < PaymentIntent.discountAmount intent →
     appendEntry (primary_params intent) db = Returned r1 db1 →
     appendEntry (marketing_params intent) db1 = Thrown e db2 →
     settlePayment id db = Thrown e db) ∧
  (∀ r1 db1 r2 db2 e db3,
     0 < PaymentIntent.discountAmount intent →
     appendEntry (primary_params intent) db = Returned r1 db1 →
     appendEntry (marketing_params intent) db1 = Returned r2 db2 →
     appendEntry (subsidy_params intent) db2 = Thrown e db3 →
     settlePayment id db = Thrown e db).
Proof.
  intros Hfound Hstatus. unfold settlePayment, transaction.
  rewrite (settle_callback_confirming id db intent Hfound Hstatus).
  split; [| split].
  - intros e db1 H1. by rewrite H1.
  - intros r1 db1 e db2 Hpos H1 H2. apply Z.ltb_lt in Hpos. by rewrite H1, Hpos, H2.
  - intros r1 db1 r2 db2 e db3 Hpos H1 H2 H3. apply Z.ltb_lt in Hpos.
    by rewrite H1, Hpos, H2, H3.
Qed.

(** The marketing debit is refused when MARKETING_WALLET has no cache
    row. *)
Lemma settlePayment_marketing_missing id db intent :
  intent_of id db = Some intent →
  PaymentIntent.status intent = PaymentIntentStatus.CONFIRMING →
  0 < PaymentIntent.discountAmount intent →
  walletBalanceCache db !! MARKETING_WALLET = None →
  stored MARKETING_WALLET (PaymentIntent.reference intent +:+ "_DISC") db = None →
  ∃ e,
    settlePayment id db = Thrown e db ∧
    (∀ r1 db1,
       appendEntry (primary_params intent) db = Returned r1 db1 →
       e = DEBIT_ON_NON_EXISTENT_WALLET MARKETING_WALLET).
Proof.
  intros Hfound Hstatus Hpos Hc Hm.
  destruct (settlePayment_append_throws id db intent Hfound Hstatus) as (Hp & Hmk & _).
  destruct (appendEntry (primary_params intent) db) as [r1 db1 | e db1] eqn:H1.
  2: { exists e. split; [by apply (Hp e db1) |]. intros r1' db1' [=]. }
  assert (Hdb1 : stored MARKETING_WALLET (PaymentIntent.reference intent +:+ "_DISC") db1
                 = None ∧
                 walletBalanceCache db1 !! MARKETING_WALLET = None).
  { destruct (appendEntry_returned _ _ _ _ H1)
      as (d & _ & [(existing & _ & _ & ->) | (_ & _ & row & -> & _)]); [done |].
    split.
    - apply stored_after_append; [done |]. unfold ledgerEntry_.matches.
      change (LedgerEntry.accountId (next_entry (primary_params intent) d db))
        with PLATFORM_ESCROW.
      by rewrite (bool_decide_eq_false_2 _ escrow_is_not_marketing).
    - db_simpl.
      change (AppendEntryParams.accountId (primary_params intent)) with PLATFORM_ESCROW.
      by rewrite lookup_insert_ne by apply escrow_is_not_marketing. }
  destruct Hdb1 as [Hm1 Hc1].
  pose proof (appendEntry_fresh (marketing_params intent) db1
                (PaymentIntent.discountAmount intent) (amount_of_decimal _) Hm1) as H2.
  cbv zeta in H2.
  change (AppendEntryParams.accountId (marketing_params intent))
    with MARKETING_WALLET in H2.
  rewrite Hc1 in H2.
  change (AppendEntryParams.entryType (marketing_params intent)) with DEBIT in H2.
  cbv iota in H2.
  eexists. split; [exact (Hmk r1 db1 _ _ Hpos eq_refl H2) |].
  intros r1' db1' _. reflexivity.
Qed.

End Settlement.

(** Settlement writes the ledger through appendEntry with Decimal amounts
    only, so it keeps every chain verifiable. *)
Lemma appended_settlePayment (id : string) (db db' : DB) (res : SettlementResult.t) :
  appended db →
  settlePayment id db = Returned res db' →
  appended db'.
Proof.
intros Happ Hret. unfold settlePayment, transaction in Hret.
destruct (settle_callback id db) as [res0 db0 | e db0] eqn:Hcb; [| discriminate].
injection Hret as <- <-.
destruct (intent_of id db) as [intent |] eqn:Hfound.
2: { unfold settle_callback, paymentIntent_.findUnique_id in Hcb.
     unfold intent_of in Hfound. unfold bind at 1, read in Hcb.
     rewrite Hfound in Hcb. discriminate. }
destruct (decide (PaymentIntent.status intent = PaymentIntentStatus.CONFIRMING))
  as [Hstatus | Hother].
- rewrite (settle_callback_confirming id db intent Hfound Hstatus) in Hcb.
  destruct (appendEntry (primary_params intent) db) as [r1 db1 | e db1] eqn:H1;
    [| discriminate].
  assert (Happ1 : appended db1)
    by (apply (appended_entry (primary_params intent) r1 db db1 Happ
                 (canonical_decimal (PaymentIntent.amount intent)) H1)).
  assert (Hupdate : ∀ dbk db4,
            appended dbk →
            paymentIntent_.update_status id PaymentIntentStatus.SETTLED dbk
            = Returned tt db4 →
            appended db4).
  { intros dbk db4 Hk Hup. apply (appended_other dbk); [done |].
    unfold paymentIntent_.update_status, paymentIntent_.findUnique_id in Hup.
    tx_unfold. destruct (List.find _ (paymentIntent dbk)); [| discriminate].
    by injection Hup as <-. }
  destruct (0 <? PaymentIntent.discountAmount intent).
  + destruct (appendEntry (marketing_params intent) db1) as [r2 db2 | e db2] eqn:H2;
      [| discriminate].
    destruct (appendEntry (subsidy_params intent) db2) as [r3 db3 | e db3] eqn:H3;
      [| discriminate].
    destruct (paymentIntent_.update_status id PaymentIntentStatus.SETTLED db3)
      as [[] db4 | e db4] eqn:H4; [| discriminate].
    injection Hcb as _ <-. apply (Hupdate db3 db4); [| done].
    apply (appended_entry (subsidy_params intent) r3 db2 db3
             (appended_entry (marketing_params intent) r2 db1 db2 Happ1
                (canonical_decimal (PaymentIntent.discountAmount intent)) H2)
             (canonical_decimal (PaymentIntent.discountAmount intent)) H3).
  + destruct (paymentIntent_.update_status id PaymentIntentStatus.SETTLED db1)
      as [[] db4 | e db4] eqn:H4; [| discriminate].
    injection Hcb as _ <-. by apply (Hupdate db1 db4).
- unfold settle_callback, paymentIntent_.findUnique_id,
    ledgerEntry_.findMany_startsWith in Hcb.
  unfold intent_of in Hfound. unfold bind at 1, read in Hcb. rewrite Hfound in Hcb.
  destruct (bool_decide (PaymentIntent.status intent = PaymentIntentStatus.SETTLED)).
  + tx_unfold. by injection Hcb as _ <-.
  + rewrite bool_decide_eq_false_2 in Hcb by done. discriminate.
Qed.

(** C2, as amended. For a CONFIRMING intent whose leg references are new on
    their accounts, a settlement that returns has emitted one entry when
    discountAmount is 0 (the CREDIT of amount to PLATFORM_ESCROW under the
    reference of the intent) and three when it is positive (that credit,
    the MARKETING_WALLET DEBIT under reference_DISC, the PLATFORM_ESCROW
    CREDIT under reference_DISC_ESCROW, in this order, the subsidy credit
    taking the walletSeq after the primary one), and has set the intent to
    SETTLED. It does return when the escrow balance stays non-negative
    and, for a positive discount, the marketing balance covers it, as long
    as every amount written, the legs and the balances they give, is one a
    Decimal(19,4) column holds. *)
Theorem settlePayment_confirming (id : string) (db : DB) (intent : PaymentIntent.t) :
  let R := PaymentIntent.reference intent in
  let amount := PaymentIntent.amount intent in
  let discount := PaymentIntent.discountAmount intent in
  intent_of id db = Some intent →
  PaymentIntent.status intent = PaymentIntentStatus.CONFIRMING →
  stored PLATFORM_ESCROW R db = None →
  (0 < discount →
   stored MARKETING_WALLET (R +:+ "_DISC") db = None ∧
   stored PLATFORM_ESCROW ((R +:+ "_DISC") +:+ "_ESCROW") db = None) →
  (∀ res db',
     settlePayment id db = Returned res db' →
     intent_of id db' = Some (PaymentIntent.with_status PaymentIntentStatus.SETTLED intent) ∧
     (discount = 0 →
      ∃ e1,
        SettlementResult.ledgerEntries res = [AppendEntryResult.of_entry e1] ∧
        ledgerEntry db' = ledgerEntry db ++ [e1] ∧
        leg e1 PLATFORM_ESCROW R CREDIT amount) ∧
     (0 < discount →
      ∃ e1 e2 e3,
        SettlementResult.ledgerEntries res
        = [AppendEntryResult.of_entry e1; AppendEntryResult.of_entry e2;
           AppendEntryResult.of_entry e3] ∧
        ledgerEntry db' = ledgerEntry db ++ [e1; e2; e3] ∧
        leg e1 PLATFORM_ESCROW R CREDIT amount ∧
        leg e2 MARKETING_WALLET (R +:+ "_DISC") DEBIT discount ∧
        leg e3 PLATFORM_ESCROW ((R +:+ "_DISC") +:+ "_ESCROW") CREDIT discount ∧
        LedgerEntry.walletSeq e1 < LedgerEntry.walletSeq e3)) ∧
  (0 <= default 0 (WalletBalanceCache.balance <$> walletBalanceCache db !! PLATFORM_ESCROW)
        + amount →
   Prisma.fits_column amount →
   Prisma.fits_column
     (default 0 (WalletBalanceCache.balance <$> walletBalanceCache db !! PLATFORM_ESCROW)
      + amount) →
   (0 < discount →
    Prisma.fits_column discount ∧
    Prisma.fits_column
      (default 0 (WalletBalanceCache.balance <$> walletBalanceCache db !! PLATFORM_ESCROW)
       + amount + discount) ∧
    ∃ c, walletBalanceCache db !! MARKETING_WALLET = Some c ∧
         discount <= WalletBalanceCache.balance c ∧
         Prisma.fits_column (WalletBalanceCache.balance c)) →
   ∃ res db', settlePayment id db = Returned res db').
Proof.
  intros R amount discount Hfound Hstatus Hprimary Hnew. split.
  - intros res db' Hret.
    destruct (Z_lt_le_dec 0 discount) as [Hpos | Hzero].
    + destruct (Hnew Hpos) as [Hm Hs].
      destruct (settled_three id db intent Hfound Hstatus Hprimary Hm Hs res db' Hpos Hret)
        as (Hintent & e1 & e2 & e3 & Hres & Hledger & H1 & H2 & H3 & Hseq).
      split; [done |]. split; [subst discount; lia |].
      intros _. exists e1, e2, e3. repeat (split; [done |]). lia.
    + destruct (settled_one id db intent Hfound Hstatus Hprimary res db' Hzero Hret)
        as (Hintent & e1 & Hres & Hledger & H1).
      split; [done |]. split; [| subst discount; lia].
      intros _. by exists e1.
  - intros Hescrow _ _ Hfunds.
    apply (settlePayment_returns id db intent); try done.
    intros Hpos. destruct (Hfunds Hpos) as (_ & _ & c & Hc & Hle & _). eauto.
Qed.

(** The discount scenario of the specification: order O2, 8000.0000 paid of
    10000.0000, on the seeded database. *)
Lemma settlePayment_confirming_witness :
  intent_of "c1" Scenario.subsidy_db = Some (Scenario.discounted_intent "c1" "O2") ∧
  stored PLATFORM_ESCROW "PAYMENT_O2" Scenario.subsidy_db = None ∧
  stored MARKETING_WALLET "PAYMENT_O2_DISC" Scenario.subsidy_db = None ∧
  stored PLATFORM_ESCROW "PAYMENT_O2_DISC_ESCROW" Scenario.subsidy_db = None ∧
  ∃ res db' e1 e2 e3,
    settlePayment "c1" Scenario.subsidy_db = Returned res db' ∧
    SettlementResult.ledgerEntries res
    = [AppendEntryResult.of_entry e1; AppendEntryResult.of_entry e2;
       AppendEntryResult.of_entry e3] ∧
    LedgerEntry.walletSeq e1 < LedgerEntry.walletSeq e3 ∧
    (PaymentIntent.status <$> intent_of "c1" db') = Some PaymentIntentStatus.SETTLED.
Proof.
  assert (Hfound : intent_of "c1" Scenario.subsidy_db
                   = Some (Scenario.discounted_intent "c1" "O2"))
    by (vm_compute; reflexivity).
  assert (Hp : stored PLATFORM_ESCROW "PAYMENT_O2" Scenario.subsidy_db = None)
    by (vm_compute; reflexivity).
  assert (Hm : stored MARKETING_WALLET "PAYMENT_O2_DISC" Scenario.subsidy_db = None)
    by (vm_compute; reflexivity).
  assert (Hs : stored PLATFORM_ESCROW "PAYMENT_O2_DISC_ESCROW" Scenario.subsidy_db = None)
    by (vm_compute; reflexivity).
  do 4 (split; [assumption |]).
  destruct (settlePayment_confirming "c1" Scenario.subsidy_db
              (Scenario.discounted_intent "c1" "O2") Hfound eq_refl Hp
              (λ _, conj Hm Hs)) as [Hlegs Hreturns].
  destruct Hreturns as (res & db' & Hret).
  { vm_compute. discriminate. }
  { vm_compute. reflexivity. }
  { vm_compute. reflexivity. }
  { intros _. split; [vm_compute; reflexivity |]. split; [vm_compute; reflexivity |].
    eexists. split; [vm_compute; reflexivity |].
    split; [vm_compute; discriminate | vm_compute; reflexivity]. }
  destruct (Hlegs res db' Hret) as (Hintent & _ & Hthree).
  destruct (Hthree ltac:(vm_compute; reflexivity))
    as (e1 & e2 & e3 & Hres & _ & _ & _ & _ & Hseq).
  exists res, db', e1, e2, e3. repeat (split; [assumption |]).
  by rewrite Hintent.
Defined.

(** C2 as stated fails twice. On a marketing wallet drained to 1000.0000 the
    settlement of a CONFIRMING intent with a discount of 2000.0000 throws:
    no entry is emitted and the intent stays CONFIRMING. And when the
    reference of the subsidy credit is already on PLATFORM_ESCROW, the third
    entry returned is that older entry, whose walletSeq is below the primary
    one, and only two entries are written. *)
Lemma settlePayment_confirming_counterexample :
  (intent_of "c2" Scenario.drained_db = Some (Scenario.discounted_intent "c2" "O2") ∧
   settlePayment "c2" Scenario.drained_db
   = Thrown (INSUFFICIENT_BALANCE MARKETING_WALLET 10000000 "2000") Scenario.drained_db) ∧
  (intent_of "c3" Scenario.collision_db = Some (Scenario.discounted_intent "c3" "O1") ∧
   ∃ res db',
     settlePayment "c3" Scenario.collision_db = Returned res db' ∧
     map (λ r, (AppendEntryResult.reference r, AppendEntryResult.walletSeq r,
                AppendEntryResult.amount r))
         (SettlementResult.ledgerEntries res)
     = [("PAYMENT_O1", 2, 80000000); ("PAYMENT_O1_DISC", 2, 20000000);
        ("PAYMENT_O1_DISC_ESCROW", 1, 3000000)] ∧
     map LedgerEntry.reference (ledgerEntry db')
     = map LedgerEntry.reference (ledgerEntry Scenario.collision_db) ++
       ["PAYMENT_O1"; "PAYMENT_O1_DISC"]).
Proof.
  split.
  - split; vm_compute; reflexivity.
  - split; [vm_compute; reflexivity |].
    eexists _, _. split; [vm_compute; reflexivity |].
    split; vm_compute; reflexivity.
Qed.

(** C3. A settlement of a CONFIRMING intent that throws leaves the whole
    database as it was: ledger, balance cache and the intent, which is still
    CONFIRMING, so no entry is stored under a pair that had none. Whichever
    of its appends throws, the primary credit, the marketing debit or the
    subsidy credit, and for whatever reason, the settlement throws that
    exception. In particular, when the discount exceeds the cached
    MARKETING_WALLET balance the settlement throws, with
    INSUFFICIENT_BALANCE whenever the primary leg had gone through; and
    when MARKETING_WALLET has no cache row it throws, with
    DEBIT_ON_NON_EXISTENT_WALLET whenever the primary leg had gone
    through. *)
Theorem settlePayment_rolls_back (id : string) (db : DB) (intent : PaymentIntent.t) :
  intent_of id db = Some intent →
  PaymentIntent.status intent = PaymentIntentStatus.CONFIRMING →
  (∀ e db',
     settlePayment id db = Thrown e db' →
     db' = db ∧
     ledgerEntry db' = ledgerEntry db ∧
     walletBalanceCache db' = walletBalanceCache db ∧
     intent_of id db' = Some intent) ∧
  (∀ e db1,
     appendEntry (primary_params intent) db = Thrown e db1 →
     settlePayment id db = Thrown e db) ∧
  (∀ c,
     0 < PaymentIntent.discountAmount intent →
     walletBalanceCache db !! MARKETING_WALLET = Some c →
     WalletBalanceCache.balance c < PaymentIntent.discountAmount intent →
     stored MARKETING_WALLET (PaymentIntent.reference intent +:+ "_DISC") db = None →
     ∃ e,
       settlePayment id db = Thrown e db ∧
       (∀ r1 db1,
          appendEntry (primary_params intent) db = Returned r1 db1 →
          e = INSUFFICIENT_BALANCE MARKETING_WALLET (WalletBalanceCache.balance c)
                (Prisma.toString (PaymentIntent.discountAmount intent)))) ∧
  (∀ r1 db1 e db2,
     0 < PaymentIntent.discountAmount intent →
     appendEntry (primary_params intent) db = Returned r1 db1 →
     appendEntry (marketing_params intent) db1 = Thrown e db2 →
     settlePayment id db = Thrown e db) ∧
  (∀ r1 db1 r2 db2 e db3,
     0 < PaymentIntent.discountAmount intent →
     appendEntry (primary_params intent) db = Returned r1 db1 →
     appendEntry (marketing_params intent) db1 = Returned r2 db2 →
     appendEntry (subsidy_params intent) db2 = Thrown e db3 →
     settlePayment id db = Thrown e db) ∧
  (0 < PaymentIntent.discountAmount intent →
   walletBalanceCache db !! MARKETING_WALLET = None →
   stored MARKETING_WALLET (PaymentIntent.reference intent +:+ "_DISC") db = None →
   ∃ e,
     settlePayment id db = Thrown e db ∧
     (∀ r1 db1,
        appendEntry (primary_params intent) db = Returned r1 db1 →
        e = DEBIT_ON_NON_EXISTENT_WALLET MARKETING_WALLET)) ∧
  (∀ e db' accountId reference,
     settlePayment id db = Thrown e db' →
     stored accountId reference db' = stored accountId reference db).
Proof.
  intros Hfound Hstatus.
  destruct (settlePayment_append_throws id db intent Hfound Hstatus)
    as (Hprimary & Hmarketing & Hsubsidy).
  split; [| split; [| split; [| split; [| split; [| split]]]]].
  - intros e db' Hthrown. apply settlePayment_thrown in Hthrown as ->. done.
  - exact Hprimary.
  - intros c Hpos Hc Hshort Hm.
    by apply (settlePayment_marketing_short id db intent c).
  - exact Hmarketing.
  - exact Hsubsidy.
  - intros Hpos Hc Hm. by apply (settlePayment_marketing_missing id db intent).
  - intros e db' accountId reference Hthrown.
    apply settlePayment_thrown in Hthrown as ->. done.
Qed.

(** Scenario 5 of the specification: the marketing wallet holds 1000.0000,
    the subsidy needed is 2000.0000. *)
Lemma settlePayment_rolls_back_witness :
  intent_of "c2" Scenario.drained_db = Some (Scenario.discounted_intent "c2" "O2") ∧
  (WalletBalanceCache.balance <$> walletBalanceCache Scenario.drained_db !! MARKETING_WALLET)
  = Some 10000000 ∧
  ∃ e,
    settlePayment "c2" Scenario.drained_db = Thrown e Scenario.drained_db ∧
    e = INSUFFICIENT_BALANCE MARKETING_WALLET 10000000 "2000".
Proof.
  assert (Hfound : intent_of "c2" Scenario.drained_db
                   = Some (Scenario.discounted_intent "c2" "O2"))
    by (vm_compute; reflexivity).
  split; [assumption |]. split; [vm_compute; reflexivity |].
  destruct (settlePayment_rolls_back "c2" Scenario.drained_db
              (Scenario.discounted_intent "c2" "O2") Hfound eq_refl)
    as (_ & _ & Hshort & _).
  destruct (walletBalanceCache Scenario.drained_db !! MARKETING_WALLET) as [c |] eqn:Hc;
    [| vm_compute in Hc; discriminate].
  assert (Hbal : WalletBalanceCache.balance c = 10000000).
  { assert (Hb : WalletBalanceCache.balance <$> Some c = Some 10000000)
      by (rewrite <- Hc; vm_compute; reflexivity).
    by injection Hb. }
  destruct (Hshort c) as (e & Hthrown & Hwhich).
  - vm_compute. reflexivity.
  - reflexivity.
  - rewrite Hbal. vm_compute. reflexivity.
  - vm_compute. reflexivity.
  - exists e. split; [assumption |].
    assert (H1 : ∃ r1 db1,
               appendEntry (primary_params (Scenario.discounted_intent "c2" "O2"))
                 Scenario.drained_db = Returned r1 db1)
      by (vm_compute; eexists _, _; reflexivity).
    destruct H1 as (r1 & db1 & H1).
    rewrite (Hwhich r1 db1 H1), Hbal. reflexivity.
Defined.

(** C6, at a settled intent whose reference is a prefix of another one:
    settling PAYMENT_O1 again returns, beside its own entry, the entry of
    PAYMENT_O10, which is none of reference, reference_DISC and
    reference_DISC_ESCROW. *)
Theorem settlePayment_settled_prefix_match :
  (PaymentIntent.reference <$> intent_of "c0" Scenario.settled_db) = Some "PAYMENT_O1" ∧
  (PaymentIntent.status <$> intent_of "c0" Scenario.settled_db)
  = Some PaymentIntentStatus.SETTLED ∧
  ∃ res,
    settlePayment "c0" Scenario.settled_db = Returned res Scenario.settled_db ∧
    SettlementResult.message res = "Payment already settled" ∧
    map AppendEntryResult.reference (SettlementResult.ledgerEntries res)
    = ["PAYMENT_O1"; "PAYMENT_O10"] ∧
    ¬ In "PAYMENT_O10" ["PAYMENT_O1"; "PAYMENT_O1_DISC"; "PAYMENT_O1_DISC_ESCROW"].
Proof.
  split; [vm_compute; reflexivity |]. split; [vm_compute; reflexivity |].
  eexists. split; [vm_compute; reflexivity |].
  split; [reflexivity |]. split; [reflexivity |].
  cbn. intros [H | [H | [H | []]]]; discriminate.
Qed.

(** ** The invariants of the ledger under appendEntry *)

Lemma recomputeBalance_sum (a : string) (db : DB) :
  recomputeBalance a db = Returned (ledger_sum (on_account a db)) db.
Proof. reflexivity. Qed.

Lemma getBalance_row (a : string) (db : DB) :
  getBalance a db
  = Returned ((λ c, (WalletBalanceCache.balance c, WalletBalanceCache.lastEntrySeq c))
                <$> walletBalanceCache db !! a) db.
Proof. reflexivity. Qed.

Lemma ledger_sum_snoc (es : list LedgerEntry.t) (e : LedgerEntry.t) :
  ledger_sum (es ++ [e])
  = ledger_sum es + match LedgerEntry.entryType e with
                    | CREDIT => LedgerEntry.amount e
                    | DEBIT => - LedgerEntry.amount e
                    end.
Proof.
  unfold ledger_sum. rewrite fold_left_app. cbn [fold_left].
  unfold Prisma.add, Prisma.sub. destruct (LedgerEntry.entryType e); lia.
Qed.

Lemma on_account_insert (a : string) (acct : string) (row : WalletBalanceCache.t)
      (e : LedgerEntry.t) (db : DB) :
  on_account a (walletBalanceCache_.put acct row (ledgerEntry_.insert e (bump db)))
  = on_account a db ++ (if bool_decide (LedgerEntry.accountId e = a) then [e] else []).
Proof.
  unfold on_account. db_simpl. rewrite List.filter_app. cbn [List.filter].
  by destruct (bool_decide _).
Qed.

Lemma cache_balance_appended (p : AppendEntryParams.t) (db db' : DB)
        (r : AppendEntryResult.t) :
  cache_matches_ledger db →
  appendEntry p db = Returned r db' →
  cache_matches_ledger db'.
Proof.
  intros Hinv Hret a.
  destruct (appendEntry_returned p db r db' Hret) as (d & Hd & Hcase).
  destruct Hcase as [(existing & _ & _ & ->) | (Hnew & _ & row & -> & Hbal)]; [apply Hinv |].
  specialize (Hinv a). rewrite getBalance_row in *. rewrite recomputeBalance_sum in *.
  rewrite on_account_insert. db_simpl.
  change (LedgerEntry.accountId (next_entry p d db)) with (AppendEntryParams.accountId p).
  destruct (decide (AppendEntryParams.accountId p = a)) as [<- | Hne].
  - rewrite bool_decide_eq_true_2 by done. rewrite lookup_insert_eq. cbn.
    rewrite ledger_sum_snoc. f_equal. rewrite Hbal.
    change (LedgerEntry.entryType (next_entry p d db)) with (AppendEntryParams.entryType p).
    change (LedgerEntry.amount (next_entry p d db)) with d.
    destruct (walletBalanceCache db !! AppendEntryParams.accountId p) as [c |]; cbn in *.
    + injection Hinv as ->. done.
    + rewrite Hinv. done.
  - rewrite bool_decide_eq_false_2 by done. rewrite lookup_insert_ne by done.
    rewrite app_nil_r.
    destruct (walletBalanceCache db !! a) as [c |]; cbn in *; [| done].
    injection Hinv as Hinv. by rewrite Hinv.
Qed.

(** The cache row a first-time append writes. *)
Lemma appendEntry_wrote (p : AppendEntryParams.t) (db db' : DB) (r : AppendEntryResult.t)
      (d : Prisma.Decimal) :
  Prisma.ofString (amount_text (AppendEntryParams.amount p)) = Some d →
  stored (AppendEntryParams.accountId p) (AppendEntryParams.reference p) db = None →
  appendEntry p db = Returned r db' →
  ∃ row,
    db' = walletBalanceCache_.put (AppendEntryParams.accountId p) row
            (ledgerEntry_.insert (next_entry p d db) (bump db)) ∧
    r = AppendEntryResult.of_entry (next_entry p d db) ∧
    WalletBalanceCache.lastEntrySeq row = LedgerEntry.walletSeq (next_entry p d db) ∧
    match walletBalanceCache db !! AppendEntryParams.accountId p with
    | Some c =>
        WalletBalanceCache.balance row
        = WalletBalanceCache.balance c
          + match AppendEntryParams.entryType p with CREDIT => d | DEBIT => - d end ∧
        0 <= WalletBalanceCache.balance row
    | None =>
        AppendEntryParams.entryType p = CREDIT ∧ WalletBalanceCache.balance row = d
    end.
Proof.
  intros Hd Hnew Hret.
  rewrite (appendEntry_fresh p db d Hd Hnew) in Hret. cbv zeta in Hret.
  destruct (walletBalanceCache db !! AppendEntryParams.accountId p) as [c |].
  - destruct (_ <? 0) eqn:E; [discriminate |]. injection Hret as <- <-.
    eexists. split; [reflexivity |]. cbn. repeat split; lia.
  - destruct (AppendEntryParams.entryType p); [| discriminate]. injection Hret as <- <-.
    eexists. split; [reflexivity |]. done.
Qed.

Lemma last_entry_seq_appended (p : AppendEntryParams.t) (db db' : DB)
        (r : AppendEntryResult.t) :
  cache_tracks_tail db →
  appendEntry p db = Returned r db' →
  cache_tracks_tail db'.
Proof.
  intros Hinv Hret a b s tail Hget Htail.
  destruct (appendEntry_returned p db r db' Hret) as (d & Hd & Hcase).
  destruct Hcase as [(existing & _ & _ & ->) | (Hnew & _ & _)];
    [by apply (Hinv a b s tail) |].
  destruct (appendEntry_wrote p db db' r d Hd Hnew Hret) as (row & -> & _ & Hrow & _).
  unfold ledgerEntry_.findFirst_desc, read in Htail. rewrite getBalance_row in Hget.
  revert Htail Hget. db_simpl. intros [= <-] Hget.
  destruct (decide (AppendEntryParams.accountId p = a)) as [<- | Hne].
  - rewrite last_of_next. rewrite lookup_insert_eq in Hget. cbn in Hget.
    injection Hget as _ <-. by rewrite Hrow.
  - rewrite lookup_insert_ne in Hget by done.
    rewrite last_of_snoc.
    change (LedgerEntry.accountId (next_entry p d db)) with (AppendEntryParams.accountId p).
    rewrite bool_decide_eq_false_2 by done.
    injection Hget as Hget.
    apply (Hinv a b s); [by rewrite getBalance_row, Hget | reflexivity].
Qed.

Lemma stored_none_not_in (a r : string) (db : DB) :
  stored a r db = None →
  (a, r) ∉ map (λ e, (LedgerEntry.accountId e, LedgerEntry.reference e)) (ledgerEntry db).
Proof.
  unfold stored. intros Hnone Hin.
  apply list_elem_of_fmap in Hin as (e & Heq & Hin).
  apply list_elem_of_In in Hin.
  apply (List.find_none _ _ Hnone) in Hin.
  unfold ledgerEntry_.matches in Hin. injection Heq as -> ->.
  by rewrite !bool_decide_eq_true_2 in Hin.
Qed.

Lemma appendEntry_ledger (p : AppendEntryParams.t) (db : DB) :
  ledgerEntry (final_db (appendEntry p db)) = ledgerEntry db ∨
  ∃ d, Prisma.ofString (amount_text (AppendEntryParams.amount p)) = Some d ∧
       stored (AppendEntryParams.accountId p) (AppendEntryParams.reference p) db = None ∧
       ledgerEntry (final_db (appendEntry p db)) = ledgerEntry db ++ [next_entry p d db].
Proof.
  destruct (Prisma.ofString (amount_text (AppendEntryParams.amount p))) as [d |] eqn:Hd;
    [| left; by rewrite appendEntry_invalid_amount].
  destruct (stored (AppendEntryParams.accountId p) (AppendEntryParams.reference p) db)
    as [existing |] eqn:Hst;
    [left; by rewrite (appendEntry_existing p db d existing) |].
  right. exists d. split; [done |]. split; [done |].
  rewrite (appendEntry_fresh p db d Hd Hst). cbv zeta.
  destruct (walletBalanceCache db !! AppendEntryParams.accountId p) as [c |].
  - by destruct (_ <? 0).
  - by destruct (AppendEntryParams.entryType p).
Qed.

Lemma references_unique_appended (p : AppendEntryParams.t) (db : DB) :
  references_unique db →
  references_unique (final_db (appendEntry p db)).
Proof.
  unfold references_unique. intros Hinv.
  destruct (appendEntry_ledger p db) as [-> | (d & _ & Hnew & ->)]; [done |].
  rewrite map_app. apply NoDup_app. split; [done |]. split.
  - intros x Hx. cbn. intros Hin. apply list_elem_of_singleton in Hin. subst x.
    by apply (stored_none_not_in _ _ db Hnew).
  - cbn. apply NoDup_singleton.
Qed.

Lemma last_of_linked (a : string) (l : list LedgerEntry.t) :
  ∀ best prev n,
    linked prev n (List.filter (λ e, bool_decide (LedgerEntry.accountId e = a)) l) →
    (∀ b, best = Some b → LedgerEntry.walletSeq b <= n) →
    ledgerEntry_.last_of a best l
    = match last (List.filter (λ e, bool_decide (LedgerEntry.accountId e = a)) l) with
      | Some x => Some x
      | None => best
      end.
Proof.
  induction l as [| e l IH]; intros best prev n Hl Hbest; [done |].
  cbn [List.filter ledgerEntry_.last_of] in *.
  destruct (bool_decide (LedgerEntry.accountId e = a)); [| by apply (IH best prev n)].
  destruct Hl as (Hseq & _ & Hrest).
  assert (Hnext : ledgerEntry_.last_of a (Some e) l
                  = match last (List.filter (λ e, bool_decide (LedgerEntry.accountId e = a)) l)
                    with Some x => Some x | None => Some e end).
  { apply (IH (Some e) _ (n + 1) Hrest). intros b [= <-]. lia. }
  assert (Hlast : last (e :: List.filter (λ e, bool_decide (LedgerEntry.accountId e = a)) l)
                  = match last (List.filter (λ e, bool_decide (LedgerEntry.accountId e = a)) l)
                    with Some x => Some x | None => Some e end).
  { destruct (List.filter _ l) as [| y rest]; [done |].
    rewrite last_cons_cons. destruct (last (y :: rest)) eqn:E; [done |].
    apply last_None in E. discriminate. }
  rewrite Hlast.
  assert (Hgoal : ledgerEntry_.last_of a (Some e) l
                  = match
                      match last (List.filter
                                    (λ e, bool_decide (LedgerEntry.accountId e = a)) l)
                      with Some x => Some x | None => Some e end
                    with Some x => Some x | None => best end)
    by (rewrite Hnext; by destruct (last _)).
  destruct best as [b |]; [| exact Hgoal].
  specialize (Hbest b eq_refl).
  destruct (LedgerEntry.walletSeq b <? LedgerEntry.walletSeq e) eqn:E; [exact Hgoal | lia].
Qed.

Lemma linked_last prev n es e :
  linked prev n es → last es = Some e →
  LedgerEntry.walletSeq e = n + Z.of_nat (length es).
Proof.
  revert prev n. induction es as [| x rest IH]; intros prev n; [done |].
  intros (Hseq & _ & Hrest) Hlast.
  destruct rest as [| y rest'].
  - injection Hlast as <-. cbn. lia.
  - rewrite last_cons_cons in Hlast.
    rewrite (IH _ _ Hrest Hlast). cbn [length]. lia.
Qed.

Lemma linked_snoc prev n es e :
  linked prev n es →
  LedgerEntry.walletSeq e = n + Z.of_nat (length es) + 1 →
  LedgerEntry.prevHash e = from_option (λ x, Some (LedgerEntry.entryHash x)) prev (last es) →
  linked prev n (es ++ [e]).
Proof.
  revert prev n. induction es as [| x rest IH]; intros prev n Hes Hseq Hprev.
  - cbn in *. repeat split; [lia | done].
  - destruct Hes as (Hx & Hxprev & Hrest). cbn [app linked].
    repeat split; try done.
    apply IH; [done | cbn [length] in Hseq; lia |].
    rewrite Hprev. destruct rest as [| y rest']; [reflexivity |].
    rewrite last_cons_cons.
    destruct (last (y :: rest')) eqn:E; [done | apply last_None in E; discriminate].
Qed.

Lemma linked_seqs prev n es :
  linked prev n es →
  map LedgerEntry.walletSeq es = map (λ k, n + Z.of_nat k) (seq 1 (length es)).
Proof.
  revert prev n. induction es as [| e rest IH]; intros prev n; [done |].
  intros (Hseq & _ & Hrest). cbn [map length seq]. rewrite Hseq.
  replace (n + Z.of_nat 1) with (n + 1) by lia. f_equal.
  rewrite (IH _ _ Hrest). rewrite <- (seq_shift (length rest) 1), map_map.
  apply map_ext. intros k. lia.
Qed.

Lemma next_entry_position (p : AppendEntryParams.t) (d : Prisma.Decimal) (db : DB) :
  well_sequenced db →
  LedgerEntry.walletSeq (next_entry p d db)
  = Z.of_nat (length (on_account (AppendEntryParams.accountId p) db)) + 1 ∧
  LedgerEntry.prevHash (next_entry p d db)
  = LedgerEntry.entryHash <$> last (on_account (AppendEntryParams.accountId p) db).
Proof.
  intros Hinv.
  assert (Htail : ledgerEntry_.last_of (AppendEntryParams.accountId p) None (ledgerEntry db)
                  = last (on_account (AppendEntryParams.accountId p) db)).
  { rewrite (last_of_linked _ _ None None 0 (Hinv _)) by done.
    unfold on_account. by destruct (last _). }
  unfold next_entry. cbn [LedgerEntry.walletSeq LedgerEntry.prevHash]. rewrite Htail.
  split; [| done].
  destruct (last (on_account (AppendEntryParams.accountId p) db)) as [x |] eqn:Hx.
  - cbn. rewrite (linked_last _ _ _ _ (Hinv _) Hx). lia.
  - apply last_None in Hx. rewrite Hx. reflexivity.
Qed.

Lemma sequence_appended (p : AppendEntryParams.t) (db db' : DB) (r : AppendEntryResult.t) :
  well_sequenced db →
  appendEntry p db = Returned r db' →
  well_sequenced db'.
Proof.
  intros Hinv Hret.
  destruct (appendEntry_returned p db r db' Hret) as (d & Hd & Hcase).
  destruct Hcase as [(existing & Hst & _ & ->) | (Hnew & -> & row & -> & _)]; [done |].
  destruct (next_entry_position p d db Hinv) as [Hseq Hprev].
  intros a. rewrite on_account_insert.
  change (LedgerEntry.accountId (next_entry p d db)) with (AppendEntryParams.accountId p).
  destruct (decide (AppendEntryParams.accountId p = a)) as [<- | Hne].
  - rewrite bool_decide_eq_true_2 by done.
    apply linked_snoc; [apply Hinv | rewrite Hseq; lia |].
    rewrite Hprev. by destruct (last _).
  - rewrite bool_decide_eq_false_2 by done. rewrite app_nil_r. apply Hinv.
Qed.

Lemma set_status_invariants (id : string) (status : PaymentIntentStatus.t) (db : DB) :
  (cache_matches_ledger db → cache_matches_ledger (set_status id status db)) ∧
  (cache_tracks_tail db → cache_tracks_tail (set_status id status db)) ∧
  (well_sequenced db → well_sequenced (set_status id status db)) ∧
  (references_unique db → references_unique (set_status id status db)).
Proof.
  split; [| split; [| split]]; [| | done | done].
  - intros H a. specialize (H a). rewrite getBalance_row, recomputeBalance_sum in *.
    unfold set_status. db_simpl.
    change (on_account a (paymentIntent_.set_rows _ db)) with (on_account a db).
    destruct (walletBalanceCache db !! a) as [c |]; cbn in *; [| done].
    injection H as ->. done.
  - intros H a b s tail Hget Htail. apply (H a b s tail).
    + rewrite getBalance_row in *. unfold set_status in Hget. revert Hget. db_simpl.
      by intros [= ->].
    + unfold ledgerEntry_.findFirst_desc, read in *. by injection Htail as ->.
Qed.

(** The invariants at the empty database and at the funded wallet of the
    instances. *)
Lemma empty_db_invariants :
  cache_matches_ledger empty_db ∧ cache_tracks_tail empty_db ∧
  balances_non_negative empty_db ∧ well_sequenced empty_db.
Proof. repeat split; done. Qed.

Lemma funded_db_invariants :
  cache_matches_ledger Scenario.funded_db ∧ cache_tracks_tail Scenario.funded_db ∧
  balances_non_negative Scenario.funded_db ∧ well_sequenced Scenario.funded_db.
Proof.
  destruct empty_db_invariants as (H1 & H2 & H3 & H4).
  assert (Hrun : appendEntry Scenario.fund_params empty_db
                 = Returned (AppendEntryResult.of_entry
                               (next_entry Scenario.fund_params 50000 empty_db))
                     Scenario.funded_db) by (vm_compute; reflexivity).
  split; [exact (cache_balance_appended _ _ _ _ H1 Hrun) |].
  split; [exact (last_entry_seq_appended _ _ _ _ H2 Hrun) |].
  split; [| exact (sequence_appended _ _ _ _ H4 Hrun)].
  assert (Hd : Prisma.ofString (amount_text (AppendEntryParams.amount Scenario.fund_params))
               = Some 50000) by (vm_compute; reflexivity).
  assert (Hnew : stored (AppendEntryParams.accountId Scenario.fund_params)
                   (AppendEntryParams.reference Scenario.fund_params) empty_db = None)
    by reflexivity.
  destruct (appendEntry_wrote Scenario.fund_params empty_db _ _ 50000 Hd Hnew Hrun)
    as (row & Hdb & _ & _ & Hrow).
  change (walletBalanceCache empty_db !! AppendEntryParams.accountId Scenario.fund_params)
    with (@None WalletBalanceCache.t) in Hrow.
  destruct Hrow as [_ Hrow].
  intros a b s Hget. rewrite getBalance_row, Hdb in Hget. revert Hget.
  generalize (next_entry Scenario.fund_params 50000 empty_db). intros e.
  db_simpl.
  destruct (decide (AppendEntryParams.accountId Scenario.fund_params = a)) as [<- | Hne].
  - rewrite lookup_insert_eq. cbn [fmap option_fmap option_map].
    intros [= <- _]. rewrite Hrow. lia.
  - rewrite lookup_insert_ne by done.
    change (walletBalanceCache empty_db) with (∅ : gmap string WalletBalanceCache.t).
    rewrite lookup_empty. discriminate.
Qed.

(** X1. appendEntry keeps every cached balance non-negative: when no cached
    balance is negative before a call that returns, none is after it. The
    first credit to an account without a cache row stores the amount as the
    balance unchecked, so for that case the amount itself must not be
    negative. *)
Theorem appendEntry_keeps_balances_non_negative (p : AppendEntryParams.t) (db db' : DB)
        (r : AppendEntryResult.t) (d : Prisma.Decimal) :
  Prisma.ofString (amount_text (AppendEntryParams.amount p)) = Some d →
  balances_non_negative db →
  appendEntry p db = Returned r db' →
  (is_Some (walletBalanceCache db !! AppendEntryParams.accountId p) ∨ 0 <= d) →
  balances_non_negative db'.
Proof.
  intros Hd Hinv Hret Hsafe a b s Hget.
  destruct (appendEntry_returned p db r db' Hret) as (d' & Hd' & Hcase).
  rewrite Hd in Hd'. injection Hd' as <-.
  destruct Hcase as [(existing & _ & _ & ->) | (Hnew & _ & _)];
    [by apply (Hinv a b s) |].
  destruct (appendEntry_wrote p db db' r d Hd Hnew Hret) as (row & -> & _ & _ & Hrow).
  rewrite getBalance_row in Hget. revert Hget. db_simpl. intros Hget.
  destruct (decide (AppendEntryParams.accountId p = a)) as [<- | Hne].
  - rewrite lookup_insert_eq in Hget. cbn in Hget. injection Hget as <- _.
    destruct (walletBalanceCache db !! AppendEntryParams.accountId p) as [c |].
    + by destruct Hrow.
    + destruct Hrow as [_ ->]. destruct Hsafe as [[x Hx] | Hpos]; [discriminate | done].
  - rewrite lookup_insert_ne in Hget by done. injection Hget as Hget.
    apply (Hinv a b s). by rewrite getBalance_row, Hget.
Qed.

(** X1 at the first credit of 5.0000 to a wallet that does not exist yet. *)
Lemma appendEntry_keeps_balances_non_negative_witness :
  Prisma.ofString (amount_text (AppendEntryParams.amount Scenario.fund_params))
  = Some 50000 ∧
  balances_non_negative empty_db ∧
  (∃ r, appendEntry Scenario.fund_params empty_db = Returned r Scenario.funded_db) ∧
  balances_non_negative Scenario.funded_db.
Proof.
  assert (Hrun : appendEntry Scenario.fund_params empty_db
                 = Returned (AppendEntryResult.of_entry
                               (next_entry Scenario.fund_params 50000 empty_db))
                     Scenario.funded_db) by (vm_compute; reflexivity).
  assert (Hinv : balances_non_negative empty_db) by done.
  split; [reflexivity |]. split; [exact Hinv |]. split; [eexists; exact Hrun |].
  apply (appendEntry_keeps_balances_non_negative Scenario.fund_params empty_db
           Scenario.funded_db _ 50000 eq_refl Hinv Hrun).
  right. lia.
Defined.

(** X2. appendEntry keeps the cache in step with the ledger: if every cached
    balance is what recomputeBalance returns and every cached lastEntrySeq
    is the walletSeq of the last entry, the same holds after a call that
    returns, whether it appended or found the reference stored. *)
Theorem appendEntry_keeps_cache_in_step (p : AppendEntryParams.t) (db db' : DB)
        (r : AppendEntryResult.t) :
  cache_matches_ledger db →
  cache_tracks_tail db →
  appendEntry p db = Returned r db' →
  cache_matches_ledger db' ∧ cache_tracks_tail db'.
Proof.
  intros Hbalance Htail Hret. split.
  - by apply (cache_balance_appended p db db' r).
  - by apply (last_entry_seq_appended p db db' r).
Qed.

(** X2 at the debit of the whole balance of the funded wallet. *)
Lemma appendEntry_keeps_cache_in_step_witness :
  cache_matches_ledger Scenario.funded_db ∧
  cache_tracks_tail Scenario.funded_db ∧
  (∃ r, appendEntry Scenario.debit_all Scenario.funded_db = Returned r Cases.emptied_db) ∧
  cache_matches_ledger Cases.emptied_db ∧
  cache_tracks_tail Cases.emptied_db.
Proof.
  destruct funded_db_invariants as (Hbalance & Htail & _ & _).
  assert (Hrun : appendEntry Scenario.debit_all Scenario.funded_db
                 = Returned (AppendEntryResult.of_entry
                               (next_entry Scenario.debit_all 50000 Scenario.funded_db))
                     Cases.emptied_db) by (vm_compute; reflexivity).
  split; [exact Hbalance |]. split; [exact Htail |]. split; [eexists; exact Hrun |].
  exact (appendEntry_keeps_cache_in_step Scenario.debit_all Scenario.funded_db
           Cases.emptied_db _ Hbalance Htail Hrun).
Defined.

(** X3. appendEntry keeps the sequence numbers of every account dense: on a
    ledger whose accounts are numbered 1, 2, ... with each prevHash the hash
    of the entry before, the same holds after a call that returns; a new
    entry gets the number of entries of its account plus one and the hash of
    the last of them as prevHash (none for the first). *)
Theorem appendEntry_keeps_sequence (p : AppendEntryParams.t) (db db' : DB)
        (r : AppendEntryResult.t) :
  well_sequenced db →
  appendEntry p db = Returned r db' →
  well_sequenced db' ∧
  (∀ accountId,
     map LedgerEntry.walletSeq (on_account accountId db')
     = map Z.of_nat (seq 1 (length (on_account accountId db')))) ∧
  (stored (AppendEntryParams.accountId p) (AppendEntryParams.reference p) db = None →
   AppendEntryResult.walletSeq r
   = Z.of_nat (length (on_account (AppendEntryParams.accountId p) db)) + 1 ∧
   AppendEntryResult.prevHash r
   = LedgerEntry.entryHash <$> last (on_account (AppendEntryParams.accountId p) db)).
Proof.
  intros Hinv Hret.
  pose proof (sequence_appended p db db' r Hinv Hret) as Hinv'.
  split; [exact Hinv' |]. split.
  - intros a. rewrite (linked_seqs None 0 _ (Hinv' a)). apply map_ext. intros k. lia.
  - intros Hnew.
    destruct (appendEntry_returned p db r db' Hret) as (d & Hd & Hcase).
    destruct Hcase as [(existing & Hst & _) | (_ & -> & _)]; [congruence |].
    apply (next_entry_position p d db Hinv).
Qed.

(** X3 at the same debit: it is entry 2 of the wallet. *)
Lemma appendEntry_keeps_sequence_witness :
  well_sequenced Scenario.funded_db ∧
  ∃ r,
    appendEntry Scenario.debit_all Scenario.funded_db = Returned r Cases.emptied_db ∧
    well_sequenced Cases.emptied_db ∧
    AppendEntryResult.walletSeq r = 2.
Proof.
  destruct funded_db_invariants as (_ & _ & _ & Hseq).
  assert (Hrun : appendEntry Scenario.debit_all Scenario.funded_db
                 = Returned (AppendEntryResult.of_entry
                               (next_entry Scenario.debit_all 50000 Scenario.funded_db))
                     Cases.emptied_db) by (vm_compute; reflexivity).
  split; [exact Hseq |]. eexists. split; [exact Hrun |].
  destruct (appendEntry_keeps_sequence Scenario.debit_all Scenario.funded_db
              Cases.emptied_db _ Hseq Hrun) as (Hkept & _ & Hnew).
  split; [exact Hkept |].
  destruct (Hnew ltac:(vm_compute; reflexivity)) as [Hposition _].
  rewrite Hposition. vm_compute. reflexivity.
Defined.

(** X4. appendEntry never changes or removes a stored entry: whatever the
    call does, the ledger after it is the ledger before it, or that ledger
    with one entry added at the end, on the account and under the reference
    asked for, which were not stored before. So no two entries ever share
    (accountId, reference) if none did. *)
Theorem appendEntry_append_only (p : AppendEntryParams.t) (db : DB) :
  let db' := final_db (appendEntry p db) in
  (ledgerEntry db' = ledgerEntry db ∨
   ∃ e,
     ledgerEntry db' = ledgerEntry db ++ [e] ∧
     LedgerEntry.accountId e = AppendEntryParams.accountId p ∧
     LedgerEntry.reference e = AppendEntryParams.reference p ∧
     stored (AppendEntryParams.accountId p) (AppendEntryParams.reference p) db = None) ∧
  (references_unique db → references_unique db').
Proof.
  intros db'. subst db'. split; [| apply references_unique_appended].
  destruct (appendEntry_ledger p db) as [-> | (d & _ & Hnew & ->)]; [by left |].
  right. by exists (next_entry p d db).
Qed.

(** X5. appendEntry checks the balance after it has inserted the entry. A
    call that throws once the amount has been read (a debit above the
    balance, or on an account without cache row) therefore leaves, when run
    without its transaction, the entry in the ledger and the cache as it
    was: the cached balance is no longer the balance of the ledger. Run in
    the transaction, the same call leaves the database as it found it. *)
Theorem appendEntry_needs_transaction (p : AppendEntryParams.t) (db db1 : DB)
        (d : Prisma.Decimal) (e : Exception) :
  cache_matches_ledger db →
  balances_non_negative db →
  Prisma.ofString (amount_text (AppendEntryParams.amount p)) = Some d →
  appendEntry p db = Thrown e db1 →
  ledgerEntry db1 = ledgerEntry db ++ [next_entry p d db] ∧
  walletBalanceCache db1 = walletBalanceCache db ∧
  ¬ cache_matches_ledger db1 ∧
  transaction (appendEntry p) db = Thrown e db.
Proof.
  intros Hinv Hpos Hd Hthrown.
  assert (Htx : transaction (appendEntry p) db = Thrown e db)
    by (unfold transaction; by rewrite Hthrown).
  destruct (stored (AppendEntryParams.accountId p) (AppendEntryParams.reference p) db)
    as [existing |] eqn:Hst;
    [rewrite (appendEntry_existing p db d existing Hd Hst) in Hthrown; discriminate |].
  rewrite (appendEntry_fresh p db d Hd Hst) in Hthrown. cbv zeta in Hthrown.
  specialize (Hinv (AppendEntryParams.accountId p)).
  specialize (Hpos (AppendEntryParams.accountId p)).
  rewrite getBalance_row, recomputeBalance_sum in *.
  assert (Hacc : on_account (AppendEntryParams.accountId p)
                   (ledgerEntry_.insert (next_entry p d db) (bump db))
                 = on_account (AppendEntryParams.accountId p) db ++ [next_entry p d db]).
  { unfold on_account. db_simpl. rewrite List.filter_app. cbn [List.filter].
    change (LedgerEntry.accountId (next_entry p d db)) with (AppendEntryParams.accountId p).
    by rewrite bool_decide_eq_true_2. }
  destruct (walletBalanceCache db !! AppendEntryParams.accountId p) as [c |] eqn:Hc.
  - destruct (_ <? 0) eqn:E; [| discriminate]. injection Hthrown as _ <-.
    split; [done |]. split; [done |]. split; [| done].
    intros Hbad. specialize (Hbad (AppendEntryParams.accountId p)).
    rewrite getBalance_row, recomputeBalance_sum, Hacc in Hbad. revert Hbad. db_simpl.
    rewrite Hc. cbn. rewrite ledger_sum_snoc.
    change (LedgerEntry.entryType (next_entry p d db)) with (AppendEntryParams.entryType p).
    change (LedgerEntry.amount (next_entry p d db)) with d.
    cbn in Hinv. injection Hinv as Hinv. rewrite Hinv. intros [= Hsum].
    specialize (Hpos _ _ eq_refl).
    destruct (AppendEntryParams.entryType p); lia.
  - destruct (AppendEntryParams.entryType p); [discriminate |]. injection Hthrown as _ <-.
    split; [done |]. split; [done |]. split; [| done].
    intros Hbad. specialize (Hbad (AppendEntryParams.accountId p)).
    rewrite getBalance_row, Hacc in Hbad. revert Hbad. db_simpl. rewrite Hc. cbn.
    by destruct (on_account _ db).
Qed.

(** X5 at a debit of 5.0001 from the wallet holding 5.0000. *)
Lemma appendEntry_needs_transaction_witness :
  cache_matches_ledger Scenario.funded_db ∧
  balances_non_negative Scenario.funded_db ∧
  Prisma.ofString (amount_text (AppendEntryParams.amount Scenario.debit_more))
  = Some 50001 ∧
  ∃ e db1,
    appendEntry Scenario.debit_more Scenario.funded_db = Thrown e db1 ∧
    length (ledgerEntry db1) = 2%nat ∧
    ¬ cache_matches_ledger db1 ∧
    transaction (appendEntry Scenario.debit_more) Scenario.funded_db
    = Thrown e Scenario.funded_db.
Proof.
  destruct funded_db_invariants as (Hbalance & _ & Hpos & _).
  assert (Hrun : ∃ e db1,
             appendEntry Scenario.debit_more Scenario.funded_db = Thrown e db1)
    by (eexists _, _; vm_compute; reflexivity).
  destruct Hrun as (e & db1 & Hrun).
  split; [exact Hbalance |]. split; [exact Hpos |]. split; [reflexivity |].
  exists e, db1. split; [exact Hrun |].
  destruct (appendEntry_needs_transaction Scenario.debit_more Scenario.funded_db db1
              50001 e Hbalance Hpos eq_refl Hrun) as (Hledger & _ & Hbroken & Htx).
  split; [rewrite Hledger; vm_compute; reflexivity |]. split; [exact Hbroken |].
  exact Htx.
Defined.

(** ** verifyChain: windows and altered entries *)

Section Windows.

Implicit Types (db : DB) (e : LedgerEntry.t) (es : list LedgerEntry.t)
         (prev : option string) (n : Z).

Lemma filter_and {A} (f g : A → bool) (l : list A) :
  List.filter (λ x, f x && g x) l = List.filter g (List.filter f l).
Proof.
  induction l as [| x l IH]; [done |]. cbn.
  destruct (f x); cbn; [destruct (g x); by rewrite IH | done].
Qed.

Lemma find_and {A} (f g : A → bool) (l : list A) :
  List.find (λ x, f x && g x) l = List.find g (List.filter f l).
Proof.
  induction l as [| x l IH]; [done |]. cbn.
  destruct (f x); cbn; [destruct (g x); [done | exact IH] | exact IH].
Qed.

Lemma window_on_account (a : string) (fromSeq toSeq : option Z) db :
  List.filter (ledgerEntry_.in_window a fromSeq toSeq) (ledgerEntry db)
  = List.filter
      (λ e, match toSeq, fromSeq with
            | Some u, _ => LedgerEntry.walletSeq e <=? u
            | None, Some f => f <=? LedgerEntry.walletSeq e
            | None, None => true
            end)
      (on_account a db).
Proof. unfold on_account. rewrite <- filter_and. reflexivity. Qed.

Lemma findFirst_seq_on_account (a : string) (s : Z) db :
  ledgerEntry_.findFirst_seq a s db
  = Returned (List.find (λ e, LedgerEntry.walletSeq e =? s) (on_account a db)) db.
Proof.
  unfold ledgerEntry_.findFirst_seq, read, on_account. by rewrite <- find_and.
Qed.

(** Entries from [f] on: all of them when the chain starts at or after [f]. *)
Lemma chained_from_all prev n es (f : Z) :
  chained prev n es → f <= n + 1 →
  List.filter (λ e, f <=? LedgerEntry.walletSeq e) es = es.
Proof.
  revert prev n. induction es as [| e rest IH]; intros prev n; [done |].
  intros (Hseq & _ & _ & Hrest) Hf. cbn.
  destruct (f <=? LedgerEntry.walletSeq e) eqn:E; [| lia].
  f_equal. apply (IH _ (n + 1) Hrest). lia.
Qed.

(** The suffix from [f], with the hash findFirst reads at [f - 1]. *)
Lemma chained_from prev n es (f : Z) :
  chained prev n es → n + 1 < f →
  List.filter (λ e, f <=? LedgerEntry.walletSeq e) es ≠ [] →
  chained (LedgerEntry.entryHash <$> List.find (λ e, LedgerEntry.walletSeq e =? f - 1) es)
    (f - 1) (List.filter (λ e, f <=? LedgerEntry.walletSeq e) es).
Proof.
  revert prev n. induction es as [| e rest IH]; intros prev n; [done |].
  intros (Hseq & Hprev & Hhash & Hrest) Hf. cbn.
  destruct (f <=? LedgerEntry.walletSeq e) eqn:E; [lia |].
  destruct (LedgerEntry.walletSeq e =? f - 1) eqn:E1.
  - intros _. rewrite (chained_from_all _ _ _ f Hrest) by lia.
    cbn. replace (f - 1) with (n + 1) by lia. exact Hrest.
  - intros Hne. apply (IH _ (n + 1) Hrest); [lia | done].
Qed.

(** Entries up to [t]: a prefix, chained as the whole is. *)
Lemma chained_upto_none prev n es (t : Z) :
  chained prev n es → t < n + 1 →
  List.filter (λ e, LedgerEntry.walletSeq e <=? t) es = [].
Proof.
  revert prev n. induction es as [| e rest IH]; intros prev n; [done |].
  intros (Hseq & _ & _ & Hrest) Ht. cbn.
  destruct (LedgerEntry.walletSeq e <=? t) eqn:E; [lia |].
  apply (IH _ (n + 1) Hrest). lia.
Qed.

Lemma chained_upto prev n es (t : Z) :
  chained prev n es →
  chained prev n (List.filter (λ e, LedgerEntry.walletSeq e <=? t) es).
Proof.
  revert prev n. induction es as [| e rest IH]; intros prev n; [done |].
  intros (Hseq & Hprev & Hhash & Hrest). cbn.
  destruct (LedgerEntry.walletSeq e <=? t) eqn:E.
  - cbn. repeat split; try done. by apply IH.
  - rewrite (chained_upto_none _ _ _ t Hrest) by lia. done.
Qed.

Lemma verifyChain_entries (a : string) (fromSeq toSeq : option Z) db
      (es : list LedgerEntry.t) :
  ledgerEntry_.sort_asc (List.filter (ledgerEntry_.in_window a fromSeq toSeq) (ledgerEntry db))
  = es →
  verifyChain a fromSeq toSeq db
  = match es with
    | [] => Returned (VerifyChainResult.mk a true 0 None None None
                        "No entries found for account") db
    | _ =>
        Returned
          (verify_entries a fromSeq (Z.of_nat (length es))
             (match fromSeq with
              | Some f =>
                  if negb (f =? 0) && (1 <? f)
                  then LedgerEntry.entryHash <$>
                       List.find (λ e, LedgerEntry.walletSeq e =? f - 1) (on_account a db)
                  else None
              | None => None
              end)
             es) db
    end.
Proof.
  intros Hes. unfold verifyChain, ledgerEntry_.findMany_window.
  unfold bind at 1, read. rewrite Hes.
  destruct es as [| e rest]; [done |].
  destruct fromSeq as [f |]; [| done].
  destruct (negb (f =? 0) && (1 <? f)); [| done].
  unfold bind, ret. by rewrite findFirst_seq_on_account.
Qed.

Lemma chained_find prev n es (s : Z) :
  chained prev n es → n < s <= n + Z.of_nat (length es) →
  ∃ x, List.find (λ e, LedgerEntry.walletSeq e =? s) es = Some x.
Proof.
  revert prev n. induction es as [| e rest IH]; intros prev n; [cbn; lia |].
  intros (Hseq & _ & _ & Hrest) Hs. cbn [List.find].
  destruct (LedgerEntry.walletSeq e =? s) eqn:E; [eauto |].
  apply (IH _ (n + 1) Hrest). cbn [length] in Hs. lia.
Qed.

Lemma verify_entries_app (a : string) (fromSeq : option Z) (total : Z) prev n
      (pre rest : list LedgerEntry.t) :
  chained prev n pre →
  verify_entries a fromSeq total prev (pre ++ rest)
  = verify_entries a fromSeq total
      (from_option (λ x, Some (LedgerEntry.entryHash x)) prev (last pre)) rest.
Proof.
  revert prev n. induction pre as [| e pre IH]; intros prev n; [done |].
  intros (_ & Hprev & Hhash & Hrest). cbn [app verify_entries].
  rewrite <- Hhash, String.eqb_refl. cbn [negb].
  rewrite bool_decide_eq_true_2 by done. cbn [negb].
  rewrite (IH _ (n + 1) Hrest).
  destruct pre as [| y pre']; [done |]. rewrite last_cons_cons.
  by destruct (last (y :: pre')) eqn:E; [| apply last_None in E].
Qed.

Lemma chained_app_inv prev n (l1 l2 : list LedgerEntry.t) e :
  chained prev n (l1 ++ e :: l2) →
  chained prev n l1 ∧
  LedgerEntry.walletSeq e = n + Z.of_nat (length l1) + 1 ∧
  LedgerEntry.prevHash e = from_option (λ x, Some (LedgerEntry.entryHash x)) prev (last l1) ∧
  LedgerEntry.entryHash e
  = computeEntryHash (LedgerEntry.prevHash e) (LedgerEntry.accountId e)
      (LedgerEntry.walletSeq e) (LedgerEntry.reference e)
      (LedgerEntryType_text (LedgerEntry.entryType e))
      (Prisma.toString (LedgerEntry.amount e)) (LedgerEntry.description e).
Proof.
  revert prev n. induction l1 as [| x l1 IH]; intros prev n.
  - intros (Hseq & Hprev & Hhash & _). cbn. rewrite Hprev.
    repeat split; [lia | done].
  - intros (Hx & Hxprev & Hxhash & Hrest).
    destruct (IH _ _ Hrest) as (H1 & Hseq & Hprev & Hhash).
    split; [done |]. split; [cbn [length]; lia |]. split; [| done].
    rewrite Hprev. destruct l1 as [| y l1']; [done |]. rewrite last_cons_cons.
    by destruct (last (y :: l1')) eqn:E; [| apply last_None in E].
Qed.

Lemma chained_seqs prev n es :
  chained prev n es →
  map LedgerEntry.walletSeq es = map (λ k, n + Z.of_nat k) (seq 1 (length es)).
Proof.
  revert prev n. induction es as [| e rest IH]; intros prev n; [done |].
  intros (Hseq & _ & _ & Hrest). cbn [map length seq]. rewrite Hseq.
  replace (n + Z.of_nat 1) with (n + 1) by lia. f_equal.
  rewrite (IH _ _ Hrest). rewrite <- (seq_shift (length rest) 1), map_map.
  apply map_ext. intros k. lia.
Qed.

Lemma sort_asc_seqs (es : list LedgerEntry.t) :
  ∀ n, map LedgerEntry.walletSeq es = map (λ k, n + Z.of_nat k) (seq 1 (length es)) →
       ledgerEntry_.sort_asc es = es.
Proof.
  induction es as [| e rest IH]; intros n; [done |].
  cbn [map length seq]. intros [= Hseq Hrest].
  cbn [ledgerEntry_.sort_asc fold_right].
  change (fold_right ledgerEntry_.insert_sorted [] rest) with (ledgerEntry_.sort_asc rest).
  rewrite (IH (n + 1)).
  - destruct rest as [| x rest']; [done |]. cbn [ledgerEntry_.insert_sorted].
    cbn [map length seq] in Hrest. injection Hrest as Hx _.
    destruct (LedgerEntry.walletSeq e <? LedgerEntry.walletSeq x) eqn:E; [done | lia].
  - rewrite Hrest. rewrite <- (seq_shift (length rest) 1), map_map.
    apply map_ext. intros k. lia.
Qed.

Lemma on_account_split (a : string) db (pre post : list LedgerEntry.t) e :
  ledgerEntry db = pre ++ e :: post →
  LedgerEntry.accountId e = a →
  on_account a db
  = List.filter (λ x, bool_decide (LedgerEntry.accountId x = a)) pre ++
    e :: List.filter (λ x, bool_decide (LedgerEntry.accountId x = a)) post.
Proof.
  intros Hl Ha. unfold on_account. rewrite Hl, List.filter_app. cbn [List.filter].
  by rewrite bool_decide_eq_true_2.
Qed.

End Windows.

Lemma verifyChain_altered (a : string) (db db' : DB) (pre post : list LedgerEntry.t)
      (e e' : LedgerEntry.t) :
  ledgerEntry db = pre ++ e :: post →
  ledgerEntry db' = pre ++ e' :: post →
  LedgerEntry.accountId e = a →
  LedgerEntry.accountId e' = a →
  LedgerEntry.walletSeq e' = LedgerEntry.walletSeq e →
  chained None 0 (on_account a db) →
  verifyChain a None None db'
  = Returned
      (verify_entries a None (Z.of_nat (length (on_account a db))) (LedgerEntry.prevHash e)
         (e' :: List.filter (λ x, bool_decide (LedgerEntry.accountId x = a)) post))
      db' ∧
  LedgerEntry.entryHash e
  = computeEntryHash (LedgerEntry.prevHash e) a (LedgerEntry.walletSeq e)
      (LedgerEntry.reference e) (LedgerEntryType_text (LedgerEntry.entryType e))
      (Prisma.toString (LedgerEntry.amount e)) (LedgerEntry.description e).
Proof.
  intros Hl Hl' Ha Ha' Hseq Hchain.
  rewrite (on_account_split a db pre post e Hl Ha) in Hchain |- *.
  destruct (chained_app_inv _ _ _ _ _ Hchain) as (Hpre & _ & Hprev & Hhash).
  split; [| by rewrite <- Ha].
  assert (Hsorted :
    ledgerEntry_.sort_asc
      (List.filter (ledgerEntry_.in_window a None None) (ledgerEntry db'))
    = List.filter (λ x, bool_decide (LedgerEntry.accountId x = a)) pre ++
      e' :: List.filter (λ x, bool_decide (LedgerEntry.accountId x = a)) post).
  { rewrite window_on_account. cbn beta iota.
    assert (Hall : ∀ l : list LedgerEntry.t, List.filter (λ _, true) l = l)
      by (induction l as [| x l IH]; cbn; congruence).
    rewrite Hall, (on_account_split a db' pre post e' Hl' Ha').
    apply (sort_asc_seqs _ 0).
    pose proof (chained_seqs _ _ _ Hchain) as Hs.
    rewrite !map_app in *. cbn [map] in *. rewrite Hseq.
    rewrite !length_app in *. exact Hs. }
  rewrite (verifyChain_entries a None None db' _ Hsorted).
  destruct (List.filter _ pre ++ e' :: List.filter _ post) as [| y rest] eqn:Hne;
    [by destruct (List.filter _ pre) |].
  rewrite <- Hne. rewrite (verify_entries_app a None _ None 0 _ _ Hpre), <- Hprev.
  by rewrite !length_app.
Qed.

(** The escrow chain of the settled database is intact. *)
Lemma settled_escrow_chained :
  chained None 0 (on_account PLATFORM_ESCROW Scenario.settled_db).
Proof. vm_compute. repeat split. Qed.

(** X6. verifyChain with one bound: on an account whose chain is intact,
    verification from fromSeq on, and verification up to toSeq, both report
    a valid chain, with entriesVerified the number of entries in the
    window (none included). *)
Theorem verifyChain_one_bound (accountId : string) (db : DB) :
  chained None 0 (on_account accountId db) →
  (∀ fromSeq, ∃ result,
     verifyChain accountId (Some fromSeq) None db = Returned result db ∧
     VerifyChainResult.valid result = true ∧
     VerifyChainResult.brokenAtSeq result = None ∧
     VerifyChainResult.entriesVerified result
     = Z.of_nat (length (List.filter (λ e, fromSeq <=? LedgerEntry.walletSeq e)
                                     (on_account accountId db)))) ∧
  (∀ toSeq, ∃ result,
     verifyChain accountId None (Some toSeq) db = Returned result db ∧
     VerifyChainResult.valid result = true ∧
     VerifyChainResult.brokenAtSeq result = None ∧
     VerifyChainResult.entriesVerified result
     = Z.of_nat (length (List.filter (λ e, LedgerEntry.walletSeq e <=? toSeq)
                                     (on_account accountId db)))).
Proof.
  intros Hchain. split.
  - intros f.
    set (es := List.filter (λ e, f <=? LedgerEntry.walletSeq e) (on_account accountId db)).
    assert (Hes : ∃ prev n,
              chained prev n es ∧
              (es ≠ [] →
               prev = if negb (f =? 0) && (1 <? f)
                      then LedgerEntry.entryHash <$>
                           List.find (λ e, LedgerEntry.walletSeq e =? f - 1)
                                     (on_account accountId db)
                      else None)).
    { destruct (Z_le_gt_dec f 1) as [Hle | Hgt].
      - exists None, 0. subst es. rewrite (chained_from_all _ _ _ f Hchain) by lia.
        split; [done |]. intros _.
        destruct (1 <? f) eqn:E; [lia |]. by rewrite andb_false_r.
      - destruct es as [| e rest] eqn:Hes; [exists None, 0; done |].
        eexists _, (f - 1). split.
        + rewrite <- Hes. subst es. apply (chained_from None 0); [done | lia |].
          rewrite Hes. done.
        + intros _. destruct (f =? 0) eqn:E0; [lia |].
          destruct (1 <? f) eqn:E1; [done | lia]. }
    destruct Hes as (prev & n & Hes & Hprev).
    rewrite (verifyChain_entries accountId (Some f) None db es)
      by (rewrite window_on_account; apply (chained_sorted _ _ _ Hes)).
    destruct es as [| e rest] eqn:Heq; [eexists; done |].
    rewrite <- Hprev by done.
    rewrite (chained_verifies accountId (Some f) _ prev n (e :: rest) Hes).
    eexists. done.
  - intros t.
    pose proof (chained_upto None 0 _ t Hchain) as Hes.
    set (es := List.filter (λ e, LedgerEntry.walletSeq e <=? t) (on_account accountId db))
      in *.
    rewrite (verifyChain_entries accountId None (Some t) db es)
      by (rewrite window_on_account; apply (chained_sorted _ _ _ Hes)).
    destruct es as [| e rest] eqn:Heq; [eexists; done |].
    rewrite (chained_verifies accountId None _ None 0 (e :: rest) Hes).
    eexists. done.
Qed.

(** X6 at the escrow account after two settlements: from sequence 2 on, one
    entry is verified. *)
Lemma verifyChain_one_bound_witness :
  chained None 0 (on_account PLATFORM_ESCROW Scenario.settled_db) ∧
  ∃ result,
    verifyChain PLATFORM_ESCROW (Some 2) None Scenario.settled_db
    = Returned result Scenario.settled_db ∧
    VerifyChainResult.valid result = true ∧
    VerifyChainResult.entriesVerified result = 1.
Proof.
  split; [exact settled_escrow_chained |].
  destruct (verifyChain_one_bound PLATFORM_ESCROW Scenario.settled_db
              settled_escrow_chained) as [Hfrom _].
  destruct (Hfrom 2) as (result & Hrun & Hvalid & _ & Hcount).
  exists result. split; [exact Hrun |]. split; [exact Hvalid |].
  rewrite Hcount. vm_compute. reflexivity.
Defined.

(** X7. verifyChain with both bounds: the filter on walletSeq is built by
    two object spreads of the same key, so the upper bound replaces the
    lower one and the entries read start at sequence 1, while the expected
    previous hash is that of entry fromSeq - 1. On an intact chain, for
    every fromSeq from 2 up to one past the last entry and every toSeq from
    1 on, the chain is reported broken at sequence 1, with entriesVerified
    [1 - fromSeq], a negative number. *)
Theorem verifyChain_two_bounds (accountId : string) (db : DB) (fromSeq toSeq : Z) :
  chained None 0 (on_account accountId db) →
  2 <= fromSeq <= Z.of_nat (length (on_account accountId db)) + 1 →
  1 <= toSeq →
  ∃ result,
    verifyChain accountId (Some fromSeq) (Some toSeq) db = Returned result db ∧
    VerifyChainResult.valid result = false ∧
    VerifyChainResult.brokenAtSeq result = Some 1 ∧
    VerifyChainResult.entriesVerified result = 1 - fromSeq ∧
    (VerifyChainResult.message result = "Chain broken at sequence 1" ∨
     VerifyChainResult.message result = "Previous hash mismatch at sequence 1").
Proof.
  intros Hchain Hf Ht.
  pose proof (chained_upto None 0 _ toSeq Hchain) as Hes.
  rewrite (verifyChain_entries accountId (Some fromSeq) (Some toSeq) db _)
    by (rewrite window_on_account; apply (chained_sorted _ _ _ Hes)).
  destruct (chained_find None 0 _ (fromSeq - 1) Hchain) as [x Hx]; [lia |].
  destruct (on_account accountId db) as [| e rest] eqn:Hacc; [cbn in Hf; lia |].
  destruct Hchain as (Hseq & Hprev & _). cbn [List.filter].
  destruct (LedgerEntry.walletSeq e <=? toSeq) eqn:E; [| lia].
  destruct (fromSeq =? 0) eqn:E0; [lia |]. destruct (1 <? fromSeq) eqn:E1; [| lia].
  cbn [negb andb]. rewrite Hx. cbn [fmap option_fmap option_map verify_entries].
  rewrite Hseq, Hprev. change (Text.int_string (0 + 1)) with "1".
  destruct (negb (_ =? _)%string); [eexists; repeat split; eauto |].
  rewrite bool_decide_eq_false_2 by done. cbn [negb].
  eexists. repeat split; eauto.
Qed.

(** X7 at the same account: the window from 2 to 2 is reported broken at
    sequence 1, with -1 entries verified. *)
Lemma verifyChain_two_bounds_witness :
  chained None 0 (on_account PLATFORM_ESCROW Scenario.settled_db) ∧
  2 <= 2 <= Z.of_nat (length (on_account PLATFORM_ESCROW Scenario.settled_db)) + 1 ∧
  ∃ result,
    verifyChain PLATFORM_ESCROW (Some 2) (Some 2) Scenario.settled_db
    = Returned result Scenario.settled_db ∧
    VerifyChainResult.valid result = false ∧
    VerifyChainResult.brokenAtSeq result = Some 1 ∧
    VerifyChainResult.entriesVerified result = -1.
Proof.
  assert (Hlen : 2 <= 2 <= Z.of_nat (length (on_account PLATFORM_ESCROW
                                                  Scenario.settled_db)) + 1).
  { assert (H : length (on_account PLATFORM_ESCROW Scenario.settled_db) = 2%nat)
      by (vm_compute; reflexivity).
    rewrite H. lia. }
  split; [exact settled_escrow_chained |]. split; [exact Hlen |].
  destruct (verifyChain_two_bounds PLATFORM_ESCROW Scenario.settled_db 2 2
              settled_escrow_chained Hlen ltac:(lia))
    as (result & Hrun & Hvalid & Hbroken & Hcount & _).
  exists result. repeat (split; [assumption |]). exact Hcount.
Defined.

(** X8. verifyChain finds an altered entry: when one entry of an intact
    chain is replaced by an entry of the same account and sequence number
    whose stored hash is not the hash of its fields, verification of the
    whole account reports the chain broken at that sequence number, with the
    entries before it counted as verified and both hashes returned. *)
Theorem verifyChain_detects_altered_entry (accountId : string) (db db' : DB)
        (pre post : list LedgerEntry.t) (e e' : LedgerEntry.t) :
  ledgerEntry db = pre ++ e :: post →
  ledgerEntry db' = pre ++ e' :: post →
  LedgerEntry.accountId e = accountId →
  LedgerEntry.accountId e' = accountId →
  LedgerEntry.walletSeq e' = LedgerEntry.walletSeq e →
  chained None 0 (on_account accountId db) →
  let expected :=
    computeEntryHash (LedgerEntry.prevHash e) accountId (LedgerEntry.walletSeq e)
      (LedgerEntry.reference e') (LedgerEntryType_text (LedgerEntry.entryType e'))
      (Prisma.toString (LedgerEntry.amount e')) (LedgerEntry.description e') in
  expected ≠ LedgerEntry.entryHash e' →
  verifyChain accountId None None db'
  = Returned
      (VerifyChainResult.mk accountId false (LedgerEntry.walletSeq e - 1)
         (Some (LedgerEntry.walletSeq e)) (Some expected) (Some (LedgerEntry.entryHash e'))
         ("Chain broken at sequence " +:+ Text.int_string (LedgerEntry.walletSeq e)))
      db'.
Proof.
  intros Hl Hl' Ha Ha' Hseq Hchain expected Hdiff.
  destruct (verifyChain_altered accountId db db' pre post e e' Hl Hl' Ha Ha' Hseq Hchain)
    as [-> _].
  cbn [verify_entries]. rewrite Ha', Hseq. fold expected.
  apply String.eqb_neq in Hdiff. rewrite Hdiff. done.
Qed.

(** X8 at the first escrow credit with its amount changed from 10000 to
    9999. *)
Lemma verifyChain_detects_altered_entry_witness :
  ledgerEntry Scenario.settled_db = [] ++ Cases.paid_O1 :: [Cases.paid_O10] ∧
  ledgerEntry Cases.overstated_db = [] ++ Cases.overstated_O1 :: [Cases.paid_O10] ∧
  LedgerEntry.amount Cases.paid_O1 = 100000000 ∧
  LedgerEntry.amount Cases.overstated_O1 = 99990000 ∧
  ∃ result,
    verifyChain PLATFORM_ESCROW None None Cases.overstated_db
    = Returned result Cases.overstated_db ∧
    VerifyChainResult.valid result = false ∧
    VerifyChainResult.brokenAtSeq result = Some 1 ∧
    VerifyChainResult.message result = "Chain broken at sequence 1".
Proof.
  assert (Hl : ledgerEntry Scenario.settled_db = [] ++ Cases.paid_O1 :: [Cases.paid_O10])
    by (vm_compute; reflexivity).
  assert (Hl' : ledgerEntry Cases.overstated_db
                = [] ++ Cases.overstated_O1 :: [Cases.paid_O10]) by reflexivity.
  split; [exact Hl |]. split; [exact Hl' |].
  split; [vm_compute; reflexivity |]. split; [reflexivity |].
  eexists. split.
  - apply (verifyChain_detects_altered_entry PLATFORM_ESCROW Scenario.settled_db
             Cases.overstated_db [] [Cases.paid_O10] Cases.paid_O1 Cases.overstated_O1
             Hl Hl').
    + vm_compute. reflexivity.
    + vm_compute. reflexivity.
    + reflexivity.
    + exact settled_escrow_chained.
    + vm_compute. discriminate.
  - split; [reflexivity |]. split; vm_compute; reflexivity.
Defined.

(** X9. verifyChain finds an altered link: when only the prevHash of one
    entry of an intact chain is changed, verification of the whole account
    reports a previous hash mismatch at that sequence number, returning the
    hash it expected and the one stored (the text null for none). *)
Theorem verifyChain_detects_altered_prevHash (accountId : string) (db db' : DB)
        (pre post : list LedgerEntry.t) (e e' : LedgerEntry.t) :
  ledgerEntry db = pre ++ e :: post →
  ledgerEntry db' = pre ++ e' :: post →
  LedgerEntry.accountId e = accountId →
  chained None 0 (on_account accountId db) →
  LedgerEntry.accountId e' = LedgerEntry.accountId e →
  LedgerEntry.walletSeq e' = LedgerEntry.walletSeq e →
  LedgerEntry.reference e' = LedgerEntry.reference e →
  LedgerEntry.entryType e' = LedgerEntry.entryType e →
  LedgerEntry.amount e' = LedgerEntry.amount e →
  LedgerEntry.description e' = LedgerEntry.description e →
  LedgerEntry.entryHash e' = LedgerEntry.entryHash e →
  LedgerEntry.prevHash e' ≠ LedgerEntry.prevHash e →
  verifyChain accountId None None db'
  = Returned
      (VerifyChainResult.mk accountId false (LedgerEntry.walletSeq e - 1)
         (Some (LedgerEntry.walletSeq e))
         (Some (default "null" (LedgerEntry.prevHash e)))
         (Some (default "null" (LedgerEntry.prevHash e')))
         ("Previous hash mismatch at sequence " +:+
          Text.int_string (LedgerEntry.walletSeq e)))
      db'.
Proof.
  intros Hl Hl' Ha Hchain Ha' Hseq Href Htype Hamount Hdesc Hhash Hprev.
  rewrite Ha in Ha'.
  destruct (verifyChain_altered accountId db db' pre post e e' Hl Hl' Ha Ha' Hseq Hchain)
    as [-> Hstored].
  cbn [verify_entries]. rewrite Ha', Hseq, Href, Htype, Hamount, Hdesc, Hhash.
  rewrite <- Hstored, String.eqb_refl. cbn [negb].
  rewrite bool_decide_eq_false_2 by done. done.
Qed.

(** X9 at the second escrow credit with its prevHash replaced by its own
    hash. *)
Lemma verifyChain_detects_altered_prevHash_witness :
  ledgerEntry Scenario.settled_db = [Cases.paid_O1] ++ Cases.paid_O10 :: [] ∧
  ledgerEntry Cases.relinked_db = [Cases.paid_O1] ++ Cases.relinked_O10 :: [] ∧
  LedgerEntry.prevHash Cases.relinked_O10 ≠ LedgerEntry.prevHash Cases.paid_O10 ∧
  ∃ result,
    verifyChain PLATFORM_ESCROW None None Cases.relinked_db
    = Returned result Cases.relinked_db ∧
    VerifyChainResult.valid result = false ∧
    VerifyChainResult.entriesVerified result = 1 ∧
    VerifyChainResult.message result = "Previous hash mismatch at sequence 2".
Proof.
  assert (Hl : ledgerEntry Scenario.settled_db = [Cases.paid_O1] ++ Cases.paid_O10 :: [])
    by (vm_compute; reflexivity).
  assert (Hl' : ledgerEntry Cases.relinked_db
                = [Cases.paid_O1] ++ Cases.relinked_O10 :: []) by reflexivity.
  assert (Hprev : LedgerEntry.prevHash Cases.relinked_O10
                  ≠ LedgerEntry.prevHash Cases.paid_O10)
    by (vm_compute; discriminate).
  split; [exact Hl |]. split; [exact Hl' |]. split; [exact Hprev |].
  eexists. split.
  - apply (verifyChain_detects_altered_prevHash PLATFORM_ESCROW Scenario.settled_db
             Cases.relinked_db [Cases.paid_O1] [] Cases.paid_O10 Cases.relinked_O10
             Hl Hl');
      [vm_compute; reflexivity | exact settled_escrow_chained
       | vm_compute; reflexivity .. | exact Hprev].
  - split; [reflexivity |]. split; vm_compute; reflexivity.
Defined.

(** ** The format of hashes, references and idempotency keys *)

Section HashFormat.

Lemma hex_char_lower (d : Z) : 0 <= d < 16 → lower_hex (Text.hex_char d) = true.
Proof.
  intros Hd.
  assert (H : d = 0 ∨ d = 1 ∨ d = 2 ∨ d = 3 ∨ d = 4 ∨ d = 5 ∨ d = 6 ∨ d = 7 ∨ d = 8 ∨
              d = 9 ∨ d = 10 ∨ d = 11 ∨ d = 12 ∨ d = 13 ∨ d = 14 ∨ d = 15) by lia.
  repeat destruct H as [-> | H]; try subst d; reflexivity.
Qed.

Lemma hex_digits_chars (n : nat) :
  ∀ x acc,
    list_ascii_of_string (SHA256.hex_digits n x acc)
    = list_ascii_of_string (SHA256.hex_digits n x EmptyString) ++ list_ascii_of_string acc.
Proof.
  induction n as [| n IH]; intros x acc; [done |]. cbn [SHA256.hex_digits].
  rewrite (IH _ (String _ acc)), (IH _ (String _ EmptyString)). cbn.
  by rewrite <- app_assoc.
Qed.

Lemma hex_digits_format (n : nat) :
  ∀ x, length (list_ascii_of_string (SHA256.hex_digits n x EmptyString)) = n ∧
       forallb lower_hex (list_ascii_of_string (SHA256.hex_digits n x EmptyString)) = true.
Proof.
  induction n as [| n IH]; intros x; [done |]. cbn [SHA256.hex_digits].
  rewrite hex_digits_chars. destruct (IH (x / 16)) as [Hlen Hhex].
  rewrite length_app, forallb_app, Hlen, Hhex. cbn.
  rewrite hex_char_lower by (apply Z.mod_pos_bound; lia). split; [lia | done].
Qed.

Lemma digest_length (msg : list Z) : length (SHA256.digest msg) = 8%nat.
Proof.
  unfold SHA256.digest.
  generalize (SHA256.blocks (length (SHA256.words (SHA256.pad msg)) `div` 16)
                (SHA256.words (SHA256.pad msg))).
  intros bs. assert (H0 : length SHA256.H0 = 8%nat) by reflexivity.
  revert H0. generalize SHA256.H0. induction bs as [| b bs IH]; intros h Hh; [done |].
  cbn [fold_left]. apply IH. reflexivity.
Qed.

Lemma hex_words_format (ws : list Z) :
  let s := fold_right (λ w acc, SHA256.hex_digits 8 w acc) EmptyString ws in
  length (list_ascii_of_string s) = (8 * length ws)%nat ∧
  forallb lower_hex (list_ascii_of_string s) = true.
Proof.
  induction ws as [| w ws [IHlen IHhex]]; [done |]. cbn [fold_right].
  rewrite (hex_digits_chars 8 w (fold_right _ _ ws)).
  destruct (hex_digits_format 8 w) as [Hlen Hhex].
  rewrite length_app, forallb_app, Hlen, Hhex, IHlen, IHhex. cbn [length]. split; [lia | done].
Qed.

Lemma hex_format (s : string) :
  length (list_ascii_of_string (SHA256.hex s)) = 64%nat ∧
  forallb lower_hex (list_ascii_of_string (SHA256.hex s)) = true.
Proof.
  unfold SHA256.hex. destruct (hex_words_format (SHA256.digest (Text.bytes s))) as [Hlen Hhex].
  rewrite digest_length in Hlen. done.
Qed.

End HashFormat.

Lemma string_length_chars (s : string) :
  String.length s = length (list_ascii_of_string s).
Proof. induction s as [| c s IH]; cbn; congruence. Qed.

Lemma substring_append (p s : string) :
  String.substring (String.length p) (String.length (p +:+ s) - String.length p) (p +:+ s) = s.
Proof.
  induction p as [| c p IH].
  - change (EmptyString +:+ s) with s. cbn [String.length]. rewrite Nat.sub_0_r.
    induction s as [| c s IHs]; [done |]. cbn. by rewrite IHs.
  - change (String c p +:+ s) with (String c (p +:+ s)). cbn. exact IH.
Qed.

Lemma startsWith_append (p s : string) : Text.startsWith (p +:+ s) p = true.
Proof.
  unfold Text.startsWith. induction p as [| c p IH]; [by destruct s |].
  change (String c p +:+ s) with (String c (p +:+ s)). cbn.
  by destruct (Ascii.ascii_dec c c).
Qed.

Lemma startsWith_inv (p r : string) :
  Text.startsWith r p = true → ∃ s, r = p +:+ s.
Proof.
  unfold Text.startsWith. revert r. induction p as [| c p IH]; intros r.
  - intros _. by exists r.
  - destruct r as [| c' r]; [done |]. cbn.
    destruct (Ascii.ascii_dec c c') as [<- |]; [| done].
    intros H. destruct (IH r H) as [s ->]. by exists s.
Qed.

Lemma chars_append (s t : string) :
  list_ascii_of_string (s +:+ t) = list_ascii_of_string s ++ list_ascii_of_string t.
Proof.
  induction s as [| c s IH]; [done |].
  change (String c s +:+ t) with (String c (s +:+ t)). cbn. by rewrite IH.
Qed.

Lemma isValidReference_append (s t : string) :
  (String.length s + String.length t ≠ 0)%nat →
  isValidReference (s +:+ t)
  = forallb reference_char (list_ascii_of_string s) &&
    forallb reference_char (list_ascii_of_string t).
Proof.
  intros Hlen. unfold isValidReference. rewrite chars_append, forallb_app.
  destruct (String.eqb (s +:+ t) EmptyString) eqn:E; [| done].
  apply String.eqb_eq in E. apply (f_equal String.length) in E.
  rewrite append_length in E. cbn in E. lia.
Qed.

Lemma digits_of_reference (fuel : nat) :
  ∀ n acc, 0 <= n →
    forallb reference_char (list_ascii_of_string acc) = true →
    forallb reference_char (list_ascii_of_string (Text.digits_of fuel n acc)) = true.
Proof.
  induction fuel as [| fuel IH]; intros n acc Hn Hacc; [done |].
  cbn [Text.digits_of].
  assert (Hd : reference_char (Text.digit_char (n mod 10)) = true).
  { pose proof (Z.mod_pos_bound n 10 ltac:(lia)) as Hm.
    assert (H : n mod 10 = 0 ∨ n mod 10 = 1 ∨ n mod 10 = 2 ∨ n mod 10 = 3 ∨ n mod 10 = 4 ∨
                n mod 10 = 5 ∨ n mod 10 = 6 ∨ n mod 10 = 7 ∨ n mod 10 = 8 ∨ n mod 10 = 9)
      by lia.
    repeat destruct H as [-> | H]; try rewrite H; reflexivity. }
  destruct (n <? 10).
  - cbn. by rewrite Hd.
  - apply IH; [apply Z.div_pos; lia |]. cbn. by rewrite Hd.
Qed.

Lemma int_string_reference (n : Z) :
  forallb reference_char (list_ascii_of_string (Text.int_string n)) = (0 <=? n).
Proof.
  unfold Text.int_string. destruct (n <? 0) eqn:E.
  - rewrite chars_append. cbn. destruct (0 <=? n) eqn:E'; [lia | done].
  - unfold Text.nat_string. rewrite digits_of_reference by (done || lia).
    destruct (0 <=? n) eqn:E'; [done | lia].
Qed.

Lemma chars_substring (n : nat) :
  ∀ s, list_ascii_of_string (String.substring 0 n s) = take n (list_ascii_of_string s).
Proof.
  induction n as [| n IH]; intros s; [by destruct s |].
  destruct s as [| c s]; [done |]. cbn. by rewrite IH.
Qed.

Lemma forallb_take {A} (f : A → bool) (n : nat) :
  ∀ l, forallb f l = true → forallb f (take n l) = true.
Proof.
  induction n as [| n IH]; intros l; [done |].
  destruct l as [| x l]; [done |]. cbn.
  destruct (f x); [apply IH | done].
Qed.

Lemma string_append_assoc (s t u : string) : (s +:+ t) +:+ u = s +:+ t +:+ u.
Proof.
  induction s as [| c s IH]; [done |].
  change (String c s +:+ t) with (String c (s +:+ t)).
  change (String c (s +:+ t) +:+ u) with (String c ((s +:+ t) +:+ u)).
  change (String c s +:+ t +:+ u) with (String c (s +:+ t +:+ u)).
  by rewrite IH.
Qed.

(** X10. computeEntryHash returns 64 characters, each a digit or one of a
    to f, whatever the fields. *)
Theorem computeEntryHash_format (prevHash : option string) (accountId : string)
        (walletSeq : Z) (reference entryType amount : string) (description : option string) :
  let h := computeEntryHash prevHash accountId walletSeq reference entryType amount
             description in
  String.length h = 64%nat ∧
  forallb lower_hex (list_ascii_of_string h) = true.
Proof.
  intros h. subst h. unfold computeEntryHash. rewrite string_length_chars.
  apply hex_format.
Qed.

(** X11. extractOrderIdFromPaymentRef undoes generatePaymentReference: it
    returns an order id exactly for the references generatePaymentReference
    makes from a non-empty order id without line terminator, and then
    returns that order id; every other text gives null. *)
Theorem extractOrderIdFromPaymentRef_inverse (reference orderId : string) :
  extractOrderIdFromPaymentRef reference = Some orderId ↔
  reference = generatePaymentReference orderId ∧
  orderId ≠ EmptyString ∧
  has_line_terminator orderId = false.
Proof.
  unfold extractOrderIdFromPaymentRef, generatePaymentReference. split.
  - destruct (Text.startsWith reference "PAYMENT_") eqn:Hp; [| done].
    destruct (startsWith_inv _ _ Hp) as [s ->].
    pose proof (substring_append "PAYMENT_" s) as Hs. cbn [String.length] in Hs.
    rewrite Hs.
    destruct (String.eqb s EmptyString) eqn:E; [done |].
    destruct (has_line_terminator s) eqn:El; [done |].
    intros [= <-]. split; [done |]. split; [| done].
    intros ->. by rewrite String.eqb_refl in E.
  - intros (-> & Hne & Hl). rewrite startsWith_append.
    pose proof (substring_append "PAYMENT_" orderId) as Hs. cbn [String.length] in Hs.
    rewrite Hs, Hl. apply String.eqb_neq in Hne. by rewrite Hne.
Qed.

(** X12. isValidReference on the references the system makes: a payment
    reference is valid exactly when the order id is made of A-Z, 0-9 and _
    (the empty one included); a discount reference, and the reference of the
    subsidy credit of a settlement, exactly when the payment reference is;
    a refund reference, for a sequence up to 2^53 - 1 in magnitude, exactly
    when the payment intent id is and the sequence is not negative. The
    marketing debit of a settlement carries the reference
    generateDiscountReference makes. *)
Theorem isValidReference_minted :
  (∀ orderId,
     isValidReference (generatePaymentReference orderId)
     = forallb reference_char (list_ascii_of_string orderId)) ∧
  (∀ paymentReference,
     isValidReference (generateDiscountReference paymentReference)
     = forallb reference_char (list_ascii_of_string paymentReference)) ∧
  (∀ paymentIntentId sequence,
     Z.abs sequence <= 9007199254740991 →
     isValidReference (generateRefundReference paymentIntentId sequence)
     = forallb reference_char (list_ascii_of_string paymentIntentId) && (0 <=? sequence)) ∧
  (∀ intent,
     AppendEntryParams.reference (marketing_params intent)
     = generateDiscountReference (PaymentIntent.reference intent) ∧
     isValidReference (AppendEntryParams.reference (subsidy_params intent))
     = forallb reference_char (list_ascii_of_string (PaymentIntent.reference intent))).
Proof.
  split; [| split; [| split]].
  - intros orderId. unfold generatePaymentReference.
    rewrite isValidReference_append by (cbn; lia). done.
  - intros r. unfold generateDiscountReference.
    rewrite isValidReference_append by (cbn; lia). cbn. by rewrite andb_true_r.
  - intros id k _. unfold generateRefundReference.
    rewrite isValidReference_append by (cbn; lia).
    rewrite !chars_append, !forallb_app, int_string_reference. cbn. done.
  - intros intent. split; [reflexivity |].
    cbn [subsidy_params AppendEntryParams.reference].
    rewrite isValidReference_append by (cbn; lia).
    rewrite chars_append, forallb_app. cbn. by rewrite !andb_true_r.
Qed.

(** X13. generateIdempotencyKey returns 32 lowercase hexadecimal characters.
    The parts are joined with a bar that is not escaped: a part holding a
    bar gives the key of the two parts it splits into, and a number gives
    the key of its decimal text. *)
Theorem generateIdempotencyKey_format_and_collisions :
  (∀ parts,
     String.length (generateIdempotencyKey parts) = 32%nat ∧
     forallb lower_hex (list_ascii_of_string (generateIdempotencyKey parts)) = true) ∧
  (∀ a b rest,
     generateIdempotencyKey (KeyStr (a +:+ "|" +:+ b) :: rest)
     = generateIdempotencyKey (KeyStr a :: KeyStr b :: rest)) ∧
  (∀ n rest,
     Z.abs n <= 9007199254740991 →
     generateIdempotencyKey (KeyNum n :: rest)
     = generateIdempotencyKey (KeyStr (Text.int_string n) :: rest)).
Proof.
  split; [| split].
  - intros parts. unfold generateIdempotencyKey.
    rewrite string_length_chars, chars_substring.
    destruct (hex_format (StringMethods.join "|" (map KeyPart_text parts))) as [Hlen Hhex].
    split; [rewrite length_take, Hlen; reflexivity | by apply forallb_take].
  - intros a b rest. unfold generateIdempotencyKey. f_equal. f_equal.
    destruct rest as [| r rest]; [done |].
    cbn [map StringMethods.join KeyPart_text]. by rewrite !string_append_assoc.
  - intros n rest _. reflexivity.
Qed.

(** X14. executeOnce runs an operation at most once per key. After a call
    that returned, the key is known to the context; [executed] and [cached]
    say whether this call ran the operation; every later call with the key
    returns the same result as cached and runs nothing, whatever operation
    it is given; a key not seen before still runs its operation. *)
Theorem executeOnce_at_most_once {T} (key : string) (operation : Tx T)
        (cache cache1 : IdempotentContext.t T) (db db1 : DB) (r : IdempotentResult.t T) :
  IdempotentContext.executeOnce key operation cache db = (cache1, Returned r db1) →
  IdempotentContext.has key cache1 = true ∧
  (IdempotentResult.executed r = negb (IdempotentContext.has key cache) ∧
   IdempotentResult.cached r = IdempotentContext.has key cache) ∧
  (∀ (later : Tx T) (db2 : DB),
     IdempotentContext.executeOnce key later cache1 db2
     = (cache1, Returned (IdempotentResult.mk false (IdempotentResult.result r) true) db2)) ∧
  (∀ key' (other : Tx T) (db2 : DB),
     key' ≠ key → cache !! key' = None →
     IdempotentContext.executeOnce key' other cache1 db2
     = match other db2 with
       | Returned x db3 =>
           (<[key' := x]> cache1, Returned (IdempotentResult.mk true x false) db3)
       | Thrown e db3 => (cache1, Thrown e db3)
       end).
Proof.
  unfold IdempotentContext.executeOnce, IdempotentContext.has, IdempotentContext.t in *.
  intros Hrun.
  destruct (cache !! key) as [x |] eqn:Hc.
  - injection Hrun as <- <- <-. rewrite Hc.
    rewrite bool_decide_eq_true_2 by eauto. repeat split; try done.
    intros key' other db2 Hne Hnone. by rewrite Hnone.
  - destruct (operation db) as [x db' | e db']; [| discriminate].
    injection Hrun as <- <- <-. rewrite lookup_insert_eq.
    rewrite bool_decide_eq_true_2 by eauto.
    rewrite bool_decide_eq_false_2 by (intros [? ?]; discriminate).
    repeat split; try done.
    intros key' other db2 Hne Hnone. by rewrite lookup_insert_ne, Hnone.
Qed.

(** X14 at a fresh context and an operation that returns 1. *)
Lemma executeOnce_at_most_once_witness :
  IdempotentContext.executeOnce "k" (ret 1) IdempotentContext.create empty_db
  = (<["k" := 1]> ∅, Returned (IdempotentResult.mk true 1 false) empty_db) ∧
  IdempotentContext.executeOnce "k" (ret 2) (<["k" := 1]> ∅) Scenario.funded_db
  = (<["k" := 1]> ∅, Returned (IdempotentResult.mk false 1 true) Scenario.funded_db).
Proof.
  assert (Hrun : IdempotentContext.executeOnce "k" (ret 1) IdempotentContext.create
                   empty_db
                 = (<["k" := 1]> ∅, Returned (IdempotentResult.mk true 1 false) empty_db))
    by reflexivity.
  split; [exact Hrun |].
  destruct (executeOnce_at_most_once "k" (ret 1) IdempotentContext.create (<["k" := 1]> ∅)
              empty_db empty_db _ Hrun) as (_ & _ & Hlater & _).
  exact (Hlater (ret 2) Scenario.funded_db).
Defined.

(** X15. executeOnce caches nothing when the operation throws: the
    exception is the operation's own, the context is as before, the key is
    still unknown, and a later call with the key runs its operation. *)
Theorem executeOnce_throw_not_cached {T} (key : string) (operation : Tx T)
        (cache cache1 : IdempotentContext.t T) (db db1 : DB) (e : Exception) :
  IdempotentContext.executeOnce key operation cache db = (cache1, Thrown e db1) →
  cache1 = cache ∧
  IdempotentContext.has key cache1 = false ∧
  operation db = Thrown e db1 ∧
  (∀ (retry : Tx T) (db2 : DB) x db3,
     retry db2 = Returned x db3 →
     IdempotentContext.executeOnce key retry cache1 db2
     = (<[key := x]> cache1, Returned (IdempotentResult.mk true x false) db3)).
Proof.
  unfold IdempotentContext.executeOnce, IdempotentContext.has, IdempotentContext.t in *.
  intros Hrun.
  destruct (cache !! key) as [x |] eqn:Hc; [discriminate |].
  destruct (operation db) as [x db' | e' db'] eqn:Hop; [discriminate |].
  injection Hrun as <- <- <-. rewrite Hc.
  rewrite bool_decide_eq_false_2 by (intros [? ?]; discriminate).
  repeat split; try done. intros retry db2 x db3 ->. done.
Qed.

(** X15 at a fresh context and an operation that throws. *)
Lemma executeOnce_throw_not_cached_witness :
  IdempotentContext.executeOnce "k" (throw (Error "down")) (IdempotentContext.create (T := Z))
    empty_db
  = (∅, Thrown (Error "down") empty_db) ∧
  IdempotentContext.has "k" (IdempotentContext.create (T := Z)) = false.
Proof.
  assert (Hrun : IdempotentContext.executeOnce "k" (throw (Error "down"))
                   (IdempotentContext.create (T := Z)) empty_db
                 = (∅, Thrown (Error "down") empty_db)) by reflexivity.
  split; [exact Hrun |].
  destruct (executeOnce_throw_not_cached "k" (throw (Error "down"))
              (IdempotentContext.create (T := Z)) ∅ empty_db empty_db _ Hrun)
    as (_ & Hunknown & _).
  exact Hunknown.
Defined.

(** ** Settlement: what it writes, and settling again *)

Section SettlementAgain.

Implicit Types (db : DB) (intent : PaymentIntent.t) (id : string).

Lemma update_status_returned id (status : PaymentIntentStatus.t) db db' :
  paymentIntent_.update_status id status db = Returned tt db' →
  ∃ x, intent_of id db = Some x ∧ db' = set_status id status db.
Proof.
  unfold paymentIntent_.update_status, paymentIntent_.findUnique_id, intent_of.
  tx_unfold. destruct (List.find _ (paymentIntent db)) as [x |]; [| discriminate].
  intros [= <-]. eauto.
Qed.

(** What a returned append leaves in the ledger for the caller: the entry
    returned is stored under the reference asked for, nothing stored before
    is lost, and the intents are not touched. *)
Lemma appendEntry_result_stored (p : AppendEntryParams.t) db (r : AppendEntryResult.t)
      (db1 : DB) :
  appendEntry p db = Returned r db1 →
  (∃ e, In e (ledgerEntry db1) ∧ r = AppendEntryResult.of_entry e ∧
        LedgerEntry.reference e = AppendEntryParams.reference p) ∧
  (∀ x, In x (ledgerEntry db) → In x (ledgerEntry db1)) ∧
  paymentIntent db1 = paymentIntent db.
Proof.
  intros Hret. destruct (appendEntry_returned p db r db1 Hret) as (d & _ & Hcase).
  destruct Hcase as [(existing & Hst & -> & ->) | (_ & -> & row & -> & _)].
  - split; [| done]. exists existing. unfold stored in Hst.
    destruct (List.find_some _ _ Hst) as [Hin Hm]. split; [done |]. split; [done |].
    unfold ledgerEntry_.matches in Hm. apply andb_prop in Hm as [_ Hm].
    by apply bool_decide_eq_true_1 in Hm.
  - db_simpl. split; [| split; [| done]].
    + eexists. split; [apply in_or_app; right; left; reflexivity |]. done.
    + intros x Hx. apply in_or_app. by left.
Qed.

Lemma startsWith_refl (s : string) : Text.startsWith s s = true.
Proof.
  unfold Text.startsWith. induction s as [| c s IH]; [done |]. cbn.
  by destruct (Ascii.ascii_dec c c).
Qed.

(** The prefix is a pattern: the underscore of PAYMENT_O1 stands for any
    character, and a backslash takes the next character literally, so that
    a reference holding one does not match itself. *)
Example like_prefix_is_a_pattern :
  Sql.like_prefix "PAYMENT_O1" "PAYMENT_O10" = true ∧
  Sql.like_prefix "PAYMENT_O1" "PAYMENT-O1_DISC" = true ∧
  Sql.like_prefix "PAYMENT_O1" "PAYMENT_O2" = false ∧
  Sql.like_prefix "PAYMENT_a\b" "PAYMENT_a\b" = false ∧
  Sql.like_prefix "PAYMENT_50%" "PAYMENT_50_OFF" = true.
Proof. evaluate. Qed.






Lemma settlePayment_cases id db :
  (∃ e, settlePayment id db = Thrown e db) ∨
  (∃ intent,
     intent_of id db = Some intent ∧
     PaymentIntent.status intent = PaymentIntentStatus.SETTLED ∧
     settlePayment id db
     = Returned
         (SettlementResult.mk true id (PaymentIntent.reference intent)
            (map AppendEntryResult.of_entry
               (List.filter
                  (λ e, Sql.like_prefix (PaymentIntent.reference intent)
                          (LedgerEntry.reference e))
                  (ledgerEntry db)))
            "Payment already settled")
         db) ∨
  (∃ intent entries db',
     intent_of id db = Some intent ∧
     PaymentIntent.status intent = PaymentIntentStatus.CONFIRMING ∧
     settlePayment id db
     = Returned (SettlementResult.mk true id (PaymentIntent.reference intent) entries
                   "Payment settled successfully") db' ∧
     intent_of id db'
     = Some (PaymentIntent.with_status PaymentIntentStatus.SETTLED intent) ∧
     (∀ x, In x (ledgerEntry db) → In x (ledgerEntry db')) ∧
     (∀ r, In r entries →
           ∃ e, In e (ledgerEntry db') ∧ r = AppendEntryResult.of_entry e ∧
                Text.startsWith (LedgerEntry.reference e) (PaymentIntent.reference intent)
                = true)).
Proof.
  destruct (intent_of id db) as [intent |] eqn:Hfound.
  2: { left. unfold settlePayment, transaction, settle_callback,
         paymentIntent_.findUnique_id.
       unfold intent_of in Hfound. unfold bind at 1, read. rewrite Hfound. eauto. }
  destruct (decide (PaymentIntent.status intent = PaymentIntentStatus.SETTLED)) as [Hs | Hs].
  { right. left. exists intent. split; [done |]. split; [done |].
    by apply settlePayment_settled. }
  destruct (decide (PaymentIntent.status intent = PaymentIntentStatus.CONFIRMING))
    as [Hc | Hc].
  2: { left. unfold settlePayment, transaction, settle_callback,
         paymentIntent_.findUnique_id.
       unfold intent_of in Hfound. unfold bind at 1, read. rewrite Hfound.
       rewrite (bool_decide_eq_false_2 _ Hs), (bool_decide_eq_false_2 _ Hc). eauto. }
  unfold settlePayment, transaction.
  rewrite (settle_callback_confirming id db intent Hfound Hc).
  destruct (appendEntry (primary_params intent) db) as [r1 db1 | e db1] eqn:H1;
    [| left; eauto].
  destruct (appendEntry_result_stored _ _ _ _ H1) as ((e1 & Hin1 & Hr1 & Href1) & Hmono1 & Hi1).
  assert (Hk1 : intent_of id db1 = Some intent) by (unfold intent_of in *; by rewrite Hi1).
  destruct (0 <? PaymentIntent.discountAmount intent).
  - destruct (appendEntry (marketing_params intent) db1) as [r2 db2 | e db2] eqn:H2;
      [| left; eauto].
    destruct (appendEntry_result_stored _ _ _ _ H2)
      as ((e2 & Hin2 & Hr2 & Href2) & Hmono2 & Hi2).
    destruct (appendEntry (subsidy_params intent) db2) as [r3 db3 | e db3] eqn:H3;
      [| left; eauto].
    destruct (appendEntry_result_stored _ _ _ _ H3)
      as ((e3 & Hin3 & Hr3 & Href3) & Hmono3 & Hi3).
    assert (Hk3 : intent_of id db3 = Some intent)
      by (unfold intent_of in *; by rewrite Hi3, Hi2).
    rewrite (update_status_found id _ db3 intent Hk3).
    right. right. exists intent, [r1; r2; r3], (set_status id PaymentIntentStatus.SETTLED db3).
    split; [done |]. split; [done |]. split; [done |].
    split; [by apply intent_of_set_status |].
    split; [intros x Hx; by apply Hmono3, Hmono2, Hmono1 |].
    intros r [<- | [<- | [<- | []]]].
    + exists e1. split; [by apply Hmono3, Hmono2 |]. split; [done |].
      rewrite Href1. apply startsWith_refl.
    + exists e2. split; [by apply Hmono3 |]. split; [done |].
      rewrite Href2. apply startsWith_append.
    + exists e3. split; [done |]. split; [done |].
      rewrite Href3. cbn [subsidy_params AppendEntryParams.reference].
      rewrite string_append_assoc. apply startsWith_append.
  - rewrite (update_status_found id _ db1 intent Hk1).
    right. right. exists intent, [r1], (set_status id PaymentIntentStatus.SETTLED db1).
    split; [done |]. split; [done |]. split; [done |].
    split; [by apply intent_of_set_status |]. split; [done |].
    intros r [<- | []]. exists e1. split; [done |]. split; [done |].
    rewrite Href1. apply startsWith_refl.
Qed.

End SettlementAgain.

Lemma settlePayment_preserves (P : DB → Prop) :
  (∀ p r db db', P db → appendEntry p db = Returned r db' → P db') →
  (∀ id status db, P db → P (set_status id status db)) →
  ∀ id db, P db → P (final_db (settlePayment id db)).
Proof.
  intros Happend Hstatus id db HP. unfold settlePayment, transaction.
  destruct (settle_callback id db) as [res0 db0 | e db0] eqn:Hcb; [| done].
  cbn [final_db].
  destruct (intent_of id db) as [intent |] eqn:Hfound.
  2: { unfold settle_callback, paymentIntent_.findUnique_id in Hcb.
       unfold intent_of in Hfound. unfold bind at 1, read in Hcb.
       rewrite Hfound in Hcb. discriminate. }
  destruct (decide (PaymentIntent.status intent = PaymentIntentStatus.CONFIRMING))
    as [Hc | Hother].
  - rewrite (settle_callback_confirming id db intent Hfound Hc) in Hcb.
    destruct (appendEntry (primary_params intent) db) as [r1 db1 | e db1] eqn:H1;
      [| discriminate].
    pose proof (Happend _ _ _ _ HP H1) as HP1.
    assert (Hupdate : ∀ dbk db4,
              P dbk →
              paymentIntent_.update_status id PaymentIntentStatus.SETTLED dbk
              = Returned tt db4 →
              P db4).
    { intros dbk db4 Hk Hup.
      destruct (update_status_returned _ _ _ _ Hup) as (x & _ & ->). by apply Hstatus. }
    destruct (0 <? PaymentIntent.discountAmount intent).
    + destruct (appendEntry (marketing_params intent) db1) as [r2 db2 | e db2] eqn:H2;
        [| discriminate].
      destruct (appendEntry (subsidy_params intent) db2) as [r3 db3 | e db3] eqn:H3;
        [| discriminate].
      destruct (paymentIntent_.update_status id PaymentIntentStatus.SETTLED db3)
        as [[] db4 | e db4] eqn:H4; [| discriminate].
      injection Hcb as _ <-. apply (Hupdate db3 db4); [| done].
      eapply Happend; [| exact H3]. eapply Happend; [| exact H2]. done.
    + destruct (paymentIntent_.update_status id PaymentIntentStatus.SETTLED db1)
        as [[] db4 | e db4] eqn:H4; [| discriminate].
      injection Hcb as _ <-. by apply (Hupdate db1 db4).
  - unfold settle_callback, paymentIntent_.findUnique_id,
      ledgerEntry_.findMany_startsWith in Hcb.
    unfold intent_of in Hfound. unfold bind at 1, read in Hcb. rewrite Hfound in Hcb.
    destruct (bool_decide (PaymentIntent.status intent = PaymentIntentStatus.SETTLED)).
    + tx_unfold. by injection Hcb as _ <-.
    + rewrite bool_decide_eq_false_2 in Hcb by done. discriminate.
Qed.

(** X16. settlePayment writes only when it settles: whatever it returns or
    throws, the database it leaves is the database it found, unless the
    intent was CONFIRMING and the call returned with the message of a
    successful settlement and the intent SETTLED. *)
Theorem settlePayment_writes_only_when_settling (intentId : string) (db : DB) :
  let db' := final_db (settlePayment intentId db) in
  db' = db ∨
  ∃ intent res,
    intent_of intentId db = Some intent ∧
    PaymentIntent.status intent = PaymentIntentStatus.CONFIRMING ∧
    settlePayment intentId db = Returned res db' ∧
    SettlementResult.message res = "Payment settled successfully" ∧
    intent_of intentId db'
    = Some (PaymentIntent.with_status PaymentIntentStatus.SETTLED intent).
Proof.
  intros db'. subst db'.
  destruct (settlePayment_cases intentId db)
    as [(e & ->) | [(intent & _ & _ & ->) | (intent & entries & db' & Hf & Hc & -> & Hi & _)]];
    [by left | by left |].
  right. eexists intent, _. cbn [final_db]. repeat split; done.
Qed.



(** X18. settlePayment keeps the invariants of the ledger, whether it
    returns or throws: cached balances equal to the balance of the ledger,
    cached lastEntrySeq equal to the last walletSeq, dense sequence numbers
    with linked hashes, and no two entries under one (accountId,
    reference). *)
Theorem settlePayment_keeps_ledger_invariants (intentId : string) (db : DB) :
  let db' := final_db (settlePayment intentId db) in
  (cache_matches_ledger db → cache_matches_ledger db') ∧
  (cache_tracks_tail db → cache_tracks_tail db') ∧
  (well_sequenced db → well_sequenced db') ∧
  (references_unique db → references_unique db').
Proof.
  intros db'. subst db'. split; [| split; [| split]].
  - apply (settlePayment_preserves cache_matches_ledger).
    + intros p r d0 d1 H0 H1. by apply (cache_balance_appended p d0 d1 r).
    + intros id status d0. apply set_status_invariants.
  - apply (settlePayment_preserves cache_tracks_tail).
    + intros p r d0 d1 H0 H1. by apply (last_entry_seq_appended p d0 d1 r).
    + intros id status d0. apply set_status_invariants.
  - apply (settlePayment_preserves well_sequenced).
    + intros p r d0 d1 H0 H1. by apply (sequence_appended p d0 d1 r).
    + intros id status d0. apply set_status_invariants.
  - apply (settlePayment_preserves references_unique).
    + intros p r d0 d1 H0 H1.
      pose proof (references_unique_appended p d0 H0) as H. by rewrite H1 in H.
    + intros id status d0. apply set_status_invariants.
Qed.

(** ** Webhook replay and the ops service *)

Section Frames.

Lemma same_books_refl db : same_books db db.
Proof. done. Qed.

Lemma same_books_trans db1 db2 db3 :
  same_books db1 db2 → same_books db2 db3 → same_books db1 db3.
Proof. intros (? & ? & ?) (? & ? & ?). repeat split; congruence. Qed.

Lemma same_books_bind {A B} (m : Tx A) (k : A → Tx B) db :
  same_books db (final_db (m db)) →
  (∀ a db1, same_books db1 (final_db (k a db1))) →
  same_books db (final_db (bind m k db)).
Proof.
  intros Hm Hk. unfold bind. destruct (m db) as [a db1 | e db1]; [| done].
  eapply same_books_trans; [exact Hm | apply Hk].
Qed.

Lemma same_books_update (id : string) (data : WebhookInbox.t → WebhookInbox.t) db :
  same_books db (final_db (webhookInbox_.update id data db)).
Proof.
  unfold webhookInbox_.update, webhookInbox_.findUnique_id. tx_unfold.
  by destruct (List.find _ (webhookInbox db)).
Qed.

Lemma same_books_create (mk_row : string → WebhookInbox.t) db :
  same_books db (final_db (webhookInbox_.create mk_row db)).
Proof.
  unfold webhookInbox_.create, webhookInbox_.findUnique. tx_unfold. cbn.
  by destruct (List.find _ (webhookInbox db)).
Qed.

Lemma same_books_trigger (reference : option string) (id : string) db :
  same_books db (final_db (triggerSettlement reference id db)).
Proof. unfold triggerSettlement. by destruct (negb _). Qed.

End Frames.

Section Replay.

Implicit Types (rt : Runtime) (db : DB) (w : WebhookInbox.t).

Lemma find_map_id (id : string) (g : WebhookInbox.t → WebhookInbox.t)
      (rows : list WebhookInbox.t) :
  (∀ x, WebhookInbox.id (g x) = WebhookInbox.id x) →
  List.find (λ x, bool_decide (WebhookInbox.id x = id))
            (map (λ x, if bool_decide (WebhookInbox.id x = id) then g x else x) rows)
  = g <$> List.find (λ x, bool_decide (WebhookInbox.id x = id)) rows.
Proof.
  intros Hg. induction rows as [| x rows IH]; cbn; [done |].
  destruct (bool_decide (WebhookInbox.id x = id)) eqn:E.
  - rewrite Hg, E. done.
  - rewrite E. exact IH.
Qed.

Lemma replayWebhook_found rt (webhookId : string) db w :
  List.find (λ x, bool_decide (WebhookInbox.id x = webhookId)) (webhookInbox db) = Some w →
  replayWebhook rt webhookId db
  = if bool_decide (WebhookInbox.status w = WebhookStatus.PROCESSED) then
      Returned (WebhookResult.mk webhookId WebhookStatus.PROCESSED false
                  "Webhook already processed") db
    else
      Returned (WebhookResult.mk webhookId WebhookStatus.PROCESSED false
                  "Webhook replayed successfully")
        (webhookInbox_.set_rows
           (map (λ x, if bool_decide (WebhookInbox.id x = webhookId)
                      then WebhookInbox.with_processedAt (now rt)
                             (WebhookInbox.with_status WebhookStatus.PROCESSED x)
                      else x)
                (webhookInbox db)) db).
Proof.
  intros Hfind. unfold replayWebhook, webhookInbox_.findUnique_id.
  unfold bind at 1, read. rewrite Hfind.
  destruct (bool_decide _); [done |].
  unfold triggerSettlement, webhookInbox_.update, webhookInbox_.findUnique_id. tx_unfold.
  destruct (negb (truthy (WebhookInbox.reference w))); by rewrite Hfind.
Qed.

End Replay.

Section Ops.

Lemma verify_entries_account (a : string) (fromSeq : option Z) (total : Z)
      (es : list LedgerEntry.t) :
  ∀ prev, VerifyChainResult.accountId (verify_entries a fromSeq total prev es) = a.
Proof.
  induction es as [| e es IH]; intros prev; [done |]. cbn [verify_entries].
  destruct (negb _); [done |]. destruct (negb _); [done |]. apply IH.
Qed.

Lemma verifyChain_reads (a : string) (fromSeq toSeq : option Z) (db : DB) :
  ∃ result,
    verifyChain a fromSeq toSeq db = Returned result db ∧
    VerifyChainResult.accountId result = a.
Proof.
  rewrite (verifyChain_entries a fromSeq toSeq db _ eq_refl).
  destruct (ledgerEntry_.sort_asc _); [eexists; done |].
  eexists. split; [reflexivity |]. apply verify_entries_account.
Qed.

Lemma for_each_verifyChain (accounts : list string) (db : DB) :
  ∃ results,
    for_each (λ a, verifyChain a None None) accounts db = Returned results db ∧
    map VerifyChainResult.accountId results = accounts ∧
    ((∀ a, In a accounts → chained None 0 (on_account a db)) →
     Forall (λ r, VerifyChainResult.valid r = true) results).
Proof.
  induction accounts as [| a accounts (results & Hrun & Hids & Hvalid)].
  - exists []. done.
  - destruct (verifyChain_reads a None None db) as (result & Hone & Hid).
    exists (result :: results). cbn [for_each]. unfold bind, ret in *.
    rewrite Hone, Hrun. split; [done |]. split; [cbn; congruence |].
    intros Hchains. constructor.
    + rewrite (verifyChain_chained a db) in Hone by (apply Hchains; by left).
      by injection Hone as <-.
    + apply Hvalid. intros b Hb. apply Hchains. by right.
Qed.

Lemma filter_all {A} (f : A → bool) (l : list A) :
  Forall (λ x, f x = true) l → List.filter f l = l.
Proof. induction 1 as [| x l Hx _ IH]; cbn; [done |]. by rewrite Hx, IH. Qed.

End Ops.

(** X19. The webhook service never writes the books: whatever processWebhook
    and replayWebhook are given, and whether they return or throw, ledger,
    balance cache and payment intents are after the call what they were
    before it. *)
Theorem webhook_service_never_writes_the_books (rt : Runtime) (db : DB) :
  (∀ payload, same_books db (final_db (processWebhook rt payload db))) ∧
  (∀ webhookId, same_books db (final_db (replayWebhook rt webhookId db))).
Proof.
  split.
  - intros payload. unfold processWebhook.
    apply same_books_bind; [done |]. intros [existing |] db1.
    + apply same_books_bind; [| done].
      destruct (negb _); [apply same_books_update | done].
    + apply same_books_bind; [apply same_books_create |]. intros webhook db2.
      destruct (negb _).
      * apply same_books_bind; [apply same_books_update | done].
      * apply same_books_bind; [apply same_books_update |]. intros _ db3.
        apply same_books_bind; [apply same_books_trigger |]. intros _ db4.
        apply same_books_bind; [apply same_books_update | done].
  - intros webhookId. unfold replayWebhook.
    apply same_books_bind; [done |]. intros [webhook |] db1; [| done].
    destruct (bool_decide _); [done |].
    apply same_books_bind; [apply same_books_trigger |]. intros _ db2.
    apply same_books_bind; [apply same_books_update | done].
Qed.

(** X20. replayWebhook by the status of the stored delivery: an unknown id
    returns FAILED with the message that the webhook was not found; a
    PROCESSED delivery is left alone; a delivery in any other status becomes
    PROCESSED with processedAt set, all its other fields and the number of
    rows kept, and any further replay finds it already processed. *)
Theorem replayWebhook_marks_processed (rt : Runtime) (webhookId : string) (db : DB) :
  (List.find (λ x, bool_decide (WebhookInbox.id x = webhookId)) (webhookInbox db) = None →
   replayWebhook rt webhookId db
   = Returned (WebhookResult.mk webhookId WebhookStatus.FAILED false "Webhook not found")
       db) ∧
  (∀ w,
     List.find (λ x, bool_decide (WebhookInbox.id x = webhookId)) (webhookInbox db)
     = Some w →
     WebhookInbox.status w = WebhookStatus.PROCESSED →
     replayWebhook rt webhookId db
     = Returned (WebhookResult.mk webhookId WebhookStatus.PROCESSED false
                   "Webhook already processed") db) ∧
  (∀ w,
     List.find (λ x, bool_decide (WebhookInbox.id x = webhookId)) (webhookInbox db)
     = Some w →
     WebhookInbox.status w ≠ WebhookStatus.PROCESSED →
     ∃ db',
       replayWebhook rt webhookId db
       = Returned (WebhookResult.mk webhookId WebhookStatus.PROCESSED false
                     "Webhook replayed successfully") db' ∧
       List.find (λ x, bool_decide (WebhookInbox.id x = webhookId)) (webhookInbox db')
       = Some (WebhookInbox.mk (WebhookInbox.id w) (WebhookInbox.provider w)
                 (WebhookInbox.providerEventId w) (WebhookInbox.reference w)
                 (WebhookInbox.payload w) (WebhookInbox.headers w)
                 WebhookStatus.PROCESSED (WebhookInbox.errorMessage w) (Some (now rt))) ∧
       length (webhookInbox db') = length (webhookInbox db) ∧
       (∀ rt', replayWebhook rt' webhookId db'
               = Returned (WebhookResult.mk webhookId WebhookStatus.PROCESSED false
                             "Webhook already processed") db')).
Proof.
  split; [| split].
  - intros Hnone. unfold replayWebhook, webhookInbox_.findUnique_id.
    unfold bind at 1, read. by rewrite Hnone.
  - intros w Hfind Hstatus. rewrite (replayWebhook_found rt webhookId db w Hfind).
    by rewrite bool_decide_eq_true_2.
  - intros w Hfind Hstatus. rewrite (replayWebhook_found rt webhookId db w Hfind).
    rewrite bool_decide_eq_false_2 by done.
    set (db' := webhookInbox_.set_rows _ db). exists db'. split; [reflexivity |].
    assert (Hrow :
      List.find (λ x, bool_decide (WebhookInbox.id x = webhookId)) (webhookInbox db')
      = Some (WebhookInbox.with_processedAt (now rt)
                (WebhookInbox.with_status WebhookStatus.PROCESSED w))).
    { subst db'. db_simpl. rewrite find_map_id by done. by rewrite Hfind. }
    split; [exact Hrow |]. split; [subst db'; db_simpl; by rewrite length_map |].
    intros rt'.
    rewrite (replayWebhook_found rt' webhookId db' _ Hrow). done.
Qed.

(** X21. replayWebhook does not verify the signature again: a first
    flutterwave delivery that processWebhook rejected outside development
    for its signature (status FAILED) is, when replayed, returned as
    replayed successfully, and its row ends PROCESSED, still carrying the
    error message of the rejection. *)
Theorem processWebhook_rejected_then_replayed (rt rt' : Runtime)
        (payload : WebhookPayload.t) (db : DB) :
  development rt = false →
  WebhookPayload.provider payload = PaymentProvider.flutterwave →
  List.find (webhookInbox_.matches (WebhookPayload.provider payload)
               (WebhookPayload.providerEventId payload)) (webhookInbox db) = None →
  Forall (λ x, WebhookInbox.id x ≠ cuid (nextId db)) (webhookInbox db) →
  ∃ db1 db2,
    processWebhook rt payload db
    = Returned (WebhookResult.mk (cuid (nextId db)) WebhookStatus.FAILED false
                  "Signature verification failed") db1 ∧
    replayWebhook rt' (cuid (nextId db)) db1
    = Returned (WebhookResult.mk (cuid (nextId db)) WebhookStatus.PROCESSED false
                  "Webhook replayed successfully") db2 ∧
    webhookInbox db2
    = webhookInbox db ++
      [inbox_row rt' payload db WebhookStatus.PROCESSED
         (Some "Signature verification failed")].
Proof.
  intros Hdev Hprovider Hnone Hfresh.
  rewrite (processWebhook_rejected_outside_development rt payload db Hdev Hprovider
             Hnone Hfresh).
  eexists _, _. split; [reflexivity |].
  set (row := inbox_row rt payload db WebhookStatus.FAILED _).
  assert (Hfind :
    List.find (λ x, bool_decide (WebhookInbox.id x = cuid (nextId db)))
      (webhookInbox (webhookInbox_.set_rows (webhookInbox db ++ [row]) (bump db)))
    = Some row).
  { db_simpl. rewrite find_snoc.
    - cbn. by rewrite bool_decide_eq_true_2.
    - clear -Hfresh. induction Hfresh as [| x rows Hx _ IH]; cbn; [done |].
      by rewrite bool_decide_eq_false_2. }
  rewrite (replayWebhook_found rt' _ _ row Hfind). cbn [bool_decide decide_rel].
  change (bool_decide (WebhookInbox.status row = WebhookStatus.PROCESSED)) with false.
  cbn iota. split; [reflexivity |]. db_simpl.
  change (cuid (nextId db)) with (WebhookInbox.id row) in Hfresh |- *.
  by rewrite (update_created _ _ _ Hfresh).
Qed.

(** X21 at the production delivery whose verif-hash header is the configured
    secret hash. *)
Lemma processWebhook_rejected_then_replayed_witness :
  development Scenario.production = false ∧
  WebhookPayload.provider Scenario.signed_delivery = PaymentProvider.flutterwave ∧
  ∃ db1 db2,
    processWebhook Scenario.production Scenario.signed_delivery Scenario.confirmed_db
    = Returned (WebhookResult.mk "c2" WebhookStatus.FAILED false
                  "Signature verification failed") db1 ∧
    replayWebhook Scenario.production "c2" db1
    = Returned (WebhookResult.mk "c2" WebhookStatus.PROCESSED false
                  "Webhook replayed successfully") db2 ∧
    (WebhookInbox.status <$> webhookInbox db2) = [WebhookStatus.PROCESSED].
Proof.
  assert (Hdev : development Scenario.production = false) by (vm_compute; reflexivity).
  split; [exact Hdev |]. split; [reflexivity |].
  destruct (processWebhook_rejected_then_replayed Scenario.production Scenario.production
              Scenario.signed_delivery Scenario.confirmed_db Hdev eq_refl)
    as (db1 & db2 & Hfirst & Hreplay & Hinbox).
  { vm_compute. reflexivity. }
  { vm_compute. constructor. }
  exists db1, db2. split; [exact Hfirst |]. split; [exact Hreplay |].
  rewrite Hinbox. vm_compute. reflexivity.
Defined.

(** X22. OpsService.verifyChains returns one result per account, for the
    accounts given in their order, and changes nothing. In the summary the
    valid and the invalid accounts add up to the total, allValid holds
    exactly when every result is valid, and it does hold, with no invalid
    account, when every chain is intact. *)
Theorem verifyChains_summary (accountIds : list string) (verifyAll : bool) (db : DB) :
  ∃ results summary,
    verifyChains accountIds verifyAll db = Returned (results, summary) db ∧
    (verifyAll = false → map VerifyChainResult.accountId results = accountIds) ∧
    VerifyChainsSummary.totalAccounts summary = Z.of_nat (length results) ∧
    VerifyChainsSummary.validAccounts summary + VerifyChainsSummary.invalidAccounts summary
    = VerifyChainsSummary.totalAccounts summary ∧
    (VerifyChainsSummary.allValid summary = true ↔
     Forall (λ r, VerifyChainResult.valid r = true) results) ∧
    ((∀ a, chained None 0 (on_account a db)) →
     VerifyChainsSummary.allValid summary = true ∧
     VerifyChainsSummary.invalidAccounts summary = 0).
Proof.
  unfold verifyChains, walletBalanceCache_findMany_accountId.
  set (accounts := if verifyAll then (map_to_list (walletBalanceCache db)).*1
                   else accountIds).
  destruct (for_each_verifyChain accounts db) as (results & Hrun & Hids & Hvalid).
  assert (Hstart :
    (if verifyAll then read (λ db, (map_to_list (walletBalanceCache db)).*1)
     else ret accountIds) db = Returned accounts db) by (subst accounts; by destruct verifyAll).
  unfold bind at 1. rewrite Hstart. unfold bind at 1. rewrite Hrun. unfold ret.
  eexists _, _. split; [reflexivity |].
  cbn [VerifyChainsSummary.totalAccounts VerifyChainsSummary.validAccounts
       VerifyChainsSummary.invalidAccounts VerifyChainsSummary.allValid].
  split; [intros ->; exact Hids |]. split; [done |]. split; [lia |].
  assert (Hall : Forall (λ r, VerifyChainResult.valid r = true) results →
                 List.filter VerifyChainResult.valid results = results)
    by apply filter_all.
  split; [split |].
  - intros Heq. apply Z.eqb_eq, Nat2Z.inj in Heq.
    clear -Heq. induction results as [| r results IH]; [done |].
    cbn in Heq. destruct (VerifyChainResult.valid r) eqn:E.
    + cbn in Heq. constructor; [done |]. apply IH. lia.
    + pose proof (List.filter_length_le VerifyChainResult.valid results). lia.
  - intros Hf. rewrite (Hall Hf). apply Z.eqb_refl.
  - intros Hchains. rewrite (Hall (Hvalid (λ a _, Hchains a))).
    split; [apply Z.eqb_refl | lia].
Qed.

(** X23. OpsService.computeAggregates filtered on one account: the netAmount
    it returns is the text of the balance recomputeBalance returns for that
    account. *)
Theorem computeAggregates_net_is_recomputed_balance (accountId : string) (db : DB) :
  ∃ aggregates balance,
    computeAggregates (λ e, bool_decide (LedgerEntry.accountId e = accountId)) db
    = Returned aggregates db ∧
    recomputeBalance accountId db = Returned balance db ∧
    Aggregates.netAmount aggregates = Prisma.toString balance.
Proof.
  unfold computeAggregates, recomputeBalance, ledgerEntry_.findMany_account. tx_unfold.
  eexists _, _. split; [reflexivity |]. split; [reflexivity |].
  cbn [Aggregates.netAmount]. f_equal.
  generalize (List.filter (λ e, bool_decide (LedgerEntry.accountId e = accountId))
                (ledgerEntry db)).
  intros es.
  assert (H : ∀ c d b, c - d = b →
    (let totals :=
       fold_left
         (λ '(totalCredits, totalDebits) e,
            match LedgerEntry.entryType e with
            | CREDIT => (Prisma.add totalCredits (LedgerEntry.amount e), totalDebits)
            | DEBIT => (totalCredits, Prisma.add totalDebits (LedgerEntry.amount e))
            end)
         es (c, d) in
     Prisma.sub (fst totals) (snd totals))
    = fold_left
        (λ balance entry,
           match LedgerEntry.entryType entry with
           | CREDIT => Prisma.add balance (LedgerEntry.amount entry)
           | DEBIT => Prisma.sub balance (LedgerEntry.amount entry)
           end)
        es b).
  { induction es as [| e es IH]; intros c d b Hb; [exact Hb |]. cbn [fold_left].
    destruct (LedgerEntry.entryType e); apply IH; unfold Prisma.add, Prisma.sub; lia. }
  by apply H.
Qed.

(** ** The roles guard *)

Example extractUserContext_x_role_list :
  extractUserContext (<["x-role" := " Admin , OPS,root,"]> ∅)
  = Some (UserContext.mk "dev-user" None [Role.ADMIN; Role.OPS] None).
Proof. vm_compute. reflexivity. Qed.

Lemma existsb_elem (required roles : list Role.t) :
  existsb (λ role, bool_decide (role ∈ roles)) required = true ↔
  ∃ role, role ∈ required ∧ role ∈ roles.
Proof.
  rewrite existsb_exists. split.
  - intros (r & Hin & Hr). exists r. split; [by apply list_elem_of_In |].
    by apply bool_decide_eq_true_1 in Hr.
  - intros (r & Hin & Hr). exists r. split; [by apply list_elem_of_In |].
    by apply bool_decide_eq_true_2.
Qed.

Lemma extractUserContext_x_role (role : Role.t) (headers : gmap string string) :
  headers !! "x-role" = Some (Role.text role) →
  extractUserContext headers = Some (UserContext.mk "dev-user" None [role] None).
Proof.
  intros Hrole. unfold extractUserContext. rewrite Hrole.
  destruct role; vm_compute; reflexivity.
Qed.

(** X24. The roles guard trusts the x-role header: on an endpoint that is
    not public and asks for roles, a request whose x-role header names one
    of them is let in as dev-user with that role, whatever else it carries;
    no credential is looked at. *)
Theorem RolesGuard_trusts_x_role (context : ExecutionContext.t) (role : Role.t)
        (required : list Role.t) :
  default false (getAllAndOverride (ExecutionContext.handlerPublic context)
                   (ExecutionContext.classPublic context)) = false →
  getAllAndOverride (ExecutionContext.handlerRoles context)
    (ExecutionContext.classRoles context) = Some required →
  role ∈ required →
  ExecutionContext.headers context !! "x-role" = Some (Role.text role) →
  canActivate context = (inr true, Some (UserContext.mk "dev-user" None [role] None)).
Proof.
  intros Hpublic Hroles Hin Hheader. unfold canActivate.
  rewrite Hpublic, Hroles, (extractUserContext_x_role role _ Hheader).
  destruct required as [| r0 rest]; [by apply elem_of_nil in Hin |].
  cbn [UserContext.roles].
  assert (Hhas : existsb (λ r, bool_decide (r ∈ [role])) (r0 :: rest) = true).
  { apply existsb_elem. exists role. split; [done | apply list_elem_of_singleton; done]. }
  by rewrite Hhas.
Qed.

(** X24 at a handler for OPS or ADMIN and the header [x-role: admin]. *)
Lemma RolesGuard_trusts_x_role_witness :
  ExecutionContext.headers Cases.ops_endpoint !! "x-role" = Some "admin" ∧
  ExecutionContext.headers Cases.ops_endpoint !! "authorization" = None ∧
  canActivate Cases.ops_endpoint
  = (inr true, Some (UserContext.mk "dev-user" None [Role.ADMIN] None)).
Proof.
  split; [vm_compute; reflexivity |]. split; [vm_compute; reflexivity |].
  apply (RolesGuard_trusts_x_role Cases.ops_endpoint Role.ADMIN [Role.OPS; Role.ADMIN]).
  - reflexivity.
  - reflexivity.
  - apply list_elem_of_further, list_elem_of_here.
  - vm_compute. reflexivity.
Defined.

(** X25. The roles guard without an x-role header. A public endpoint lets
    every request in and attaches no user. Otherwise a request with a
    Bearer token, whatever the token, is jwt-user with the one role
    CUSTOMER: it is let in where no roles or CUSTOMER are asked for and
    refused as forbidden elsewhere. A request without Bearer token and
    without x-api-key is refused as unauthorized. *)
Theorem RolesGuard_without_x_role (context : ExecutionContext.t) :
  let headers := ExecutionContext.headers context in
  let required :=
    getAllAndOverride (ExecutionContext.handlerRoles context)
      (ExecutionContext.classRoles context) in
  (default false (getAllAndOverride (ExecutionContext.handlerPublic context)
                    (ExecutionContext.classPublic context)) = true →
   canActivate context = (inr true, None)) ∧
  (default false (getAllAndOverride (ExecutionContext.handlerPublic context)
                    (ExecutionContext.classPublic context)) = false →
   truthy (headers !! "x-role") = false →
   (∀ token,
      headers !! "authorization" = Some ("Bearer " +:+ token) →
      let user := UserContext.mk "jwt-user" None [Role.CUSTOMER]
                    (Some (String.substring 0 10 token)) in
      canActivate context
      = match required with
        | None | Some [] => (inr true, Some user)
        | Some roles =>
            if bool_decide (Role.CUSTOMER ∈ roles) then (inr true, Some user)
            else (inl (ForbiddenException
                         ("Required roles: " +:+ StringMethods.join ", " (map Role.text roles) +:+
                          ". User has: customer")),
                  Some user)
        end) ∧
   (from_option (λ h, Text.startsWith h "Bearer ") false (headers !! "authorization")
    = false →
    truthy (headers !! "x-api-key") = false →
    canActivate context
    = (inl (UnauthorizedException "Authentication required"), None))).
Proof.
  intros headers required. split; [| intros Hpublic Hrole; split].
  - intros Hpublic. unfold canActivate. by rewrite Hpublic.
  - intros token Hauth user. unfold canActivate, extractUserContext.
    fold headers. fold required. rewrite Hpublic, Hrole, Hauth.
    cbn [from_option default id]. rewrite startsWith_append.
    pose proof (substring_append "Bearer " token) as Hs. cbn [String.length] in Hs.
    rewrite Hs. cbn [decodeJwtStub]. fold user.
    destruct required as [[| r0 rest] |]; [done | | done].
    cbn [UserContext.roles user].
    destruct (bool_decide (Role.CUSTOMER ∈ r0 :: rest)) eqn:E.
    + apply bool_decide_eq_true_1 in E.
      assert (Hhas : existsb (λ r, bool_decide (r ∈ [Role.CUSTOMER])) (r0 :: rest) = true).
      { apply existsb_elem. exists Role.CUSTOMER. split; [done |].
        by apply list_elem_of_singleton. }
      by rewrite Hhas.
    + apply bool_decide_eq_false_1 in E.
      assert (Hhas : existsb (λ r, bool_decide (r ∈ [Role.CUSTOMER])) (r0 :: rest) = false).
      { apply not_true_is_false. intros Hex. apply existsb_elem in Hex as (r & Hr & Hc).
        apply list_elem_of_singleton in Hc. by subst r. }
      by rewrite Hhas.
  - intros Hbearer Hkey. unfold canActivate, extractUserContext.
    fold headers. by rewrite Hpublic, Hrole, Hbearer, Hkey.
Qed.

(** ** Payment intents: creation and lookup *)

Section Intents.

Implicit Types (dto : CreatePaymentIntentDto.t) (db : DB).

Lemma create_run dto db (a o : Prisma.Decimal) :
  Prisma.ofString (CreatePaymentIntentDto.amount dto) = Some a →
  Prisma.ofString (CreatePaymentIntentDto.originalAmount dto) = Some o →
  create dto db =
    if o <? a then
      Thrown (BadRequestException "INVALID_AMOUNTS"
                "originalAmount must be greater than or equal to amount") db
    else if a <=? 0 then
      Thrown (BadRequestException "INVALID_AMOUNT" "amount must be greater than zero") db
    else if (0 <? o - a) && negb (truthy (CreatePaymentIntentDto.discountCode dto)) then
      Thrown (BadRequestException "DISCOUNT_CODE_REQUIRED"
                "discountCode is required when discountAmount > 0") db
    else
      match List.find
              (λ i, bool_decide
                      (PaymentIntent.reference i
                       = generatePaymentReference (CreatePaymentIntentDto.orderId dto)))
              (paymentIntent db)
      with
      | Some stored_intent => Returned stored_intent db
      | None =>
          Returned (new_intent dto a o db)
            (paymentIntent_.set_rows (paymentIntent db ++ [new_intent dto a o db]) (bump db))
      end.
Proof.
  intros Ha Ho.
  unfold create, new_Decimal, validateInvariants, paymentIntent_.findUnique_reference.
  rewrite Ha, Ho.
  unfold Prisma.lessThan, Prisma.lessThanOrEqualTo, Prisma.greaterThan, Prisma.sub.
  tx_unfold. cbn beta iota.
  destruct (o <? a) eqn:E1; [done |].
  destruct (a <=? 0) eqn:E2; [done |].
  destruct ((0 <? o - a) && negb (truthy (CreatePaymentIntentDto.discountCode dto)));
    [done |].
  destruct (o - a <? 0) eqn:E4; [lia |].
  destruct (List.find _ (paymentIntent db)) as [s |] eqn:Hfind; [done |].
  unfold paymentIntent_.create, paymentIntent_.findUnique_reference. tx_unfold.
  cbn [paymentIntent PaymentIntent.reference]. by rewrite Hfind.
Qed.

Lemma create_outcome dto db :
  (∃ e, create dto db = Thrown e db ∧
        ((∃ m, e = DecimalError m) ∨
         e = BadRequestException "INVALID_AMOUNTS"
               "originalAmount must be greater than or equal to amount" ∨
         e = BadRequestException "INVALID_AMOUNT" "amount must be greater than zero" ∨
         e = BadRequestException "DISCOUNT_CODE_REQUIRED"
               "discountCode is required when discountAmount > 0")) ∨
  (∃ a o,
     Prisma.ofString (CreatePaymentIntentDto.amount dto) = Some a ∧
     Prisma.ofString (CreatePaymentIntentDto.originalAmount dto) = Some o ∧
     0 < a ∧ a <= o ∧ (a < o → truthy (CreatePaymentIntentDto.discountCode dto) = true) ∧
     match List.find
             (λ i, bool_decide
                     (PaymentIntent.reference i
                      = generatePaymentReference (CreatePaymentIntentDto.orderId dto)))
             (paymentIntent db)
     with
     | Some stored_intent => create dto db = Returned stored_intent db
     | None =>
         create dto db
         = Returned (new_intent dto a o db)
             (paymentIntent_.set_rows (paymentIntent db ++ [new_intent dto a o db])
                (bump db))
     end).
Proof.
  destruct (Prisma.ofString (CreatePaymentIntentDto.amount dto)) as [a |] eqn:Ha.
  2: { left. unfold create, new_Decimal. rewrite Ha. unfold bind at 1, throw. eauto. }
  destruct (Prisma.ofString (CreatePaymentIntentDto.originalAmount dto)) as [o |] eqn:Ho.
  2: { left. unfold create, new_Decimal. rewrite Ha, Ho. unfold bind at 1, ret.
       unfold bind at 1, throw. eauto. }
  rewrite (create_run dto db a o Ha Ho).
  destruct (o <? a) eqn:E1; [left; eauto 6 |].
  destruct (a <=? 0) eqn:E2; [left; eauto 6 |].
  destruct (0 <? o - a) eqn:E3;
    destruct (truthy (CreatePaymentIntentDto.discountCode dto)) eqn:E4; cbn [andb negb];
    try (left; eauto 7; fail);
    right; exists a, o; (repeat (split; [first [done | lia] |]));
    by destruct (List.find _ (paymentIntent db)).
Qed.

End Intents.

Lemma find_reference_snoc (rows : list PaymentIntent.t) (row : PaymentIntent.t) :
  List.find (λ i, bool_decide (PaymentIntent.reference i = PaymentIntent.reference row)) rows
  = None →
  List.find (λ i, bool_decide (PaymentIntent.reference i = PaymentIntent.reference row))
            (rows ++ [row]) = Some row.
Proof.
  intros Hnone. rewrite find_snoc by done. by rewrite bool_decide_eq_true_2.
Qed.

Lemma create_stored (dto : CreatePaymentIntentDto.t) (db db' : DB) (intent : PaymentIntent.t) :
  create dto db = Returned intent db' →
  List.find
    (λ i, bool_decide
            (PaymentIntent.reference i
             = generatePaymentReference (CreatePaymentIntentDto.orderId dto)))
    (paymentIntent db') = Some intent.
Proof.
  intros Hret.
  destruct (create_outcome dto db) as [(e & He & _) | (a & o & _ & _ & _ & _ & _ & Hrun)];
    [rewrite He in Hret; discriminate |].
  destruct (List.find _ (paymentIntent db)) as [s |] eqn:Hfind.
  - rewrite Hrun in Hret. by injection Hret as <- <-.
  - rewrite Hrun in Hret. injection Hret as <- <-. db_simpl.
    by apply (find_reference_snoc (paymentIntent db) (new_intent dto a o db)).
Qed.

(** X26. One intent per order: the intent create returns carries the
    reference PAYMENT_ followed by the order id and is what findByOrderId
    and findByReference then return. Any later create for the same order id,
    whatever its amounts, writes nothing, and returns that same intent if
    it returns. *)
Theorem create_first_writer_wins (dto : CreatePaymentIntentDto.t) (db db' : DB)
        (intent : PaymentIntent.t) :
  create dto db = Returned intent db' →
  PaymentIntent.reference intent
  = generatePaymentReference (CreatePaymentIntentDto.orderId dto) ∧
  findByOrderId (CreatePaymentIntentDto.orderId dto) db' = inr intent ∧
  findByReference (PaymentIntent.reference intent) db' = inr intent ∧
  (∀ again,
     CreatePaymentIntentDto.orderId again = CreatePaymentIntentDto.orderId dto →
     final_db (create again db') = db' ∧
     (∀ other db'', create again db' = Returned other db'' → other = intent)).
Proof.
  intros Hret. pose proof (create_stored dto db db' intent Hret) as Hfind.
  assert (Href : PaymentIntent.reference intent
                 = generatePaymentReference (CreatePaymentIntentDto.orderId dto)).
  { apply List.find_some in Hfind as [_ H]. by apply bool_decide_eq_true_1 in H. }
  split; [exact Href |].
  assert (Hread : findByOrderId (CreatePaymentIntentDto.orderId dto) db' = inr intent).
  { unfold findByOrderId, findByReference, paymentIntent_.findUnique_reference, read.
    by rewrite Hfind. }
  split; [exact Hread |]. split; [by rewrite Href |].
  intros again Hsame.
  destruct (create_outcome again db') as [(e & -> & _) | (a & o & _ & _ & _ & _ & _ & Hrun)];
    [done |].
  rewrite Hsame, Hfind in Hrun. rewrite Hrun. split; [done |]. by intros other db'' [= <- _].
Qed.

(** X26 at order O1 on the empty database and its second submission with a
    zero amount. *)
Lemma create_first_writer_wins_witness :
  ∃ intent db',
    create (Scenario.order "O1" "10000.0000") empty_db = Returned intent db' ∧
    findByOrderId "O1" db' = inr intent ∧
    final_db (create Scenario.order_again_zero db') = db'.
Proof.
  assert (Hrun : ∃ intent db',
             create (Scenario.order "O1" "10000.0000") empty_db = Returned intent db')
    by (eexists _, _; vm_compute; reflexivity).
  destruct Hrun as (intent & db' & Hrun). exists intent, db'. split; [exact Hrun |].
  destruct (create_first_writer_wins (Scenario.order "O1" "10000.0000") empty_db db'
              intent Hrun) as (_ & Hfound & _ & Hagain).
  split; [exact Hfound |].
  exact (proj1 (Hagain Scenario.order_again_zero eq_refl)).
Defined.

(** X27. For amounts written with at most four decimals and below the
    column maximum of 10^15, a create that throws has written nothing and
    throws one of three exceptions: INVALID_AMOUNTS when originalAmount is
    below amount, else INVALID_AMOUNT when amount is not above zero, else
    DISCOUNT_CODE_REQUIRED when the discount is positive and no code is
    given. INVALID_DISCOUNT is never thrown: the check for a negative
    discount comes after the one that originalAmount is not below amount. *)
Theorem create_throws_before_writing (dto : CreatePaymentIntentDto.t) (db db' : DB)
        (e : Exception) (a o : Prisma.Decimal) :
  Prisma.ofString (CreatePaymentIntentDto.amount dto) = Some a →
  Prisma.ofString (CreatePaymentIntentDto.originalAmount dto) = Some o →
  Prisma.fits_column a →
  Prisma.fits_column o →
  create dto db = Thrown e db' →
  db' = db ∧
  (e = BadRequestException "INVALID_AMOUNTS"
         "originalAmount must be greater than or equal to amount" ∧
   o < a ∨
   e = BadRequestException "INVALID_AMOUNT" "amount must be greater than zero" ∧
   a <= o ∧ a <= 0 ∨
   e = BadRequestException "DISCOUNT_CODE_REQUIRED"
         "discountCode is required when discountAmount > 0" ∧
   0 < a < o ∧ truthy (CreatePaymentIntentDto.discountCode dto) = false) ∧
  (∀ m, e ≠ BadRequestException "INVALID_DISCOUNT" m).
Proof.
  intros Ha Ho _ _ Hthrown. rewrite (create_run dto db a o Ha Ho) in Hthrown.
  destruct (o <? a) eqn:E1.
  { injection Hthrown as <- <-. split; [done |]. split; [left; split; [done | lia] |].
    intros m. discriminate. }
  destruct (a <=? 0) eqn:E2.
  { injection Hthrown as <- <-. split; [done |].
    split; [right; left; split; [done | lia] |]. intros m. discriminate. }
  destruct (0 <? o - a) eqn:E3;
    destruct (truthy (CreatePaymentIntentDto.discountCode dto)) eqn:E4;
    cbn [andb negb] in Hthrown;
    try (destruct (List.find _ (paymentIntent db)); discriminate).
  injection Hthrown as <- <-. split; [done |].
  split; [right; right; split; [done | split; [lia | done]] |]. intros m. discriminate.
Qed.

(** X27 at order O1 submitted with a zero amount. *)
Lemma create_throws_before_writing_witness :
  Prisma.ofString (CreatePaymentIntentDto.amount Scenario.order_again_zero) = Some 0 ∧
  Prisma.fits_column 0 ∧
  create Scenario.order_again_zero Scenario.confirmed_db
  = Thrown (BadRequestException "INVALID_AMOUNT" "amount must be greater than zero")
      Scenario.confirmed_db.
Proof.
  assert (Hfits : Prisma.fits_column 0) by (vm_compute; reflexivity).
  assert (Hrun : ∃ e db',
             create Scenario.order_again_zero Scenario.confirmed_db = Thrown e db')
    by (eexists _, _; vm_compute; reflexivity).
  destruct Hrun as (e & db' & Hrun).
  split; [reflexivity |]. split; [exact Hfits |].
  destruct (create_throws_before_writing Scenario.order_again_zero Scenario.confirmed_db
              db' e 0 0 eq_refl eq_refl Hfits Hfits Hrun)
    as (-> & [[_ Hlt] | [[-> _] | [_ [Hpos _]]]] & _); [lia | exact Hrun | lia].
Defined.

(** X28. For amounts written with at most four decimals and below the
    column maximum of 10^15, create keeps the intents well formed: if every
    stored intent has amount > 0, originalAmount >= amount, discountAmount =
    originalAmount - amount and a discount code when the discount is
    positive, and references are unique, the same holds after a call that
    returns, and of the intent returned. The call adds nothing, or that
    intent at the end, PENDING, with the amounts of the call and currency
    NGN unless one was given. *)
Theorem create_keeps_intents_well_formed (dto : CreatePaymentIntentDto.t) (db db' : DB)
        (intent : PaymentIntent.t) (a o : Prisma.Decimal) :
  Prisma.ofString (CreatePaymentIntentDto.amount dto) = Some a →
  Prisma.ofString (CreatePaymentIntentDto.originalAmount dto) = Some o →
  Prisma.fits_column a →
  Prisma.fits_column o →
  intents_well_formed db →
  create dto db = Returned intent db' →
  intents_well_formed db' ∧
  intent_well_formed intent ∧
  (paymentIntent db' = paymentIntent db ∨
   paymentIntent db' = paymentIntent db ++ [intent] ∧
   PaymentIntent.status intent = PaymentIntentStatus.PENDING ∧
   PaymentIntent.orderId intent = CreatePaymentIntentDto.orderId dto ∧
   PaymentIntent.currency intent = js_or (CreatePaymentIntentDto.currency dto) "NGN" ∧
   PaymentIntent.amount intent = a ∧
   PaymentIntent.originalAmount intent = o ∧
   Prisma.fits_column (PaymentIntent.discountAmount intent)).
Proof.
  intros Ha Ho Hfa Hfo [Hall Hunique] Hret.
  destruct (create_outcome dto db)
    as [(e & He & _) | (a' & o' & Ha' & Ho' & Hpos & Hle & Hcode & Hrun)];
    [rewrite He in Hret; discriminate |].
  rewrite Ha in Ha'. rewrite Ho in Ho'. injection Ha' as <-. injection Ho' as <-.
  destruct (List.find _ (paymentIntent db)) as [s |] eqn:Hfind.
  - rewrite Hrun in Hret. injection Hret as <- <-. split; [done |]. split; [| by left].
    apply List.find_some in Hfind as [Hin _].
    rewrite List.Forall_forall in Hall. by apply Hall.
  - rewrite Hrun in Hret. injection Hret as <- <-.
    assert (Hnew : intent_well_formed (new_intent dto a o db)).
    { unfold intent_well_formed, new_intent, Prisma.sub. cbn.
      repeat split; [done | done | intros Hd; apply Hcode; lia]. }
    split; [| split; [done |]].
    + split; db_simpl.
      * apply Forall_app. split; [done |]. by constructor.
      * rewrite map_app. apply NoDup_app. split; [done |]. split.
        -- intros r Hr. cbn. intros Hin. apply list_elem_of_singleton in Hin. subst r.
           apply list_elem_of_fmap in Hr as (i & Hi & Hin). apply list_elem_of_In in Hin.
           apply (List.find_none _ _ Hfind) in Hin.
           apply bool_decide_eq_false_1 in Hin. by rewrite Hi in Hin.
        -- cbn. apply NoDup_singleton.
    + right. do 6 (split; [done |]).
      unfold Prisma.fits_column, new_intent, Prisma.sub in *.
      cbn [PaymentIntent.discountAmount]. lia.
Qed.

(** X28 at order O1 on the empty database. *)
Lemma create_keeps_intents_well_formed_witness :
  Prisma.ofString (CreatePaymentIntentDto.amount (Scenario.order "O1" "10000.0000"))
  = Some 100000000 ∧
  Prisma.fits_column 100000000 ∧
  intents_well_formed empty_db ∧
  ∃ intent db',
    create (Scenario.order "O1" "10000.0000") empty_db = Returned intent db' ∧
    intents_well_formed db' ∧
    intent_well_formed intent.
Proof.
  assert (Hfits : Prisma.fits_column 100000000) by (vm_compute; reflexivity).
  assert (Hinv : intents_well_formed empty_db) by (split; constructor).
  assert (Hrun : ∃ intent db',
             create (Scenario.order "O1" "10000.0000") empty_db = Returned intent db')
    by (eexists _, _; vm_compute; reflexivity).
  destruct Hrun as (intent & db' & Hrun).
  split; [vm_compute; reflexivity |]. split; [exact Hfits |].
  split; [exact Hinv |]. exists intent, db'. split; [exact Hrun |].
  destruct (create_keeps_intents_well_formed (Scenario.order "O1" "10000.0000") empty_db
              db' intent 100000000 100000000 ltac:(vm_compute; reflexivity)
              ltac:(vm_compute; reflexivity) Hfits Hfits Hinv Hrun)
    as (Hkept & Hintent & _).
  split; [exact Hkept | exact Hintent].
Defined.

(** ** Running the seed again *)

Section Seed.

Implicit Types (db : DB) (account : SystemAccount.t).

Lemma no_entries_not_stored (a r : string) db :
  on_account a db = [] → stored a r db = None.
Proof.
  unfold on_account, stored. induction (ledgerEntry db) as [| e l IH]; [done |].
  cbn. unfold ledgerEntry_.matches at 1.
  destruct (bool_decide (LedgerEntry.accountId e = a)); [done |]. exact IH.
Qed.

Lemma seed_account_step account (d : Prisma.Decimal) db :
  Prisma.ofString (SystemAccount.initialBalance account) = Some d →
  (SystemAccount.initialBalance account = "0.0000" → d = 0) →
  cache_matches_ledger db →
  ∃ db',
    seed_account account db = Returned tt db' ∧
    cache_matches_ledger db' ∧
    is_Some (walletBalanceCache db' !! SystemAccount.accountId account) ∧
    (∀ b, is_Some (walletBalanceCache db !! b) →
          walletBalanceCache db' !! b = walletBalanceCache db !! b) ∧
    (is_Some (walletBalanceCache db !! SystemAccount.accountId account) → db' = db).
Proof.
  intros Hd Hzero Hinv. unfold seed_account, walletBalanceCache_.findUnique.
  unfold bind at 1, read.
  pose proof (Hinv (SystemAccount.accountId account)) as Ha.
  rewrite getBalance_row in Ha.
  destruct (walletBalanceCache db !! SystemAccount.accountId account) as [c |] eqn:Hc.
  { exists db. repeat split; eauto. }
  cbn in Ha. unfold new_Decimal. rewrite Hd.
  unfold walletBalanceCache_.create, walletBalanceCache_.findUnique. tx_unfold.
  rewrite Hc.
  destruct (String.eqb (SystemAccount.initialBalance account) "0.0000") eqn:E; cbn [negb].
  - apply String.eqb_eq in E. rewrite (Hzero E).
    eexists. split; [reflexivity |]. split; [| split; [| split]].
    + intros b. rewrite getBalance_row, recomputeBalance_sum. db_simpl.
      change (on_account b (walletBalanceCache_.put _ _ db)) with (on_account b db).
      destruct (decide (SystemAccount.accountId account = b)) as [<- | Hne].
      * rewrite lookup_insert_eq. cbn. by rewrite Ha.
      * rewrite lookup_insert_ne by done. specialize (Hinv b).
        rewrite getBalance_row, recomputeBalance_sum in Hinv.
        destruct (walletBalanceCache db !! b); cbn in *; [| done].
        by injection Hinv as ->.
    + db_simpl. rewrite lookup_insert_eq. eauto.
    + intros b [x Hx]. db_simpl. rewrite lookup_insert_ne; [done |]. congruence.
    + intros [x Hx]. discriminate.
  - unfold ledgerEntry_.create, ledgerEntry_.findUnique. tx_unfold.
    cbn [ledgerEntry walletBalanceCache_.put LedgerEntry.accountId LedgerEntry.reference].
    pose proof (no_entries_not_stored _ ("GENESIS_" +:+ SystemAccount.accountId account)
                  db Ha) as Hnew.
    unfold stored in Hnew. rewrite Hnew.
    eexists. split; [reflexivity |]. split; [| split; [| split]].
    + intros b. rewrite getBalance_row, recomputeBalance_sum. db_simpl.
      unfold on_account. db_simpl. rewrite List.filter_app. cbn [List.filter LedgerEntry.accountId].
      fold (on_account b db).
      destruct (decide (SystemAccount.accountId account = b)) as [<- | Hne].
      * rewrite lookup_insert_eq, bool_decide_eq_true_2 by done. cbn.
        rewrite ledger_sum_snoc, Ha. done.
      * rewrite lookup_insert_ne, bool_decide_eq_false_2, app_nil_r by done.
        specialize (Hinv b). rewrite getBalance_row, recomputeBalance_sum in Hinv.
        destruct (walletBalanceCache db !! b); cbn in *; [| done].
        by injection Hinv as ->.
    + db_simpl. rewrite lookup_insert_eq. eauto.
    + intros b [x Hx]. db_simpl. rewrite lookup_insert_ne; [done |]. congruence.
    + intros [x Hx]. discriminate.
Qed.

End Seed.

(** X29. The seed can be run on any database whose cached balances match
    its ledger, and run again: it returns, the balances still match, the
    three system wallets exist, wallets that existed before are as they
    were, and a second run changes nothing. *)
Theorem seed_can_run_again (db : DB) :
  cache_matches_ledger db →
  ∃ db',
    seed db = Returned tt db' ∧
    cache_matches_ledger db' ∧
    (∀ account, In account SYSTEM_ACCOUNTS →
                is_Some (walletBalanceCache db' !! SystemAccount.accountId account)) ∧
    (∀ accountId, is_Some (walletBalanceCache db !! accountId) →
                  walletBalanceCache db' !! accountId = walletBalanceCache db !! accountId) ∧
    seed db' = Returned tt db'.
Proof.
  intros Hinv. unfold seed, SYSTEM_ACCOUNTS. cbn [fold_right].
  set (m := SystemAccount.mk "MARKETING_WALLET" _ _).
  set (e := SystemAccount.mk "PLATFORM_ESCROW" _ _).
  set (l := SystemAccount.mk "LEGACY_MIGRATION_WALLET" _ _).
  destruct (seed_account_step m 10000000000 db) as (db1 & H1 & Hinv1 & Hm1 & Hkeep1 & _);
    [vm_compute; reflexivity | discriminate | done |].
  destruct (seed_account_step e 0 db1) as (db2 & H2 & Hinv2 & He2 & Hkeep2 & _);
    [vm_compute; reflexivity | done | done |].
  destruct (seed_account_step l 0 db2) as (db3 & H3 & Hinv3 & Hl3 & Hkeep3 & _);
    [vm_compute; reflexivity | done | done |].
  assert (Hm3 : is_Some (walletBalanceCache db3 !! "MARKETING_WALLET")).
  { rewrite Hkeep3; [rewrite Hkeep2 |]; [done | done |]. by rewrite Hkeep2. }
  assert (He3 : is_Some (walletBalanceCache db3 !! "PLATFORM_ESCROW"))
    by (by rewrite Hkeep3).
  exists db3. unfold bind, ret. rewrite H1, H2, H3.
  split; [done |]. split; [done |]. split; [| split].
  - intros account [<- | [<- | [<- | []]]]; done.
  - intros a Ha. rewrite Hkeep3, Hkeep2, Hkeep1; try done.
    + by rewrite Hkeep1.
    + rewrite Hkeep2; by rewrite Hkeep1.
  - destruct (seed_account_step m 10000000000 db3) as (x1 & -> & _ & _ & _ & Hsame1);
      [vm_compute; reflexivity | discriminate | done |].
    rewrite (Hsame1 Hm3).
    destruct (seed_account_step e 0 db3) as (x2 & -> & _ & _ & _ & Hsame2);
      [vm_compute; reflexivity | done | done |].
    rewrite (Hsame2 He3).
    destruct (seed_account_step l 0 db3) as (x3 & -> & _ & _ & _ & Hsame3);
      [vm_compute; reflexivity | done | done |].
    by rewrite (Hsame3 Hl3).
Qed.

(** X29 at the empty database. *)
Lemma seed_can_run_again_witness :
  cache_matches_ledger empty_db ∧
  ∃ db',
    seed empty_db = Returned tt db' ∧
    cache_matches_ledger db' ∧
    seed db' = Returned tt db'.
Proof.
  assert (Hinv : cache_matches_ledger empty_db) by done.
  split; [exact Hinv |].
  destruct (seed_can_run_again empty_db Hinv) as (db' & Hrun & Hkept & _ & _ & Hagain).
  exists db'. split; [exact Hrun |]. split; [exact Hkept | exact Hagain].
Defined.

(** ** Refund intents *)

Lemma refunded_snoc (paymentIntentId : string) (c c' : DB) (rows : list RefundIntent.t)
      (row : RefundIntent.t) :
  refunded paymentIntentId (mkIntentDB c' (rows ++ [row]))
  = refunded paymentIntentId (mkIntentDB c rows)
    + if bool_decide (RefundIntent.paymentIntentId row = paymentIntentId) &&
         bool_decide (RefundIntent.status row ∈
                      [RefundIntentStatus.PENDING; RefundIntentStatus.PROCESSING;
                       RefundIntentStatus.SETTLED])
      then RefundIntent.amount row else 0.
Proof.
  unfold refunded, refundIntent_findMany_active. cbn [refundIntent].
  rewrite List.filter_app. cbn [List.filter].
  destruct (_ && _).
  - rewrite fold_left_app. cbn [fold_left]. unfold Prisma.add. done.
  - rewrite app_nil_r. lia.
Qed.

Lemma findById_found (id : string) (db : DB) (intent : PaymentIntent.t) :
  findById id db = inr intent ↔ intent_of id db = Some intent.
Proof.
  unfold findById, paymentIntent_.findUnique_id, read, intent_of.
  destruct (List.find _ (paymentIntent db)) as [x |]; split; congruence.
Qed.

(** X30. For an amount written with at most four decimals, a refund intent
    that RefundIntentService.create returns is PENDING, of that amount, which
    is above zero, on a payment that findById returns as SETTLED;
    it is added at the end of the table under the next refund reference of
    that payment, and the refunds pending, in process or settled on the
    payment, the new one included, do not exceed the amount of the payment.
    Refunds of other payments, payment intents, ledger and balance cache are
    untouched, so the bound on refunds holds for every payment after the
    call if it did before. *)
Theorem refund_create_within_payment (unique_reference : bool)
        (dto : CreateRefundIntentDto.t) (s s' : IntentDB) (refund : RefundIntent.t)
        (requested : Prisma.Decimal) :
  Prisma.ofString (CreateRefundIntentDto.amount dto) = Some requested →
  RefundIntentService_create unique_reference dto s = (inr refund, s') →
  let paymentIntentId := CreateRefundIntentDto.paymentIntentId dto in
  (∃ payment,
     findById paymentIntentId (core s) = inr payment ∧
     PaymentIntent.status payment = PaymentIntentStatus.SETTLED ∧
     refunded paymentIntentId s' <= PaymentIntent.amount payment) ∧
  RefundIntent.amount refund = requested ∧
  0 < requested ∧
  RefundIntent.status refund = RefundIntentStatus.PENDING ∧
  RefundIntent.paymentIntentId refund = paymentIntentId ∧
  RefundIntent.reference refund
  = generateRefundReference paymentIntentId
      (Z.of_nat (length (refundIntent_findMany_active paymentIntentId s)) + 1) ∧
  refundIntent s' = refundIntent s ++ [refund] ∧
  refunded paymentIntentId s' = refunded paymentIntentId s + RefundIntent.amount refund ∧
  (∀ other, other ≠ paymentIntentId → refunded other s' = refunded other s) ∧
  paymentIntent (core s') = paymentIntent (core s) ∧
  ledgerEntry (core s') = ledgerEntry (core s) ∧
  walletBalanceCache (core s') = walletBalanceCache (core s) ∧
  (refunds_within_payments s → refunds_within_payments s').
Proof.
  intros Hamount Hret pid. unfold RefundIntentService_create in Hret.
  rewrite Hamount in Hret. rename requested into amount.
  unfold Prisma.lessThanOrEqualTo, Prisma.greaterThan, Prisma.sub in Hret.
  destruct (amount <=? 0) eqn:Epos; [discriminate |].
  destruct (List.find _ (paymentIntent (core s))) as [payment |] eqn:Hfind;
    [| discriminate].
  destruct (bool_decide (PaymentIntent.status payment = PaymentIntentStatus.SETTLED))
    eqn:Hsettled; [| discriminate].
  cbn [negb] in Hret. apply bool_decide_eq_true_1 in Hsettled.
  fold pid in Hret, Hfind. fold (refunded pid s) in Hret.
  destruct (_ <? amount) eqn:Erem; [discriminate |].
  destruct (unique_reference && _); [discriminate |].
  destruct s as [c rows]. cbn [core refundIntent] in *.
  set (row := RefundIntent.mk _ _ _ _ _ _ _) in Hret.
  injection Hret as <- <-.
  assert (Hsame : refunded pid (mkIntentDB (bump c) (rows ++ [row]))
                  = refunded pid (mkIntentDB c rows) + amount).
  { rewrite (refunded_snoc pid c). subst row.
    cbn [RefundIntent.paymentIntentId RefundIntent.status RefundIntent.amount].
    rewrite bool_decide_eq_true_2 by done.
    rewrite bool_decide_eq_true_2 by (apply list_elem_of_here). done. }
  assert (Hother : ∀ other, other ≠ pid →
            refunded other (mkIntentDB (bump c) (rows ++ [row]))
            = refunded other (mkIntentDB c rows)).
  { intros other Hne. rewrite (refunded_snoc other c). subst row.
    cbn [RefundIntent.paymentIntentId]. rewrite bool_decide_eq_false_2 by done.
    cbn. lia. }
  split.
  { exists payment. split; [by apply findById_found |]. split; [done |].
    rewrite Hsame. lia. }
  split; [done |]. split; [lia |]. do 4 (split; [done |]). split; [exact Hsame |].
  split; [exact Hother |]. do 3 (split; [done |]).
  intros Hinv other payment' Hfind'. cbn [core bump paymentIntent] in Hfind'.
  destruct (decide (other = pid)) as [-> | Hne].
  - rewrite Hfind in Hfind'. injection Hfind' as <-. rewrite Hsame. lia.
  - rewrite (Hother other Hne). by apply Hinv.
Qed.

(** X30 at a first refund of 100.0000 on the settled payment of order O1. *)
Lemma refund_create_within_payment_witness :
  Prisma.ofString (CreateRefundIntentDto.amount Cases.refund_O1) = Some 1000000 ∧
  ∃ refund s',
    RefundIntentService_create true Cases.refund_O1 Cases.settled_intents
    = (inr refund, s') ∧
    RefundIntent.amount refund = 1000000 ∧
    RefundIntent.reference refund = "REFUND_c0_1" ∧
    refunded "c0" s' = 1000000.
Proof.
  assert (Hamount : Prisma.ofString (CreateRefundIntentDto.amount Cases.refund_O1)
                    = Some 1000000) by (vm_compute; reflexivity).
  assert (Hrun : ∃ refund s',
             RefundIntentService_create true Cases.refund_O1 Cases.settled_intents
             = (inr refund, s'))
    by (eexists _, _; vm_compute; reflexivity).
  destruct Hrun as (refund & s' & Hrun).
  split; [exact Hamount |]. exists refund, s'. split; [exact Hrun |].
  destruct (refund_create_within_payment true Cases.refund_O1 Cases.settled_intents s'
              refund 1000000 Hamount Hrun)
    as (_ & Hstored & _ & _ & _ & Hreference & _ & Hsum & _).
  change (CreateRefundIntentDto.paymentIntentId Cases.refund_O1) with "c0" in *.
  split; [exact Hstored |]. split.
  - rewrite Hreference. vm_compute. reflexivity.
  - rewrite Hsum, Hstored. vm_compute. reflexivity.
Defined.
